(** * Meal-plan spreadsheet parser: a shallow embedding of [parser.js]

    The development follows the source file function by function:
    [safeText], [parseBaseDateFromFilename], [toISODate],
    [normalizeDateCell], [splitMenuItems], [detectHeaderColumns],
    [defaultColumnsForSite], [mondayOf] and [parseMealExcel].

    JavaScript strings are sequences of UTF-16 code units, exceptions are
    an explicit [result] type, and everything the program takes from its
    host (the number type, the spreadsheet library's serial-date decoder,
    the clock, [path.basename], the engine's non-ISO date heuristics) is a
    field of the [Host] class. *)

From Stdlib Require Import Ascii String.
From Stdlib Require Import ZArith List Bool Lia PeanoNat Sorted.
Import ListNotations.

Set Implicit Arguments.
Open Scope Z_scope.

(** ** JavaScript strings *)

Module JS.

(** A string is its list of UTF-16 code units. *)
Definition jsstring := list Z.

(** ASCII literals of the source, as code units. *)
Definition lit (s : string) : jsstring :=
  map (fun a => Z.of_N (N_of_ascii a)) (list_ascii_of_string s).

Fixpoint str_eqb (a b : jsstring) : bool :=
  match a, b with
  | [], [] => true
  | x :: a', y :: b' => (x =? y) && str_eqb a' b'
  | _, _ => false
  end.

(** [\d] and [\D]. *)
Definition isDigit (c : Z) : bool := (48 <=? c) && (c <=? 57).

(** [\s], which is also what [String.prototype.trim] strips: the
    WhiteSpace and LineTerminator code points of ECMA-262. *)
Definition isSpace (c : Z) : bool :=
  (c =? 9) || (c =? 10) || (c =? 11) || (c =? 12) || (c =? 13) ||
  (c =? 32) || (c =? 160) || (c =? 5760) ||
  ((8192 <=? c) && (c <=? 8202)) ||
  (c =? 8232) || (c =? 8233) || (c =? 8239) || (c =? 8287) ||
  (c =? 12288) || (c =? 65279).

Fixpoint dropWhile (p : Z -> bool) (s : jsstring) : jsstring :=
  match s with
  | [] => []
  | c :: s' => if p c then dropWhile p s' else s
  end.

Fixpoint takeWhile (p : Z -> bool) (s : jsstring) : jsstring :=
  match s with
  | [] => []
  | c :: s' => if p c then c :: takeWhile p s' else []
  end.

Definition trimStart (s : jsstring) : jsstring := dropWhile isSpace s.
Definition trimEnd (s : jsstring) : jsstring := rev (dropWhile isSpace (rev s)).

(** [s.trim()] *)
Definition trim (s : jsstring) : jsstring := trimEnd (trimStart s).

(** [s.includes(kw)] *)
Fixpoint startsWith (kw s : jsstring) : bool :=
  match kw, s with
  | [], _ => true
  | k :: kw', c :: s' => (k =? c) && startsWith kw' s'
  | _ :: _, [] => false
  end.

Fixpoint includes (s kw : jsstring) : bool :=
  startsWith kw s ||
  match s with
  | [] => false
  | _ :: s' => includes s' kw
  end.

(** [Number(s)] for a string of decimal digits (the only use in the
    source: regular-expression groups made of [\d]). *)
Definition Number_of_digits (s : jsstring) : Z :=
  fold_left (fun acc c => 10 * acc + (c - 48)) s 0.

(** A number that is an integer or [NaN] (what the [Date] getters return). *)
Inductive jsint :=
| Int (z : Z)
| NaN.

Fixpoint uint_units (u : Decimal.uint) : jsstring :=
  match u with
  | Decimal.Nil => []
  | Decimal.D0 u => 48 :: uint_units u
  | Decimal.D1 u => 49 :: uint_units u
  | Decimal.D2 u => 50 :: uint_units u
  | Decimal.D3 u => 51 :: uint_units u
  | Decimal.D4 u => 52 :: uint_units u
  | Decimal.D5 u => 53 :: uint_units u
  | Decimal.D6 u => 54 :: uint_units u
  | Decimal.D7 u => 55 :: uint_units u
  | Decimal.D8 u => 56 :: uint_units u
  | Decimal.D9 u => 57 :: uint_units u
  end.

(** [String(n)] for an integer [n]: decimal digits, a leading [-] when
    negative. *)
Definition String_of_Z (z : Z) : jsstring :=
  match Z.to_int z with
  | Decimal.Pos u => uint_units u
  | Decimal.Neg u => 45 :: uint_units u
  end.

Definition String_of_jsint (n : jsint) : jsstring :=
  match n with
  | Int z => String_of_Z z
  | NaN => lit "NaN"
  end.

(** [s.padStart(2, '0')] *)
Definition padStart2 (s : jsstring) : jsstring :=
  repeat 48 (2 - length s)%nat ++ s.

(** Comparison of strings by code units: the order of [Array.prototype.sort]
    without a comparator, and of [<] on strings. *)
Fixpoint str_compare (a b : jsstring) : comparison :=
  match a, b with
  | [], [] => Eq
  | [], _ :: _ => Lt
  | _ :: _, [] => Gt
  | x :: a', y :: b' =>
      match x ?= y with
      | Eq => str_compare a' b'
      | c => c
      end
  end.

Definition str_leb (a b : jsstring) : bool :=
  match str_compare a b with Gt => false | _ => true end.

(** ** Exceptions *)

Inductive exn :=
| RangeError        (* [toISOString] on an invalid [Date]; too many
                       arguments spread into one call *)
| TypeError         (* a property read on [undefined] *)
| ReadError.        (* [xlsx.readFile] could not open or decode the file *)

Inductive result (A : Type) :=
| Ok (a : A)
| Throw (e : exn).

Arguments Ok {A} a.
Arguments Throw {A} e.

Definition bind {A B} (r : result A) (k : A -> result B) : result B :=
  match r with
  | Ok a => k a
  | Throw e => Throw e
  end.

End JS.

Import JS.

Notation "x <- r ;; k" := (bind r (fun x => k))
  (at level 61, r at next level, right associativity).

Declare Scope js_scope.
Delimit Scope js_scope with js.
Notation "'$' s" := (lit s%string) (at level 1, format "'$' s") : js_scope.
Open Scope js_scope.

(** ** The calendar of ECMA-262 (section "Time Values and Time Range")

    Day numbers count from 1970-01-01.  The [Date] methods the parser
    calls ([getFullYear], [getMonth], [getDate], [getDay], [setDate]) all
    work on local time, so a [Date] is modelled by its local day number;
    the time of day is never observed. *)

Module Calendar.

Definition DaysInYear (y : Z) : Z :=
  if negb (y mod 4 =? 0) then 365
  else if negb (y mod 100 =? 0) then 366
  else if negb (y mod 400 =? 0) then 365
  else 366.

Definition DayFromYear (y : Z) : Z :=
  365 * (y - 1970) + (y - 1969) / 4 - (y - 1901) / 100 + (y - 1601) / 400.

(** The largest [y] with [DayFromYear y <= day]: an estimate from the mean
    year length, corrected by at most one year. *)
Definition YearFromDay (day : Z) : Z :=
  let y0 := 1970 + (400 * day) / 146097 in
  if day <? DayFromYear y0 then y0 - 1
  else if DayFromYear (y0 + 1) <=? day then y0 + 1
  else y0.

Definition InLeapYear (y : Z) : Z :=
  if DaysInYear y =? 366 then 1 else 0.

Definition DayWithinYear (day : Z) : Z :=
  day - DayFromYear (YearFromDay day).

(** Day within the year on which month [m] (0 = January) starts. *)
Definition monthStart (m leap : Z) : Z :=
  match m with
  | 0 => 0
  | 1 => 31
  | 2 => 59 + leap
  | 3 => 90 + leap
  | 4 => 120 + leap
  | 5 => 151 + leap
  | 6 => 181 + leap
  | 7 => 212 + leap
  | 8 => 243 + leap
  | 9 => 273 + leap
  | 10 => 304 + leap
  | _ => 334 + leap
  end.

Definition MonthFromDay (day : Z) : Z :=
  let d := DayWithinYear day in
  let leap := InLeapYear (YearFromDay day) in
  if d <? 31 then 0
  else if d <? 59 + leap then 1
  else if d <? 90 + leap then 2
  else if d <? 120 + leap then 3
  else if d <? 151 + leap then 4
  else if d <? 181 + leap then 5
  else if d <? 212 + leap then 6
  else if d <? 243 + leap then 7
  else if d <? 273 + leap then 8
  else if d <? 304 + leap then 9
  else if d <? 334 + leap then 10
  else 11.

Definition DateFromDay (day : Z) : Z :=
  DayWithinYear day
  - monthStart (MonthFromDay day) (InLeapYear (YearFromDay day)) + 1.

(** 0 = Sunday; 1970-01-01 was a Thursday. *)
Definition WeekDay (day : Z) : Z := (day + 4) mod 7.

(** [MakeDay(year, month, date)] with a 0-based month; months and dates
    outside their range roll over. *)
Definition MakeDay (year month date : Z) : Z :=
  let ym := year + month / 12 in
  let mn := month mod 12 in
  DayFromYear ym + monthStart mn (InLeapYear ym) + date - 1.

(** Number of days of month [m] (1 = January) of year [y]. *)
Definition DaysInMonth (y m : Z) : Z :=
  match m with
  | 2 => 28 + InLeapYear y
  | 4 | 6 | 9 | 11 => 30
  | _ => 31
  end.

(** [y]-[m]-[d] is a date of the calendar ([m] from 1). *)
Definition civil (y m d : Z) : Prop :=
  1 <= m <= 12 /\ 1 <= d <= DaysInMonth y m.

(** [TimeClip]: a valid [Date] lies within 100,000,000 days of the epoch. *)
Definition TimeClip (day : Z) : option Z :=
  if Z.abs day <=? 100000000 then Some day else None.

End Calendar.

Import Calendar.

(** ** The host *)

(** What [xlsx.SSF.parse_date_code] returns: an object whose [y], [m] and
    [d] fields the parser reads. *)
Record date_code := { dc_y : Z; dc_m : Z; dc_d : Z }.

(** Everything external to [parser.js]. *)
Class Host := {
  (** values with [typeof v === 'number'] *)
  number : Type;
  Number_isFinite : number -> bool;
  (** [String(v)] on a number *)
  String_of_number : number -> jsstring;
  (** [xlsx.SSF.parse_date_code]; [None] is its [null] *)
  parse_date_code : number -> option date_code;
  (** [new Date().getFullYear()] *)
  currentYear : Z;
  (** [path.basename] *)
  basename : jsstring -> jsstring;
  (** what [new Date(s)] makes of a string outside the Date Time String
      Format (implementation-defined); the local day number, [None] for an
      invalid [Date] *)
  Date_heuristic : jsstring -> option Z;
  (** whether a call that spreads [n] arguments, as [push(...items)]
      does, fits the stack of the engine; the call raises a [RangeError]
      when it does not *)
  spread_ok : nat -> bool
}.

(** ** Regular expressions of the source

    Each regular expression is written with backtracking combinators in
    continuation-passing style: a combinator takes the matcher [k] of the
    rest of the expression, and tries its own alternatives in the order
    of the engine (greedy first) until [k] succeeds. *)

Module Regex.

Section Combinators.
Variable A : Type.

(** one character of a class *)
Definition cls (p : Z -> bool) (k : jsstring -> option A) (s : jsstring)
  : option A :=
  match s with
  | c :: s' => if p c then k s' else None
  | [] => None
  end.

(** [a|b] *)
Definition alt (a b : jsstring -> option A) (s : jsstring) : option A :=
  match a s with
  | Some r => Some r
  | None => b s
  end.

(** [$] (no [m] flag: end of input only) *)
Definition eoi (k : jsstring -> option A) (s : jsstring) : option A :=
  match s with
  | [] => k []
  | _ :: _ => None
  end.

(** [\s*], greedy *)
Fixpoint spaces (k : jsstring -> option A) (s : jsstring) : option A :=
  match s with
  | c :: s' =>
      if isSpace c then
        match spaces k s' with
        | Some r => Some r
        | None => k s
        end
      else k s
  | [] => k []
  end.

(** [(\d{n})]: the group and the rest go to [k] *)
Definition digitsN (n : nat) (k : jsstring -> jsstring -> option A)
  (s : jsstring) : option A :=
  let g := firstn n s in
  if (length g =? n)%nat && forallb isDigit g then k g (skipn n s)
  else None.

(** [(\d{1,2})]: two digits first, then one *)
Definition digits12 (k : jsstring -> jsstring -> option A) : jsstring -> option A :=
  alt (digitsN 2 k) (digitsN 1 k).

(** a literal under the [i] flag: only ASCII letters of the pattern
    have a second case *)
Definition ci_eqb (p c : Z) : bool :=
  (c =? p) || ((65 <=? p) && (p <=? 90) && (c =? p + 32)).

Fixpoint ci_lit (w : jsstring) (k : jsstring -> option A) (s : jsstring)
  : option A :=
  match w with
  | [] => k s
  | p :: w' => cls (ci_eqb p) (ci_lit w' k) s
  end.

(** the search of [match] and [test]: the expression is tried at each
    position from the left; [atStart] tells the attempt whether [^]
    holds *)
Fixpoint search (at_ : bool -> jsstring -> option A) (atStart : bool)
  (s : jsstring) : option A :=
  match at_ atStart s with
  | Some r => Some r
  | None =>
      match s with
      | [] => None
      | _ :: s' => search at_ false s'
      end
  end.
End Combinators.

Definition notDigit (c : Z) : bool := negb (isDigit c).

(** [/(^|\D)(\d{6})(\D|$)/]; the result is group 2.  [filename_date_tail]
    is [(\d{6})(\D|$)], [filename_date_at] one attempt at a position. *)
Definition filename_date_tail : jsstring -> option jsstring :=
  digitsN 6 (fun g => alt (cls notDigit (fun _ => Some g))
                          (eoi (fun _ => Some g))).

Definition filename_date_at (atStart : bool) : jsstring -> option jsstring :=
  alt (fun s => if atStart then filename_date_tail s else None)
      (cls notDigit filename_date_tail).

Definition re_filename_date : jsstring -> option jsstring :=
  search filename_date_at true.

(** [/(\d{1,2})\s*\/\s*(\d{1,2})/]; the result is groups 1 and 2. *)
Definition month_day_at (_ : bool) : jsstring -> option (jsstring * jsstring) :=
  digits12 (fun m =>
    spaces (cls (Z.eqb 47)
      (spaces (digits12 (fun d _ => Some (m, d)))))).

Definition re_month_day : jsstring -> option (jsstring * jsstring) :=
  search month_day_at true.

(** [/(\d{4})-(\d{1,2})-(\d{1,2})/]; the result is groups 1, 2 and 3. *)
Definition iso_at (_ : bool)
  : jsstring -> option (jsstring * jsstring * jsstring) :=
  digitsN 4 (fun y =>
    cls (Z.eqb 45)
      (digits12 (fun m =>
        cls (Z.eqb 45)
          (digits12 (fun d _ => Some (y, m, d)))))).

Definition re_iso : jsstring -> option (jsstring * jsstring * jsstring) :=
  search iso_at true.

(** The label words of [splitMenuItems]. *)
Definition w_breakfast : jsstring := [51312; 49885].        (* 조식 *)
Definition w_lunch : jsstring := [51473; 49885].            (* 중식 *)
Definition w_dinner : jsstring := [49437; 49885].           (* 석식 *)
Definition w_night : jsstring := [50556; 49885].            (* 야식 *)
Definition w_salad : jsstring := [49360; 47084; 46300].     (* 샐러드 *)
Definition w_corner : jsstring := [53076; 45320].           (* 코너 *)

(** [/^\s*(조식|중식|석식|야식|샐러드|A\s*코너|B\s*코너)\s*$/i] as used by
    [test]. *)
Definition re_header_label : jsstring -> bool :=
  let fin := spaces (eoi (fun _ => Some tt)) in
  fun s =>
    match
      search (fun atStart s =>
                if atStart then
                  spaces
                    (alt (ci_lit w_breakfast fin)
                    (alt (ci_lit w_lunch fin)
                    (alt (ci_lit w_dinner fin)
                    (alt (ci_lit w_night fin)
                    (alt (ci_lit w_salad fin)
                    (alt (ci_lit [65] (spaces (ci_lit w_corner fin)))
                         (ci_lit [66] (spaces (ci_lit w_corner fin))))))))) s
                else None)
             true s
    with
    | Some _ => true
    | None => false
    end.

End Regex.

Import Regex.

(** ** Cell values and [Date] objects *)

(** A [Date] object: invalid, or a local day number together with the
    text [toISOString] gives for it (UTC, so it depends on the time zone
    of the host and is carried with the value). *)
Inductive JSDate :=
| InvalidDate
| ValidDate (localDay : Z) (isoText : jsstring).

Section Parser.
Context {H : Host}.

(** What [sheet_to_json] with [raw: true, defval: null] puts in a grid,
    and [undefined] for an index past the end of a row. *)
Inductive cell :=
| CNull
| CUndefined
| CString (s : jsstring)
| CNumber (n : number)
| CBoolean (b : bool)
| CDate (d : JSDate).

Definition row := list cell.

(** [row[c]] *)
Definition cellAt (r : row) (c : nat) : cell := nth c r CUndefined.

Definition safeText (v : cell) : result jsstring :=
  match v with
  | CNull | CUndefined => Ok []
  | CString s => Ok s
  | CDate InvalidDate => Throw RangeError
  | CDate (ValidDate _ iso) => Ok iso
  | CNumber n => Ok (String_of_number n)
  | CBoolean b => Ok (if b then $"true" else $"false")
  end.

(** ** [parseBaseDateFromFilename] *)

(** The object [{ y, mo, d }]. *)
Record base_date := { bd_y : Z; bd_mo : Z; bd_d : Z }.

(** [m[2].slice(i, j)] *)
Definition slice (s : jsstring) (i j : nat) : jsstring :=
  firstn (j - i) (skipn i s).

Definition parseBaseDateFromFilename (filename : jsstring) : option base_date :=
  let base := basename filename in
  match re_filename_date base with
  | None => None
  | Some m2 =>
      let y := 2000 + Number_of_digits (slice m2 0 2) in
      let mo := Number_of_digits (slice m2 2 4) in
      let d := Number_of_digits (slice m2 4 6) in
      if (y =? 0) || (mo =? 0) || (d =? 0) then None
      else Some {| bd_y := y; bd_mo := mo; bd_d := d |}
  end.

(** ** [toISODate] *)

Definition toISODate (y m d : jsint) : jsstring :=
  let mm := padStart2 (String_of_jsint m) in
  let dd := padStart2 (String_of_jsint d) in
  String_of_jsint y ++ [45] ++ mm ++ [45] ++ dd.

(** ** [Date] methods *)

Definition getFullYear (d : JSDate) : jsint :=
  match d with
  | ValidDate day _ => Int (YearFromDay day)
  | InvalidDate => NaN
  end.

Definition getMonth (d : JSDate) : jsint :=
  match d with
  | ValidDate day _ => Int (MonthFromDay day)
  | InvalidDate => NaN
  end.

Definition getDate (d : JSDate) : jsint :=
  match d with
  | ValidDate day _ => Int (DateFromDay day)
  | InvalidDate => NaN
  end.

Definition getDay (d : JSDate) : jsint :=
  match d with
  | ValidDate day _ => Int (WeekDay day)
  | InvalidDate => NaN
  end.

Definition jsint_add (a b : jsint) : jsint :=
  match a, b with
  | Int x, Int y => Int (x + y)
  | _, _ => NaN
  end.

Definition jsint_sub (a b : jsint) : jsint :=
  match a, b with
  | Int x, Int y => Int (x - y)
  | _, _ => NaN
  end.

(** [a === 0] *)
Definition is_zero (a : jsint) : bool :=
  match a with
  | Int x => x =? 0
  | NaN => false
  end.

(** A [Date] made by this module from a local day number; its
    [toISOString] text is never read. *)
Definition dateOfDay (day : option Z) : JSDate :=
  match day with
  | Some n => ValidDate n []
  | None => InvalidDate
  end.

(** [d.setDate(dt)] *)
Definition setDate (d : JSDate) (dt : jsint) : JSDate :=
  match d, dt with
  | ValidDate day _, Int n =>
      dateOfDay (TimeClip (MakeDay (YearFromDay day) (MonthFromDay day) n))
  | _, _ => InvalidDate
  end.

(** [new Date(dateISO + 'T00:00:00')].  A string [YYYY-MM-DD] of digits
    is in the Date Time String Format and read as local time; V8 accepts
    months 1..12 and days 1..31 and lets [MakeDay] roll a day past the end
    of its month over.  Any other string is left to the host. *)
Definition Date_of_local_midnight (dateISO : jsstring) : JSDate :=
  match dateISO with
  | [y3; y2; y1; y0; 45; m1; m0; 45; d1; d0] =>
      if forallb isDigit [y3; y2; y1; y0; m1; m0; d1; d0] then
        let year := Number_of_digits [y3; y2; y1; y0] in
        let month := Number_of_digits [m1; m0] in
        let day := Number_of_digits [d1; d0] in
        if (1 <=? month) && (month <=? 12) && (1 <=? day) && (day <=? 31)
        then dateOfDay (TimeClip (MakeDay year (month - 1) day))
        else InvalidDate
      else dateOfDay (Date_heuristic (dateISO ++ $"T00:00:00"))
  | _ => dateOfDay (Date_heuristic (dateISO ++ $"T00:00:00"))
  end.

(** ** [normalizeDateCell] *)

(** [a ?? b] *)
Definition nullish (a : option Z) (b : Z) : Z :=
  match a with
  | Some v => v
  | None => b
  end.

Definition normalizeDateCell (c : cell) (baseYearGuess : option Z)
  : result (option jsstring) :=
  match c with
  | CDate ((ValidDate _ _) as dt) =>
      Ok (Some (toISODate (getFullYear dt) (jsint_add (getMonth dt) (Int 1))
                          (getDate dt)))
  | _ =>
      match
        match c with
        | CNumber n =>
            if Number_isFinite n then
              match parse_date_code n with
              | Some dc =>
                  if negb (dc_y dc =? 0) && negb (dc_m dc =? 0)
                     && negb (dc_d dc =? 0)
                  then Some (toISODate (Int (dc_y dc)) (Int (dc_m dc))
                                       (Int (dc_d dc)))
                  else None
              | None => None
              end
            else None
        | _ => None
        end
      with
      | Some r => Ok (Some r)
      | None =>
          t <- safeText c ;;
          let s := trim t in
          match s with
          | [] => Ok None
          | _ :: _ =>
              match re_month_day s with
              | Some (md1, md2) =>
                  let m := Number_of_digits md1 in
                  let d := Number_of_digits md2 in
                  let y := nullish baseYearGuess currentYear in
                  Ok (Some (toISODate (Int y) (Int m) (Int d)))
              | None =>
                  match re_iso s with
                  | Some (iso1, iso2, iso3) =>
                      Ok (Some (toISODate (Int (Number_of_digits iso1))
                                          (Int (Number_of_digits iso2))
                                          (Int (Number_of_digits iso3))))
                  | None => Ok None
                  end
              end
          end
      end
  end.

(** ** [splitMenuItems] *)

(** [.replace(/\r/g, '')] *)
Definition stripCR (s : jsstring) : jsstring :=
  filter (fun c => negb (c =? 13)) s.

(** [.replace(/\u00A0/g, ' ')] *)
Definition nbspToSpace (s : jsstring) : jsstring :=
  map (fun c => if c =? 160 then 32 else c) s.

(** [t.split(/\n+/)]: [cur] is the piece being read (reversed), [inSep]
    tells that the previous character was a newline of the separator. *)
Fixpoint splitNewlines (s cur : jsstring) (inSep : bool) : list jsstring :=
  match s with
  | [] => [rev cur]
  | c :: s' =>
      if c =? 10 then
        if inSep then splitNewlines s' [] true
        else rev cur :: splitNewlines s' [] true
      else splitNewlines s' (c :: cur) false
  end.

(** [Boolean(p)] on a string *)
Definition nonEmpty (p : jsstring) : bool :=
  match p with
  | [] => false
  | _ :: _ => true
  end.

Definition splitMenuItems (text : cell) : result (list jsstring) :=
  raw <- safeText text ;;
  let t := trim (nbspToSpace (stripCR raw)) in
  match t with
  | [] => Ok []
  | _ :: _ =>
      let parts := filter nonEmpty (map trim (splitNewlines t [] false)) in
      Ok (filter (fun p => negb (re_header_label p)) parts)
  end.

(** ** [detectHeaderColumns] *)

(** The six [Set]s of [found]; a [Set] keeps insertion order. *)
Record found_sets := {
  f_breakfast : list nat;
  f_lunch : list nat;
  f_dinner : list nat;
  f_night : list nat;
  f_salad : list nat;
  f_corner : list nat
}.

(** The object [detectHeaderColumns] returns: no [corner] field. *)
Record detected_columns := {
  det_breakfast : list nat;
  det_lunch : list nat;
  det_dinner : list nat;
  det_night : list nat;
  det_salad : list nat
}.

(** [set.add(c)] *)
Definition set_add (c : nat) (s : list nat) : list nat :=
  if existsb (Nat.eqb c) s then s else s ++ [c].

(** [.replace(/\s+/g, ' ')] *)
Fixpoint collapseSpaces (s : jsstring) (inRun : bool) : jsstring :=
  match s with
  | [] => []
  | c :: s' =>
      if isSpace c then
        if inRun then collapseSpaces s' true
        else 32 :: collapseSpaces s' true
      else c :: collapseSpaces s' false
  end.

(** [if (arr.some(kw => s.includes(kw))) found[k].add(c)] *)
Definition hit (arr : list jsstring) (s : jsstring) (c : nat)
  (set : list nat) : list nat :=
  if existsb (includes s) arr then set_add c set else set.

(** the body of the loop over [c], for one cell *)
Definition scanCell (v : cell) (c : nat) (found : found_sets)
  : result found_sets :=
  t <- safeText v ;;
  let s := trim (collapseSpaces t false) in
  match s with
  | [] => Ok found
  | _ :: _ =>
      Ok {| f_breakfast := hit [w_breakfast] s c (f_breakfast found);
            f_lunch := hit [w_lunch] s c (f_lunch found);
            f_dinner := hit [w_dinner] s c (f_dinner found);
            f_night := hit [w_night] s c (f_night found);
            f_salad := hit [w_salad] s c (f_salad found);
            f_corner := hit [w_corner] s c (f_corner found) |}
  end.

(** the loop [for (c = ...; c < row.length; c++)], from column [c] on *)
Fixpoint scanRow (r : row) (c : nat) (found : found_sets)
  : result found_sets :=
  match r with
  | [] => Ok found
  | v :: r' =>
      found' <- scanCell v c found ;;
      scanRow r' (S c) found'
  end.

(** the loop over the rows of the scan window *)
Fixpoint scanRows (rows : list row) (found : found_sets)
  : result found_sets :=
  match rows with
  | [] => Ok found
  | r :: rows' =>
      found' <- scanRow r 0 found ;;
      scanRows rows' found'
  end.

Fixpoint insertNat (x : nat) (l : list nat) : list nat :=
  match l with
  | [] => [x]
  | h :: t => if (x <=? h)%nat then x :: l else h :: insertNat x t
  end.

(** [Array.from(set).sort((a, b) => a - b)] *)
Definition pick (set : list nat) : list nat :=
  fold_right insertNat [] set.

Definition detectHeaderColumns (rows : list row) : result detected_columns :=
  let found0 := {| f_breakfast := []; f_lunch := []; f_dinner := [];
                   f_night := []; f_salad := []; f_corner := [] |} in
  let scanLimit := Nat.min (length rows) 35 in
  found <- scanRows (firstn scanLimit rows) found0 ;;
  Ok {| det_breakfast := pick (f_breakfast found);
        det_lunch := pick (f_lunch found);
        det_dinner := pick (f_dinner found);
        det_night := pick (f_night found);
        det_salad := pick (f_salad found) |}.

(** ** [defaultColumnsForSite] *)

Record column_map := {
  cm_breakfast : list nat;
  cm_lunch : list nat;
  cm_dinner : list nat;
  cm_extras : list (string * list nat)
}.

Definition defaultColumnsForSite (site : jsstring) : column_map :=
  if str_eqb site $"main" then
    {| cm_breakfast := [1]; cm_lunch := [3; 4]; cm_dinner := [5; 6];
       cm_extras := [("night"%string, [7; 8])] |}%nat
  else
    {| cm_breakfast := [1; 2]; cm_lunch := [3; 4]; cm_dinner := [5; 6];
       cm_extras := [("salad"%string, [7]); ("night"%string, [8])] |}%nat.

(** ** [mondayOf] *)

Definition mondayOf (dateISO : jsstring) : jsstring :=
  let d := Date_of_local_midnight dateISO in
  let day := getDay d in
  let diff := if is_zero day then Int (-6) else jsint_sub (Int 1) day in
  let d' := setDate d (jsint_add (getDate d) diff) in
  toISODate (getFullYear d') (jsint_add (getMonth d') (Int 1)) (getDate d').

(** ** [parseMealExcel] *)

(** A day while rows are read: [extras] is an object, possibly empty. *)
Record DayBuckets := {
  b_breakfast : list jsstring;
  b_lunch : list jsstring;
  b_dinner : list jsstring;
  b_extras : list (string * list jsstring)
}.

(** A day of the returned document: [extras] may have been deleted. *)
Record DayMenu := {
  breakfast : list jsstring;
  lunch : list jsstring;
  dinner : list jsstring;
  extras : option (list (string * list jsstring))
}.

Record MealDocument := {
  site : jsstring;
  source_filename : jsstring;
  source_sheet : option jsstring;   (* [undefined] in a book without sheets *)
  weekStart : option jsstring;
  days : list (jsstring * DayMenu)
}.

(** What [xlsx.readFile] gives: the sheet names in order and, for a name,
    the grid [sheet_to_json] makes of that sheet. *)
Record workbook := {
  SheetNames : list jsstring;
  Sheets : jsstring -> option (list row)
}.

(** Objects used as maps keep their keys in insertion order. *)
Section Objects.
Variables (K V : Type) (eqb : K -> K -> bool).

Fixpoint obj_get (k : K) (o : list (K * V)) : option V :=
  match o with
  | [] => None
  | (k', v) :: o' => if eqb k k' then Some v else obj_get k o'
  end.

(** [o[k] = v] *)
Fixpoint obj_set (k : K) (v : V) (o : list (K * V)) : list (K * V) :=
  match o with
  | [] => [(k, v)]
  | (k', v') :: o' =>
      if eqb k k' then (k, v) :: o' else (k', v') :: obj_set k v o'
  end.
End Objects.

Definition emptyDay : DayBuckets :=
  {| b_breakfast := []; b_lunch := []; b_dinner := []; b_extras := [] |}.

(** [if (!days[currentDate]) days[currentDate] = {...}] *)
Definition ensureDay (dt : jsstring) (ds : list (jsstring * DayBuckets))
  : list (jsstring * DayBuckets) :=
  match obj_get str_eqb dt ds with
  | Some _ => ds
  | None => obj_set str_eqb dt emptyDay ds
  end.

(** The closure [addTo(key, cols)] for a meal key: the bucket after the
    loop over [cols]. *)
Fixpoint addTo (r : row) (cols : list nat) (bucket : list jsstring)
  : result (list jsstring) :=
  match cols with
  | [] => Ok bucket
  | c :: cols' =>
      items <- splitMenuItems (cellAt r c) ;;
      match items with
      | [] => addTo r cols' bucket
      | _ :: _ =>
          (* [bucket.push(...items)] *)
          if spread_ok (length items) then addTo r cols' (bucket ++ items)
          else Throw RangeError
      end
  end.

(** The inner loop of the extras: the columns of one label [ek]. *)
Fixpoint addExtra (r : row) (ek : string) (cols : list nat)
  (ex : list (string * list jsstring)) : result (list (string * list jsstring)) :=
  match cols with
  | [] => Ok ex
  | c :: cols' =>
      items <- splitMenuItems (cellAt r c) ;;
      match items with
      | [] => addExtra r ek cols' ex
      | _ :: _ =>
          let old := match obj_get String.eqb ek ex with
                     | Some l => l
                     | None => []
                     end in
          (* [extras[ek].push(...items)] *)
          if spread_ok (length items) then
            addExtra r ek cols' (obj_set String.eqb ek (old ++ items) ex)
          else Throw RangeError
      end
  end.

(** The loop over [Object.entries(mealCols.extras)]. *)
Fixpoint addExtras (r : row) (entries : list (string * list nat))
  (ex : list (string * list jsstring)) : result (list (string * list jsstring)) :=
  match entries with
  | [] => Ok ex
  | (ek, cols) :: entries' =>
      ex' <- addExtra r ek cols ex ;;
      addExtras r entries' ex'
  end.

(** The state of the loop over the rows. *)
Record loop_state := {
  currentDate : option jsstring;
  allDates : list jsstring;
  days_acc : list (jsstring * DayBuckets)
}.

(** One iteration of the loop over the rows. *)
Definition rowStep (mealCols : column_map) (baseYearGuess : option Z)
  (st : loop_state) (r : row) : result loop_state :=
  dateISO <- normalizeDateCell (cellAt r 0) baseYearGuess ;;
  match dateISO with
  | Some ((_ :: _) as dt) =>
      Ok {| currentDate := Some dt;
            allDates := allDates st ++ [dt];
            days_acc := ensureDay dt (days_acc st) |}
  | _ =>
      match currentDate st with
      | Some ((_ :: _) as cur) =>
          match obj_get str_eqb cur (days_acc st) with
          | None => Throw TypeError
          | Some day =>
              b <- addTo r (cm_breakfast mealCols) (b_breakfast day) ;;
              l <- addTo r (cm_lunch mealCols) (b_lunch day) ;;
              dn <- addTo r (cm_dinner mealCols) (b_dinner day) ;;
              ex <- addExtras r (cm_extras mealCols) (b_extras day) ;;
              Ok {| currentDate := currentDate st;
                    allDates := allDates st;
                    days_acc :=
                      obj_set str_eqb cur
                        {| b_breakfast := b; b_lunch := l; b_dinner := dn;
                           b_extras := ex |}
                        (days_acc st) |}
          end
      | _ => Ok st
      end
  end.

Fixpoint rowLoop (mealCols : column_map) (baseYearGuess : option Z)
  (st : loop_state) (rows : list row) : result loop_state :=
  match rows with
  | [] => Ok st
  | r :: rows' =>
      st' <- rowStep mealCols baseYearGuess st r ;;
      rowLoop mealCols baseYearGuess st' rows'
  end.

(** The loop of [dedupe]: [seen] is the [Set], [out] the array. *)
Fixpoint dedupeLoop (arr seen out : list jsstring) : list jsstring :=
  match arr with
  | [] => out
  | x :: arr' =>
      let k := trim x in
      if negb (nonEmpty k) then dedupeLoop arr' seen out
      else if existsb (str_eqb k) seen then dedupeLoop arr' seen out
      else dedupeLoop arr' (seen ++ [k]) (out ++ [k])
  end.

Definition dedupe (arr : list jsstring) : list jsstring :=
  dedupeLoop arr [] [].

(** The body of the loop over [Object.keys(days)]. *)
Definition finishDay (day : DayBuckets) : DayMenu :=
  let ex := map (fun kv => (fst kv, dedupe (snd kv))) (b_extras day) in
  let ex := filter (fun kv => negb (length (snd kv) =? 0)%nat) ex in
  {| breakfast := dedupe (b_breakfast day);
     lunch := dedupe (b_lunch day);
     dinner := dedupe (b_dinner day);
     extras := match ex with
               | [] => None
               | _ :: _ => Some ex
               end |}.

(** [Array.from(new Set(allDates))] *)
Fixpoint distinct (l seen : list jsstring) : list jsstring :=
  match l with
  | [] => []
  | x :: l' =>
      if existsb (str_eqb x) seen then distinct l' seen
      else x :: distinct l' (x :: seen)
  end.

Fixpoint insertStr (x : jsstring) (l : list jsstring) : list jsstring :=
  match l with
  | [] => [x]
  | h :: t => if str_leb x h then x :: l else h :: insertStr x t
  end.

(** [.sort()] *)
Definition sortStrings (l : list jsstring) : list jsstring :=
  fold_right insertStr [] l.

(** The name of the preferred sheet, 게시메뉴. *)
Definition postedMenu : jsstring := [44172; 49884; 47700; 45684].

(** The mapping of the detected columns and the fallback to [mealCols]. *)
Definition mealColsOf (detected : detected_columns) (fallback : column_map)
  : column_map :=
  {| cm_breakfast := match det_breakfast detected with
                     | [] => cm_breakfast fallback
                     | _ :: _ => det_breakfast detected
                     end;
     cm_lunch := match det_lunch detected with
                 | [] => cm_lunch fallback
                 | _ :: _ => det_lunch detected
                 end;
     cm_dinner := match det_dinner detected with
                  | [] => cm_dinner fallback
                  | _ :: _ => det_dinner detected
                  end;
     cm_extras := cm_extras fallback |}.

(** Everything after the grid has been read. *)
Definition parseRows (rows : list row) (sheetName : option jsstring)
  (originalFilename site : jsstring) : result MealDocument :=
  let base := parseBaseDateFromFilename originalFilename in
  let baseYearGuess := option_map bd_y base in
  detected <- detectHeaderColumns rows ;;
  let fallback := defaultColumnsForSite site in
  let mealCols := mealColsOf detected fallback in
  st <- rowLoop mealCols baseYearGuess
          {| currentDate := None; allDates := []; days_acc := [] |} rows ;;
  let days := map (fun kv => (fst kv, finishDay (snd kv))) (days_acc st) in
  let uniqueDates := sortStrings (distinct (allDates st) []) in
  let weekStart := match uniqueDates with
                   | [] => None
                   | first :: _ => Some (mondayOf first)
                   end in
  Ok {| site := site;
        source_filename := originalFilename;
        source_sheet := sheetName;
        weekStart := weekStart;
        days := days |}.

(** [readFile] is the outcome of [xlsx.readFile(filePath, ...)]. *)
Definition parseMealExcel (readFile : jsstring -> result workbook)
  (filePath originalFilename site : jsstring) : result MealDocument :=
  wb <- readFile filePath ;;
  let sheetName :=
    if existsb (str_eqb postedMenu) (SheetNames wb) then Some postedMenu
    else hd_error (SheetNames wb) in
  let rows := match sheetName with
              | Some n => match Sheets wb n with
                          | Some g => g
                          | None => []
                          end
              | None => []
              end in
  parseRows rows sheetName originalFilename site.

End Parser.

Arguments cell {H}.
Arguments row {H}.

(** ** A host to run the parser on

    Node on a POSIX system, with whole numbers only, each written with
    all its digits (as [String] does below 1e21; fractions, [NaN] and the
    infinities are not among its numbers): [path.basename] is the part
    after the last [/] (trailing separators dropped), serial dates are
    decoded in the 1900 date system as the spreadsheet library does for
    whole days, any string outside the Date Time String Format is an
    invalid [Date], the clock reads 2026, and a call takes up to 100000
    spread arguments.  The examples and witnesses run on it; the theorems
    hold for every host. *)

Module NodeHost.

Definition posix_basename (p : jsstring) : jsstring :=
  let r := dropWhile (Z.eqb 47) (rev p) in
  rev (takeWhile (fun c => negb (c =? 47)) r).

Definition serial_date_code (v : Z) : option date_code :=
  if (v <? 0) || (2958465 <? v) then None
  else if v =? 60 then Some {| dc_y := 1900; dc_m := 2; dc_d := 29 |}
  else if v =? 0 then Some {| dc_y := 1900; dc_m := 1; dc_d := 0 |}
  else
    let date := if 60 <? v then v - 1 else v in
    let day := MakeDay 1900 0 1 + date - 1 in
    Some {| dc_y := YearFromDay day;
            dc_m := MonthFromDay day + 1;
            dc_d := DateFromDay day |}.

#[export] Instance node : Host := {|
  number := Z;
  Number_isFinite := fun _ => true;
  String_of_number := String_of_Z;
  parse_date_code := serial_date_code;
  currentYear := 2026;
  basename := posix_basename;
  Date_heuristic := fun _ => None;
  spread_ok := fun n => Z.of_nat n <=? 100000
|}.

End NodeHost.

(** ** A sample upload

    A sheet with a header row, two date anchors and their menu rows, read
    on [NodeHost.node]. *)

Module Sample.
Import NodeHost.

Definition monday_cell : cell :=
  CString ($"1/12" ++ [10] ++ $"(" ++ [50900] ++ $")").      (* 1/12\n(월) *)

Definition grid : list row :=
  [ [CNull; CString w_breakfast; CNull; CString w_lunch; CNull;
     CString w_dinner];
    [monday_cell];
    [CNull; CString $"porridge"; CNull;
     CString ($"kimchi stew" ++ [13; 10] ++ $"rice"); CString $" rice ";
     CString w_dinner; CNull; CNull; CString $"ramen"];
    [CNull; CNull; CNull; CString $"kimchi stew"; CNull; CString $"noodles"];
    [CString $"1/13"];
    [CNull; CNull; CNull; CString ($"kimchi stew" ++ [10] ++ $"rice")] ].

Definition book : workbook :=
  {| SheetNames := [$"Sheet1"];
     Sheets := fun n => if str_eqb n $"Sheet1" then Some grid else None |}.

Definition readFile (path : jsstring) : result workbook :=
  if str_eqb path $"/tmp/upload.xlsx" then Ok book else Throw ReadError.

Definition document : result MealDocument :=
  parseMealExcel readFile $"/tmp/upload.xlsx" $"260112_meal.xlsx" $"main".

End Sample.

(** * The upload route of [server.js]

    A value read from the request: a header, a field of the body or of
    the query string.  A field that is not there reads [undefined]; of a
    value that is no string only its truthiness and the outcome of its
    [toString()] matter here. *)
Inductive jsvalue :=
| VUndefined
| VString (s : jsstring)
| VOther (truthy : bool) (text : result jsstring).

Definition truthy (v : jsvalue) : bool :=
  match v with
  | VUndefined => false
  | VString s => nonEmpty s
  | VOther t _ => t
  end.

(** [v.toString()] *)
Definition toString (v : jsvalue) : result jsstring :=
  match v with
  | VUndefined => Throw TypeError
  | VString s => Ok s
  | VOther _ text => text
  end.

(** [a || b] *)
Definition js_or (a b : jsvalue) : jsvalue := if truthy a then a else b.

(** [String(process.env.ADMIN_TOKEN || '')] *)
Definition ADMIN_TOKEN (env : option jsstring) : jsstring :=
  match env with
  | Some s => s
  | None => []
  end.

(** What [requireAdmin] reads of the request. *)
Record admin_request := {
  header_token : jsvalue;      (* [req.headers['x-admin-token']] *)
  body_token : jsvalue;        (* [req.body?.token] *)
  query_token : jsvalue        (* [req.query?.token] *)
}.

(** [requireAdmin] answers with a status and an error text, or calls
    [next]. *)
Inductive admin_outcome :=
| Refuse (status : Z) (error : jsstring)
| Next.

Definition requireAdmin (env : option jsstring) (req : admin_request)
  : result admin_outcome :=
  token <- toString (js_or (header_token req)
                       (js_or (body_token req)
                          (js_or (query_token req) (VString [])))) ;;
  if negb (nonEmpty (ADMIN_TOKEN env)) then
    Ok (Refuse 500 $"Server misconfigured: ADMIN_TOKEN not set")
  else if negb (str_eqb token (ADMIN_TOKEN env)) then
    Ok (Refuse 401 $"Unauthorized")
  else Ok Next.

(** [req.file], as [multer] leaves it. *)
Record upload_file := { file_path : jsstring; originalname : jsstring }.

(** What the handler does to the world besides answering: the row it
    gives to [pool.query] and the file it gives to [fs.unlinkSync]. *)
Inductive call :=
| Upsert (site week_start : jsstring) (payload : MealDocument)
| Unlink (path : jsstring).

(** The answer: an error with its status, or the summary of what was
    stored.  The [detail] field of the 500 answer is left out. *)
Inductive upload_reply :=
| ReplyError (status : Z) (error : jsstring)
| ReplyOk (site weekStart : jsstring) (days : nat).

(** The handler of [POST /api/upload].  [readFile] is [xlsx.readFile] as
    in [parseMealExcel]; [query] tells whether [pool.query] resolved for
    the row.  A failure of [fs.unlinkSync] is swallowed by the handler. *)
Definition uploadHandler `{Host} (readFile : jsstring -> result workbook)
  (query : jsstring -> jsstring -> MealDocument -> bool)
  (body_site query_site : jsvalue) (file : option upload_file)
  : result (upload_reply * list call) :=
  site <- toString (js_or body_site (js_or query_site (VString $"main"))) ;;
  match file with
  | None => Ok (ReplyError 400 $"file is required", [])
  | Some f =>
      let attempt :=
        match parseMealExcel readFile (file_path f) (originalname f) site with
        | Throw _ => (ReplyError 500 $"Upload/parse failed", [])
        | Ok payload =>
            match weekStart payload with
            | Some ((_ :: _) as ws) =>
                (if query site ws payload
                 then ReplyOk site ws (length (days payload))
                 else ReplyError 500 $"Upload/parse failed",
                 [Upsert site ws payload])
            | _ =>
                (ReplyError 400 $"Could not determine weekStart from the file",
                 [])
            end
        end in
      Ok (fst attempt, snd attempt ++ [Unlink (file_path f)])
  end.

(** The first of the three places that holds a truthy token. *)
Definition suppliedToken (req : admin_request) : option jsvalue :=
  if truthy (header_token req) then Some (header_token req)
  else if truthy (body_token req) then Some (body_token req)
  else if truthy (query_token req) then Some (query_token req)
  else None.

(** * Specification vocabulary *)

(** A sequence of menu items as the document promises it: no item twice,
    no empty item, every item already trimmed. *)
Definition trimmedItem (x : jsstring) : Prop := x <> [] /\ trim x = x.

Definition cleanItems (l : list jsstring) : Prop :=
  NoDup l /\ Forall trimmedItem l.

(** The [DayMenu] invariant. *)
Definition DayMenu_ok (day : DayMenu) : Prop :=
  cleanItems (breakfast day) /\ cleanItems (lunch day) /\
  cleanItems (dinner day) /\
  match extras day with
  | None => True
  | Some ex =>
      ex <> [] /\
      forall label items, In (label, items) ex ->
        items <> [] /\ cleanItems items
  end.

(** The head of a string is not a space (or the string is empty). *)
Definition noLeadSpace (s : jsstring) : Prop :=
  match s with
  | [] => True
  | c :: _ => isSpace c = false
  end.

(** A cell without text: [null], [undefined], or a string of white space
    only. *)
Definition isBlank `{Host} (v : cell) : bool :=
  match v with
  | CNull | CUndefined => true
  | CString s => forallb isSpace s
  | _ => false
  end.




(** *** The row fold, as the specification words it

    The items one cell contributes, and those of a list of configured
    columns, in the order of the list. *)
Definition cellItems `{Host} (v : cell) : list jsstring :=
  match splitMenuItems v with
  | Ok items => items
  | Throw _ => []
  end.

Definition rowItems `{Host} (r : row) (cols : list nat) : list jsstring :=
  concat (map (fun c => cellItems (cellAt r c)) cols).

(** The date of column 0, if the row is a date anchor. *)
Definition dateOf `{Host} (baseYearGuess : option Z) (r : row)
  : option jsstring :=
  match normalizeDateCell (cellAt r 0) baseYearGuess with
  | Ok dateISO => dateISO
  | Throw _ => None
  end.

(** Items appended to the sequence of one extras label; a label without
    items is not created. *)
Definition appendExtra (ek : string) (items : list jsstring)
  (ex : list (string * list jsstring)) : list (string * list jsstring) :=
  match items with
  | [] => ex
  | _ :: _ =>
      obj_set String.eqb ek
        (match obj_get String.eqb ek ex with
         | Some old => old
         | None => []
         end ++ items) ex
  end.

Definition appendRow `{Host} (mealCols : column_map) (r : row)
  (day : DayBuckets) : DayBuckets :=
  {| b_breakfast := b_breakfast day ++ rowItems r (cm_breakfast mealCols);
     b_lunch := b_lunch day ++ rowItems r (cm_lunch mealCols);
     b_dinner := b_dinner day ++ rowItems r (cm_dinner mealCols);
     b_extras :=
       fold_left (fun ex e => appendExtra (fst e) (rowItems r (snd e)) ex)
                 (cm_extras mealCols) (b_extras day) |}.

(** The bucket of a date, created once: a date that has a bucket keeps
    it with what it holds; a date that has none gets an empty one, after
    the buckets there are. *)
Definition withBucket (dt : jsstring) (ds : list (jsstring * DayBuckets))
  : list (jsstring * DayBuckets) :=
  if existsb (str_eqb dt) (map fst ds) then ds else ds ++ [(dt, emptyDay)].

(** One row of the fold of section 4.5: a date anchor sets the current
    date, records it and ensures its bucket; a row before the first
    anchor is skipped; any other row is appended to the current day. *)
Definition classifyRow `{Host} (mealCols : column_map)
  (baseYearGuess : option Z) (st : loop_state) (r : row) : loop_state :=
  match dateOf baseYearGuess r with
  | Some dt =>
      {| currentDate := Some dt;
         allDates := allDates st ++ [dt];
         days_acc := withBucket dt (days_acc st) |}
  | None =>
      match currentDate st with
      | None => st
      | Some cur =>
          match obj_get str_eqb cur (days_acc st) with
          | None => st
          | Some day =>
              {| currentDate := Some cur;
                 allDates := allDates st;
                 days_acc :=
                   obj_set str_eqb cur (appendRow mealCols r day)
                           (days_acc st) |}
          end
      end
  end.

(** The state before the first row. *)
Definition initialState : loop_state :=
  {| currentDate := None; allDates := []; days_acc := [] |}.

(** No cell of the row is an invalid [Date]. *)
Definition isInvalidDate `{Host} (v : cell) : bool :=
  match v with
  | CDate InvalidDate => true
  | _ => false
  end.

Definition noInvalidDate `{Host} (r : row) : bool :=
  forallb (fun v => negb (isInvalidDate v)) r.

(** The items of a cell fit into one call of [push]; no call is made
    for a cell without items. *)
Definition fits `{Host} (items : list jsstring) : bool :=
  match items with
  | [] => true
  | _ :: _ => spread_ok (length items)
  end.

(** ... for every cell of the configured columns [cols] of a row, and for
    every column of a column map. *)
Definition colsFit `{Host} (r : row) (cols : list nat) : bool :=
  forallb (fun c => fits (cellItems (cellAt r c))) cols.

Definition rowFits `{Host} (mealCols : column_map) (r : row) : bool :=
  colsFit r (cm_breakfast mealCols) && colsFit r (cm_lunch mealCols) &&
  colsFit r (cm_dinner mealCols) &&
  forallb (fun e => colsFit r (snd e)) (cm_extras mealCols).

(** ... for every cell of a grid. *)
Definition gridFits `{Host} (rows : list row) : bool :=
  forallb (forallb (fun v => fits (cellItems v))) rows.

(** The cell is a date by its type: a valid [Date], or a finite number
    with a date code whose year, month and day are not zero. *)
Definition hasDateCode `{Host} (c : cell) : bool :=
  match c with
  | CDate (ValidDate _ _) => true
  | CNumber n =>
      Number_isFinite n &&
      match parse_date_code n with
      | Some dc =>
          negb (dc_y dc =? 0) && negb (dc_m dc =? 0) && negb (dc_d dc =? 0)
      | None => false
      end
  | _ => false
  end.

(** The current date, when set, is a non-empty key of [days]. *)
Definition stateOk (st : loop_state) : Prop :=
  match currentDate st with
  | None => True
  | Some cur => cur <> [] /\ exists day, obj_get str_eqb cur (days_acc st) = Some day
  end.

(** *** Header detection

    The text [detectHeaderColumns] tests a cell with. *)
Definition cellNorm `{Host} (v : cell) : jsstring :=
  match safeText v with
  | Ok t => trim (collapseSpaces t false)
  | Throw _ => []
  end.

(** Column [c] has, in the scan window of the grid, a cell whose text
    contains the keyword. *)
Definition columnHas `{Host} (rows : list row) (kw : jsstring) (c : nat)
  : Prop :=
  exists r v,
    In r (firstn 35 rows) /\ nth_error r c = Some v /\
    includes (cellNorm v) kw = true.

(** A returned list is exactly the columns that have the keyword, in
    ascending order without repeats. *)
Definition columnsOf `{Host} (rows : list row) (kw : jsstring)
  (cols : list nat) : Prop :=
  (forall c, In c cols <-> columnHas rows kw c) /\ StronglySorted lt cols.

(** [proj] is the set of [found] that [scanCell] feeds with [kw]. *)
Definition tracks `{Host} (proj : found_sets -> list nat) (kw : jsstring) : Prop :=
  forall v c found found',
    scanCell v c found = Ok found' ->
    proj found' = match cellNorm v with
                  | [] => proj found
                  | _ :: _ => hit [kw] (cellNorm v) c (proj found)
                  end.

(** *** Six-digit runs of a file name *)

Definition nilb (s : jsstring) : bool :=
  match s with
  | [] => true
  | _ :: _ => false
  end.

(** The last character of [pre], if any, is not a digit. *)
Definition endsNonDigit (pre : jsstring) : bool :=
  match rev pre with
  | [] => true
  | c :: _ => negb (isDigit c)
  end.

(** The first character of [post], if any, is not a digit. *)
Definition startsNonDigit (post : jsstring) : bool :=
  match post with
  | [] => true
  | c :: _ => negb (isDigit c)
  end.

(** [s] is [pre ++ run ++ post] where [run] is six digits with no digit
    next to it on either side. *)
Definition isolatedRun (s pre run post : jsstring) : Prop :=
  s = pre ++ run ++ post /\ length run = 6%nat /\
  forallb isDigit run = true /\
  endsNonDigit pre = true /\ startsNonDigit post = true.

(** ... and no such run starts further left. *)
Definition firstRun (s pre run post : jsstring) : Prop :=
  isolatedRun s pre run post /\
  forall pre' run' post',
    isolatedRun s pre' run' post' -> (length pre <= length pre')%nat.

(** The run read as [YYMMDD]. *)
Definition dateOfRun (run : jsstring) : base_date :=
  {| bd_y := 2000 + Number_of_digits (slice run 0 2);
     bd_mo := Number_of_digits (slice run 2 4);
     bd_d := Number_of_digits (slice run 4 6) |}.

(** *** Dates as strings

    Lexicographic order of year, month, day. *)
Definition dateLt (y1 m1 d1 y2 m2 d2 : Z) : Prop :=
  y1 < y2 \/ (y1 = y2 /\ (m1 < m2 \/ (m1 = m2 /\ d1 < d2))).

(** The year, month and day written in a string [YYYY-MM-DD]. *)
Definition dateFields (s : jsstring) : option (Z * Z * Z) :=
  match s with
  | [y3; y2; y1; y0; h1; m1; m0; h2; d1; d0] =>
      if (h1 =? 45) && (h2 =? 45)
         && forallb isDigit [y3; y2; y1; y0; m1; m0; d1; d0]
      then
        Some (Number_of_digits [y3; y2; y1; y0],
              Number_of_digits [m1; m0],
              Number_of_digits [d1; d0])
      else None
  | _ => None
  end.

Definition civilb (y m d : Z) : bool :=
  (1 <=? m) && (m <=? 12) && (1 <=? d) && (d <=? DaysInMonth y m).

(** [s] is a canonical [YYYY-MM-DD] string of a date of the calendar. *)
Definition isCalendarDate (s : jsstring) : bool :=
  match dateFields s with
  | Some (y, m, d) => civilb y m d
  | None => false
  end.

Definition yearOf (s : jsstring) : Z :=
  match dateFields s with
  | Some (y, _, _) => y
  | None => 0
  end.

(** The day number of the date a [YYYY-MM-DD] string writes. *)
Definition dayNumber (s : jsstring) : Z :=
  match dateFields s with
  | Some (y, m, d) => MakeDay y (m - 1) d
  | None => 0
  end.

(** [String(y)] is four digits that read [y]. *)
Definition fourDigits (y : Z) : bool :=
  match String_of_Z y with
  | [a; b; c; d] =>
      forallb isDigit [a; b; c; d] && (Number_of_digits [a; b; c; d] =? y)
  | _ => false
  end.

(** [String(m).padStart(2, '0')] is two digits that read [m]. *)
Definition twoDigits (m : Z) : bool :=
  match padStart2 (String_of_Z m) with
  | [a; b] => forallb isDigit [a; b] && (Number_of_digits [a; b] =? m)
  | _ => false
  end.

(** The day [mondayOf] moves to: the Monday on or before day [n]. *)
Definition mondayBefore (n : Z) : Z := n - (WeekDay n + 6) mod 7.

(** The dates of the anchor rows of a grid, top to bottom. *)
Definition anchorsOf `{Host} (baseYearGuess : option Z) (rows : list row)
  : list jsstring :=
  flat_map (fun r => match dateOf baseYearGuess r with
                     | Some k => [k]
                     | None => []
                     end) rows.

(** [a <= b] in the order of strings. *)
Definition str_le (a b : jsstring) : Prop := str_leb a b = true.

(** *** The month/day pattern

    One or two digits. *)
Definition isDigits12 (g : jsstring) : Prop :=
  (length g = 1 \/ length g = 2)%nat /\ forallb isDigit g = true.

(** [rest] begins with a month [a], white space, a slash, white space and
    a day [b]; the day takes two digits when there are two. *)
Definition monthDayPrefix (rest a b : jsstring) : Prop :=
  exists ws1 ws2 post,
    rest = a ++ ws1 ++ [47] ++ ws2 ++ b ++ post /\
    isDigits12 a /\ isDigits12 b /\
    forallb isSpace ws1 = true /\ forallb isSpace ws2 = true /\
    (length b = 1%nat -> startsNonDigit post = true).

(** [a] and [b] are the month and the day of the leftmost place of [s]
    where the pattern occurs. *)
Definition monthDayMatch (s a b : jsstring) : Prop :=
  exists pre rest,
    s = pre ++ rest /\ monthDayPrefix rest a b /\
    forall pre' rest' a' b',
      s = pre' ++ rest' -> monthDayPrefix rest' a' b' ->
      (length pre <= length pre')%nat.

(** The pieces of the month/day expression after its first group [m]:
    the day, the slash with what follows, the white space before it. *)
Definition md_day (m : jsstring) : jsstring -> option (jsstring * jsstring) :=
  digits12 (fun d _ => Some (m, d)).

Definition md_slash (m : jsstring) : jsstring -> option (jsstring * jsstring) :=
  cls (Z.eqb 47) (spaces (md_day m)).

(** *** Menu lines

    What a line of a cell must be to count as a menu item: not empty,
    trimmed, free of line breaks and no-break spaces, and not one of the
    header labels. *)
Definition menuLine (x : jsstring) : Prop :=
  x <> [] /\ trim x = x /\ re_header_label x = false /\
  ~ In 10 x /\ ~ In 13 x /\ ~ In 160 x.

(** [x] is not in the list [l]. *)
Definition notInb (l : list jsstring) (x : jsstring) : bool :=
  negb (existsb (str_eqb x) l).

(** *** Header labels

    The end of the label expression, [\s*$], and its alternatives. *)
Definition label_fin : jsstring -> option unit :=
  spaces (eoi (fun _ => Some tt)).

Definition label_corner (l : Z) : jsstring -> option unit :=
  ci_lit [l] (spaces (ci_lit w_corner label_fin)).

Definition label_alts : jsstring -> option unit :=
  alt (ci_lit w_breakfast label_fin)
  (alt (ci_lit w_lunch label_fin)
  (alt (ci_lit w_dinner label_fin)
  (alt (ci_lit w_night label_fin)
  (alt (ci_lit w_salad label_fin)
  (alt (label_corner 65) (label_corner 66)))))).

(** The five meal words that are labels on their own. *)
Definition labelWords : list jsstring :=
  [w_breakfast; w_lunch; w_dinner; w_night; w_salad].

(** The text of a label: a meal word, or the letter A or B in either
    case, white space, and the corner word. *)
Definition labelCore (core : jsstring) : Prop :=
  In core labelWords \/
  exists l ws,
    In l [65; 97; 66; 98] /\ forallb isSpace ws = true /\
    core = l :: ws ++ w_corner.

(** A label with white space around it. *)
Definition isHeaderLabel (p : jsstring) : Prop :=
  exists ws1 core ws2,
    p = ws1 ++ core ++ ws2 /\ forallb isSpace ws1 = true /\
    forallb isSpace ws2 = true /\ labelCore core.

(** No character of the word is an ASCII capital. *)
Definition caseless (w : jsstring) : Prop :=
  Forall (fun p => (65 <=? p) && (p <=? 90) = false) w.

(** *** The year-month-day pattern

    [rest] begins with four digits, a hyphen, a month, a hyphen and a
    day; the day takes two digits when there are two. *)
Definition isoPrefix (rest y m d : jsstring) : Prop :=
  exists post,
    rest = y ++ [45] ++ m ++ [45] ++ d ++ post /\
    length y = 4%nat /\ forallb isDigit y = true /\
    isDigits12 m /\ isDigits12 d /\
    (length d = 1%nat -> startsNonDigit post = true).

(** [y], [m], [d] are the groups of the leftmost place of [s] where the
    pattern occurs. *)
Definition isoMatch (s y m d : jsstring) : Prop :=
  exists pre rest,
    s = pre ++ rest /\ isoPrefix rest y m d /\
    forall pre' rest' y' m' d',
      s = pre' ++ rest' -> isoPrefix rest' y' m' d' ->
      (length pre <= length pre')%nat.

(** The string has no slash. *)
Definition noSlash (s : jsstring) : bool :=
  forallb (fun c => negb (c =? 47)) s.

(** *** The items of a day

    Every item of a day of the document: the three meals, then the
    sequences of the extras. *)
Definition itemsOfDay (day : DayMenu) : list jsstring :=
  breakfast day ++ lunch day ++ dinner day ++
  concat (map snd (match extras day with
                   | Some ex => ex
                   | None => []
                   end)).

(** [x] is a line of a cell of the grid. *)
Definition lineOf `{Host} (rows : list row) (x : jsstring) : Prop :=
  exists r c items,
    In r rows /\ splitMenuItems (cellAt r c) = Ok items /\ In x items.

(** Every item held while rows are read satisfies [P]. *)
Definition extrasAll (P : jsstring -> Prop)
  (ex : list (string * list jsstring)) : Prop :=
  forall ek l, In (ek, l) ex -> Forall P l.

Definition bucketsAll (P : jsstring -> Prop) (day : DayBuckets) : Prop :=
  Forall P (b_breakfast day) /\ Forall P (b_lunch day) /\
  Forall P (b_dinner day) /\ extrasAll P (b_extras day).

Definition daysAll (P : jsstring -> Prop)
  (ds : list (jsstring * DayBuckets)) : Prop :=
  forall k day, In (k, day) ds -> bucketsAll P day.

(** * Proofs *)

Unset Implicit Arguments.

(** ** Strings *)

Lemma str_eqb_eq (a b : jsstring) : str_eqb a b = true <-> a = b.
Proof.
  revert b; induction a as [|x a IH]; intros [|y b]; simpl; split;
    try congruence; try reflexivity.
  - rewrite andb_true_iff, Z.eqb_eq, IH. intros [-> ->]. reflexivity.
  - intros E. injection E as -> ->. rewrite Z.eqb_refl. simpl.
    apply IH. reflexivity.
Qed.

Lemma str_eqb_refl (a : jsstring) : str_eqb a a = true.
Proof. apply str_eqb_eq. reflexivity. Qed.

Lemma str_eqb_neq (a b : jsstring) : str_eqb a b = false <-> a <> b.
Proof.
  rewrite <- str_eqb_eq. destruct (str_eqb a b); split; congruence.
Qed.

Lemma existsb_str_eqb (k : jsstring) (l : list jsstring) :
  existsb (str_eqb k) l = true <-> In k l.
Proof.
  rewrite existsb_exists. split.
  - intros [x [Hin E]]. apply str_eqb_eq in E. subst. assumption.
  - intros Hin. exists k. split; [assumption | apply str_eqb_refl].
Qed.

Lemma existsb_str_eqb_false (k : jsstring) (l : list jsstring) :
  existsb (str_eqb k) l = false <-> ~ In k l.
Proof.
  rewrite <- existsb_str_eqb. destruct (existsb (str_eqb k) l);
    split; congruence.
Qed.

Lemma dropWhile_app (p : Z -> bool) (l m : jsstring) :
  dropWhile p (l ++ m) =
  if forallb p l then dropWhile p m else dropWhile p l ++ m.
Proof.
  induction l as [|c l IH]; simpl; [reflexivity|].
  destruct (p c); simpl; [apply IH | reflexivity].
Qed.

Lemma dropWhile_all (p : Z -> bool) (l : jsstring) :
  forallb p l = true -> dropWhile p l = [].
Proof.
  induction l as [|c l IH]; simpl; [reflexivity|].
  destruct (p c); simpl; [assumption | discriminate].
Qed.

Lemma dropWhile_idem (p : Z -> bool) (l : jsstring) :
  dropWhile p (dropWhile p l) = dropWhile p l.
Proof.
  induction l as [|c l IH]; simpl; [reflexivity|].
  destruct (p c) eqn:E; [assumption|]. simpl. rewrite E. reflexivity.
Qed.

Lemma trimStart_noLead (s : jsstring) : noLeadSpace (trimStart s).
Proof.
  unfold trimStart. induction s as [|c s IH]; simpl; [exact I|].
  destruct (isSpace c) eqn:E; [assumption | exact E].
Qed.

Lemma noLead_trimStart (s : jsstring) : noLeadSpace s -> trimStart s = s.
Proof.
  unfold trimStart. destruct s as [|c s]; simpl; [reflexivity|].
  intros ->. reflexivity.
Qed.

Lemma forallb_rev_eq (p : Z -> bool) (l : jsstring) :
  forallb p (rev l) = forallb p l.
Proof.
  induction l as [|c l IH]; simpl; [reflexivity|].
  rewrite forallb_app, IH. simpl. rewrite andb_true_r. apply andb_comm.
Qed.

Lemma trimEnd_cons (c : Z) (s : jsstring) :
  trimEnd (c :: s) =
  if forallb isSpace s then (if isSpace c then [] else [c])
  else c :: trimEnd s.
Proof.
  unfold trimEnd. simpl rev. rewrite dropWhile_app, forallb_rev_eq.
  destruct (forallb isSpace s); simpl.
  - destruct (isSpace c); reflexivity.
  - rewrite rev_app_distr. reflexivity.
Qed.

Lemma trimEnd_noLead (s : jsstring) : noLeadSpace s -> noLeadSpace (trimEnd s).
Proof.
  destruct s as [|c s]; simpl; [intros _; exact I|].
  intros E. rewrite trimEnd_cons, E.
  destruct (forallb isSpace s); simpl; exact E.
Qed.

Lemma trimEnd_idem (s : jsstring) : trimEnd (trimEnd s) = trimEnd s.
Proof.
  unfold trimEnd. rewrite rev_involutive, dropWhile_idem. reflexivity.
Qed.

Lemma trim_idem (s : jsstring) : trim (trim s) = trim s.
Proof.
  unfold trim.
  rewrite (noLead_trimStart _ (trimEnd_noLead _ (trimStart_noLead s))).
  apply trimEnd_idem.
Qed.

Lemma trim_all_space (s : jsstring) :
  forallb isSpace s = true -> trim s = [].
Proof.
  intros Hs. unfold trim, trimStart. rewrite (dropWhile_all _ _ Hs).
  reflexivity.
Qed.

Lemma nonEmpty_true (p : jsstring) : nonEmpty p = true <-> p <> [].
Proof. destruct p; simpl; split; congruence. Qed.

(** ** [dedupe] *)

Lemma dedupeLoop_out (arr seen out : list jsstring) :
  dedupeLoop arr seen out = out ++ dedupeLoop arr seen [].
Proof.
  revert seen out. induction arr as [|x arr IH]; intros seen out; simpl.
  - rewrite app_nil_r. reflexivity.
  - destruct (nonEmpty (trim x)); simpl; [|apply IH].
    destruct (existsb (str_eqb (trim x)) seen); [apply IH|].
    rewrite (IH _ (out ++ [trim x])), (IH _ [trim x]).
    rewrite <- app_assoc. reflexivity.
Qed.

Lemma dedupeLoop_clean (arr seen : list jsstring) :
  cleanItems (dedupeLoop arr seen []) /\
  forall x, In x (dedupeLoop arr seen []) -> ~ In x seen.
Proof.
  revert seen. induction arr as [|x arr IH]; intros seen; simpl.
  - repeat split; [constructor | constructor | intros ? []].
  - destruct (nonEmpty (trim x)) eqn:Hne; simpl; [|apply IH].
    destruct (existsb (str_eqb (trim x)) seen) eqn:Hseen; [apply IH|].
    rewrite dedupeLoop_out.
    destruct (IH (seen ++ [trim x])) as [[Hnd Hall] Hout].
    apply existsb_str_eqb_false in Hseen. apply nonEmpty_true in Hne.
    repeat split.
    + simpl. constructor; [|assumption].
      intros Hin. apply (Hout _ Hin). apply in_or_app. right. left.
      reflexivity.
    + simpl. constructor; [|assumption].
      split; [assumption | apply trim_idem].
    + simpl. intros y [<- | Hin]; [assumption|].
      intros Hs. apply (Hout _ Hin). apply in_or_app. left. assumption.
Qed.

Lemma dedupe_clean (arr : list jsstring) : cleanItems (dedupe arr).
Proof. apply dedupeLoop_clean. Qed.

Lemma dedupeLoop_fixed (l seen : list jsstring) :
  cleanItems l -> (forall x, In x l -> ~ In x seen) ->
  dedupeLoop l seen [] = l.
Proof.
  revert seen. induction l as [|x l IH]; intros seen [Hnd Hall] Hout;
    simpl; [reflexivity|].
  inversion Hnd as [|? ? Hx Hnd']; subst.
  inversion Hall as [|? ? [Hne Htrim] Hall']; subst.
  rewrite Htrim. apply nonEmpty_true in Hne. rewrite Hne. simpl.
  assert (Hs : existsb (str_eqb x) seen = false).
  { apply existsb_str_eqb_false. apply Hout. left. reflexivity. }
  rewrite Hs, dedupeLoop_out. simpl. f_equal.
  apply IH; [split; assumption|].
  intros y Hy Hin. apply in_app_or in Hin as [Hin | [<- | []]].
  - apply (Hout y); [right|]; assumption.
  - contradiction.
Qed.

(** C6: applying [dedupe] to its own result changes nothing. *)
Theorem dedupe_idempotent (arr : list jsstring) :
  dedupe (dedupe arr) = dedupe arr.
Proof.
  unfold dedupe at 1. apply dedupeLoop_fixed.
  - apply dedupe_clean.
  - intros x _ [].
Qed.

(** ** The finishing pass over the days *)

Lemma finishDay_ok `{Host} (b : DayBuckets) : DayMenu_ok (finishDay b).
Proof.
  unfold DayMenu_ok, finishDay. simpl.
  repeat split; try apply dedupe_clean.
  set (ex := filter _ _).
  assert (Hex : forall label items, In (label, items) ex ->
                  items <> [] /\ cleanItems items).
  { intros label items Hin. unfold ex in Hin.
    apply filter_In in Hin as [Hin Hlen]. simpl in Hlen.
    apply in_map_iff in Hin as [[k v] [E _]]. simpl in E.
    injection E as <- <-. split; [|apply dedupe_clean].
    intros E. rewrite E in Hlen. discriminate. }
  destruct ex as [|e ex']; [exact I|].
  split; [discriminate | exact Hex].
Qed.

Lemma parseRows_days `{Host} rows sheetName originalFilename site doc :
  parseRows rows sheetName originalFilename site = Ok doc ->
  exists ds, days doc = map (fun kv => (fst kv, finishDay (snd kv))) ds.
Proof.
  unfold parseRows. destruct (detectHeaderColumns rows); simpl;
    [|discriminate].
  destruct (rowLoop _ _ _ rows) as [st|]; simpl; [|discriminate].
  intros E. injection E as <-. simpl. eexists. reflexivity.
Qed.

Lemma parseMealExcel_rows `{Host} readFile filePath originalFilename site doc :
  parseMealExcel readFile filePath originalFilename site = Ok doc ->
  exists rows sheetName,
    parseRows rows sheetName originalFilename site = Ok doc.
Proof.
  unfold parseMealExcel. destruct (readFile filePath) as [wb|]; simpl;
    [|discriminate].
  intros E. eexists. eexists. exact E.
Qed.

(** C5: every day of a returned document satisfies the [DayMenu]
    invariant: its breakfast, lunch and dinner sequences and each of its
    extras sequences hold trimmed, non-empty, pairwise different strings,
    and its [extras], when present, is a non-empty map without empty
    sequences. *)
Theorem DayMenu_invariant `{Host} readFile filePath originalFilename site doc :
  parseMealExcel readFile filePath originalFilename site = Ok doc ->
  forall key day, In (key, day) (days doc) -> DayMenu_ok day.
Proof.
  intros Hp key day Hin.
  apply parseMealExcel_rows in Hp as (rows & sheetName & Hp).
  apply parseRows_days in Hp as [ds Hd]. rewrite Hd in Hin.
  apply in_map_iff in Hin as [[k b] [E _]]. simpl in E.
  injection E as _ <-. apply finishDay_ok.
Qed.

Lemma DayMenu_invariant_witness :
  exists doc,
    Sample.document = Ok doc /\
    exists key day, In (key, day) (days doc) /\ DayMenu_ok day.
Proof.
  eexists. split; [vm_compute; reflexivity|].
  eexists. eexists. split; [left; reflexivity|].
  eapply (DayMenu_invariant (H := NodeHost.node) Sample.readFile
            $"/tmp/upload.xlsx" $"260112_meal.xlsx" $"main").
  - vm_compute. reflexivity.
  - left. reflexivity.
Defined.

(** ** Column-map resolution *)


(** ** Blank cells *)

Lemma isSpace_32 : isSpace 32 = true.
Proof. reflexivity. Qed.

Lemma stripCR_space (s : jsstring) :
  forallb isSpace s = true -> forallb isSpace (stripCR s) = true.
Proof.
  unfold stripCR. induction s as [|c s IH]; simpl; [reflexivity|].
  rewrite andb_true_iff. intros [Hc Hs].
  destruct (negb (c =? 13)); simpl; [rewrite Hc|]; auto.
Qed.

Lemma nbspToSpace_space (s : jsstring) :
  forallb isSpace s = true -> forallb isSpace (nbspToSpace s) = true.
Proof.
  unfold nbspToSpace. induction s as [|c s IH]; simpl; [reflexivity|].
  rewrite !andb_true_iff. intros [Hc Hs]. split; [|auto].
  destruct (c =? 160); [reflexivity | assumption].
Qed.

Lemma splitMenuItems_blank `{Host} (v : cell) :
  isBlank v = true -> splitMenuItems v = Ok [].
Proof.
  destruct v as [| |s|n|b|dt]; simpl; try discriminate; try reflexivity.
  intros Hs. unfold splitMenuItems. simpl.
  rewrite trim_all_space; [reflexivity|].
  apply nbspToSpace_space, stripCR_space, Hs.
Qed.

Lemma cellAt_beyond `{Host} (r : row) (c : nat) :
  (length r <= c)%nat -> cellAt r c = CUndefined.
Proof. intros Hc. unfold cellAt. apply nth_overflow. exact Hc. Qed.

Lemma addTo_skip `{Host} (r : row) (pre post : list nat) (c : nat) bucket :
  splitMenuItems (cellAt r c) = Ok [] ->
  addTo r (pre ++ c :: post) bucket = addTo r (pre ++ post) bucket.
Proof.
  intros Hc. revert bucket.
  induction pre as [|p pre IH]; intros bucket; simpl.
  - rewrite Hc. reflexivity.
  - destruct (splitMenuItems (cellAt r p)) as [[|i items]|]; simpl;
      [apply IH | | reflexivity].
    destruct (spread_ok _); [apply IH | reflexivity].
Qed.

Lemma addExtra_skip `{Host} (r : row) ek (pre post : list nat) (c : nat) ex :
  splitMenuItems (cellAt r c) = Ok [] ->
  addExtra r ek (pre ++ c :: post) ex = addExtra r ek (pre ++ post) ex.
Proof.
  intros Hc. revert ex.
  induction pre as [|p pre IH]; intros ex; simpl.
  - rewrite Hc. reflexivity.
  - destruct (splitMenuItems (cellAt r p)) as [[|i items]|]; simpl;
      [apply IH | | reflexivity].
    destruct (spread_ok _); [apply IH | reflexivity].
Qed.

(** C10: a configured column whose index is past the end of the row, or
    whose cell is [null] or blank, yields no items and no error, and the
    loops over the configured columns go on as if that column were not
    configured: the bucket is left as it was for that cell. *)
Theorem accumulation_skips_blank `{Host} (r : row) (c : nat) :
  (length r <= c)%nat \/ isBlank (cellAt r c) = true ->
  splitMenuItems (cellAt r c) = Ok [] /\
  (forall bucket, addTo r [c] bucket = Ok bucket) /\
  (forall ek ex, addExtra r ek [c] ex = Ok ex) /\
  (forall pre post bucket,
     addTo r (pre ++ c :: post) bucket = addTo r (pre ++ post) bucket) /\
  (forall ek pre post ex,
     addExtra r ek (pre ++ c :: post) ex = addExtra r ek (pre ++ post) ex).
Proof.
  intros Hc.
  assert (Hs : splitMenuItems (cellAt r c) = Ok []).
  { apply splitMenuItems_blank. destruct Hc as [Hc | Hc]; [|exact Hc].
    rewrite (cellAt_beyond r c Hc). reflexivity. }
  split; [exact Hs|]. repeat split.
  - intros bucket. apply (addTo_skip r [] [] c bucket Hs).
  - intros ek ex. apply (addExtra_skip r ek [] [] c ex Hs).
  - intros. apply addTo_skip, Hs.
  - intros. apply addExtra_skip, Hs.
Qed.

Lemma accumulation_skips_blank_witness :
  splitMenuItems (H := NodeHost.node)
    (cellAt [CNull; CString [32; 160; 10]] 1) = Ok [] /\
  splitMenuItems (H := NodeHost.node)
    (cellAt [CNull; CString [32; 160; 10]] 7) = Ok [].
Proof.
  split.
  - apply (accumulation_skips_blank (H := NodeHost.node)
             [CNull; CString [32; 160; 10]] 1).
    right. reflexivity.
  - apply (accumulation_skips_blank (H := NodeHost.node)
             [CNull; CString [32; 160; 10]] 7).
    left. simpl. lia.
Defined.

(** ** Objects *)

Section ObjectLemmas.
Context {K V : Type} (eqb : K -> K -> bool).
Hypothesis eqb_refl : forall k, eqb k k = true.

Lemma obj_get_set_same (k : K) (v : V) (o : list (K * V)) :
  obj_get eqb k (obj_set eqb k v o) = Some v.
Proof.
  induction o as [|[k' v'] o IH]; simpl.
  - rewrite eqb_refl. reflexivity.
  - destruct (eqb k k') eqn:E; simpl.
    + rewrite eqb_refl. reflexivity.
    + rewrite E. exact IH.
Qed.

Lemma obj_set_set (k : K) (v1 v2 : V) (o : list (K * V)) :
  obj_set eqb k v2 (obj_set eqb k v1 o) = obj_set eqb k v2 o.
Proof.
  induction o as [|[k' v'] o IH]; simpl.
  - rewrite eqb_refl. reflexivity.
  - destruct (eqb k k') eqn:E; simpl.
    + rewrite eqb_refl. reflexivity.
    + rewrite E, IH. reflexivity.
Qed.
End ObjectLemmas.

(** ** Where the parser can raise *)

Lemma safeText_ok `{Host} (v : cell) :
  isInvalidDate v = false -> exists t, safeText v = Ok t.
Proof.
  destruct v as [| |s|n|b|[|day iso]]; simpl; intros E;
    try discriminate; eexists; reflexivity.
Qed.

Lemma splitMenuItems_ok `{Host} (v : cell) :
  isInvalidDate v = false -> splitMenuItems v = Ok (cellItems v).
Proof.
  intros E. unfold cellItems, splitMenuItems.
  destruct (safeText_ok v E) as [t ->]. simpl.
  destruct (trim _); reflexivity.
Qed.

Lemma normalizeDateCell_ok `{Host} (v : cell) (g : option Z) :
  isInvalidDate v = false -> exists r, normalizeDateCell v g = Ok r.
Proof.
  intros E. unfold normalizeDateCell.
  destruct (safeText_ok v E) as [t Ht].
  destruct v as [| |s|n|b|[|day iso]]; try discriminate;
    try (rewrite Ht; simpl;
         destruct (trim t); [eexists; reflexivity|];
         destruct (re_month_day _) as [[? ?]|]; [eexists; reflexivity|];
         destruct (re_iso _) as [[[? ?] ?]|]; eexists; reflexivity).
  - destruct (Number_isFinite n); [destruct (parse_date_code n) as [dc|];
      [destruct (_ && _)|]|];
      try (eexists; reflexivity);
      rewrite Ht; simpl;
      (destruct (trim t); [eexists; reflexivity|];
       destruct (re_month_day _) as [[? ?]|]; [eexists; reflexivity|];
       destruct (re_iso _) as [[[? ?] ?]|]; eexists; reflexivity).
  - eexists. reflexivity.
Qed.

Lemma toISODate_nonempty `{Host} (y m d : jsint) : toISODate y m d <> [].
Proof.
  unfold toISODate. intros E. apply app_eq_nil in E as [_ E]. discriminate.
Qed.

Lemma normalizeDateCell_nonempty `{Host} (v : cell) (g : option Z) dt :
  normalizeDateCell v g = Ok (Some dt) -> dt <> [].
Proof.
  unfold normalizeDateCell. intros E.
  assert (Htext :
    forall t, match trim t with
              | [] => Ok None
              | _ :: _ =>
                  match re_month_day (trim t) with
                  | Some (md1, md2) =>
                      Ok (Some (toISODate
                                  (Int (nullish g currentYear))
                                  (Int (Number_of_digits md1))
                                  (Int (Number_of_digits md2))))
                  | None =>
                      match re_iso (trim t) with
                      | Some (iso1, iso2, iso3) =>
                          Ok (Some (toISODate (Int (Number_of_digits iso1))
                                              (Int (Number_of_digits iso2))
                                              (Int (Number_of_digits iso3))))
                      | None => Ok None
                      end
                  end
              end = Ok (Some dt) -> dt <> []).
  { intros t. destruct (trim t) as [|c0 s0]; [discriminate|].
    destruct (re_month_day _) as [[? ?]|].
    - intros E'. injection E' as <-. apply toISODate_nonempty.
    - destruct (re_iso _) as [[[? ?] ?]|]; [|discriminate].
      intros E'. injection E' as <-. apply toISODate_nonempty. }
  destruct v as [| |s|n|b|[|day iso]]; simpl in E;
    try discriminate; try (apply (Htext _ E)).
  - destruct (Number_isFinite n); [destruct (parse_date_code n) as [dc|];
      [destruct (_ && _)|]|]; simpl in E;
      try (apply (Htext _ E)).
    injection E as <-. apply toISODate_nonempty.
  - injection E as <-. apply toISODate_nonempty.
Qed.

Lemma cellAt_noInvalidDate `{Host} (r : row) (c : nat) :
  noInvalidDate r = true -> isInvalidDate (cellAt r c) = false.
Proof.
  intros Hr. unfold cellAt.
  destruct (nth_in_or_default c r CUndefined) as [Hin | ->]; [|reflexivity].
  unfold noInvalidDate in Hr. rewrite forallb_forall in Hr.
  apply negb_true_iff. apply Hr. exact Hin.
Qed.

(** ** The loop over the rows *)

Lemma obj_get_key {V : Type} (k : jsstring) (v : V) o :
  obj_get str_eqb k o = Some v -> In k (map fst o).
Proof.
  induction o as [|[k' v'] o IH]; simpl; [discriminate|].
  destruct (str_eqb k k') eqn:E.
  - apply str_eqb_eq in E. auto.
  - auto.
Qed.

Lemma obj_set_absent {V : Type} (k : jsstring) (v : V) o :
  obj_get str_eqb k o = None -> obj_set str_eqb k v o = o ++ [(k, v)].
Proof.
  induction o as [|[k' v'] o IH]; cbn [obj_get obj_set app]; [reflexivity|].
  destruct (str_eqb k k'); [discriminate|].
  intros E. rewrite (IH E). reflexivity.
Qed.

Lemma obj_get_absent {V : Type} (k : jsstring) (o : list (jsstring * V)) :
  obj_get str_eqb k o = None -> ~ In k (map fst o).
Proof.
  induction o as [|[k' v'] o IH]; cbn [obj_get map fst In]; [tauto|].
  destruct (str_eqb k k') eqn:E; [discriminate|].
  intros Hn [F | F]; [|exact (IH Hn F)].
  subst k'. rewrite str_eqb_refl in E. discriminate.
Qed.

Lemma obj_set_present {V : Type} (k : jsstring) (v v0 : V) o :
  obj_get str_eqb k o = Some v0 ->
  map fst (obj_set str_eqb k v o) = map fst o.
Proof.
  induction o as [|[k' v'] o IH]; cbn [obj_get obj_set map fst];
    [discriminate|].
  destruct (str_eqb k k') eqn:E.
  - intros _. apply str_eqb_eq in E. subst k'. reflexivity.
  - intros G. cbn [map fst]. rewrite (IH G). reflexivity.
Qed.


Lemma addTo_spec `{Host} (r : row) (cols : list nat) bucket :
  noInvalidDate r = true -> colsFit r cols = true ->
  addTo r cols bucket = Ok (bucket ++ rowItems r cols).
Proof.
  intros Hr. revert bucket.
  induction cols as [|c cols IH]; intros bucket Hf; cbn [addTo].
  - unfold rowItems. cbn [map concat]. rewrite app_nil_r. reflexivity.
  - rewrite (splitMenuItems_ok _ (cellAt_noInvalidDate r c Hr)). cbn [bind].
    unfold colsFit in Hf. cbn [forallb] in Hf.
    apply andb_true_iff in Hf as [Hc Hf].
    unfold rowItems. cbn [map concat]. fold (rowItems r cols).
    destruct (cellItems (cellAt r c)) as [|i items]; cbn [app].
    + apply IH, Hf.
    + cbn [fits] in Hc. rewrite Hc, (IH _ Hf), <- app_assoc. reflexivity.
Qed.

(** The first cell that does not fit makes the loop raise. *)
Lemma addTo_raise `{Host} (r : row) (cols : list nat) bucket :
  noInvalidDate r = true -> colsFit r cols = false ->
  addTo r cols bucket = Throw RangeError.
Proof.
  intros Hr. revert bucket.
  induction cols as [|c cols IH]; intros bucket Hf; cbn [addTo];
    [discriminate|].
  rewrite (splitMenuItems_ok _ (cellAt_noInvalidDate r c Hr)). cbn [bind].
  unfold colsFit in Hf. cbn [forallb] in Hf.
  destruct (cellItems (cellAt r c)) as [|i items]; cbn [fits] in Hf.
  - apply IH, Hf.
  - destruct (spread_ok _); [apply IH, Hf | reflexivity].
Qed.

Lemma addExtra_spec `{Host} (r : row) ek (cols : list nat) ex :
  noInvalidDate r = true -> colsFit r cols = true ->
  addExtra r ek cols ex = Ok (appendExtra ek (rowItems r cols) ex).
Proof.
  intros Hr. revert ex.
  induction cols as [|c cols IH]; intros ex Hf; cbn [addExtra];
    [reflexivity|].
  rewrite (splitMenuItems_ok _ (cellAt_noInvalidDate r c Hr)). cbn [bind].
  unfold colsFit in Hf. cbn [forallb] in Hf.
  apply andb_true_iff in Hf as [Hc Hf].
  unfold rowItems. cbn [map concat]. fold (rowItems r cols).
  destruct (cellItems (cellAt r c)) as [|i items]; cbn [app];
    [apply IH, Hf|].
  cbn [fits] in Hc. rewrite Hc, (IH _ Hf). f_equal. unfold appendExtra.
  destruct (rowItems r cols) as [|j rest].
  - rewrite app_nil_r. reflexivity.
  - cbn [app]. rewrite (obj_get_set_same String.eqb String.eqb_refl).
    rewrite (obj_set_set String.eqb String.eqb_refl).
    rewrite <- app_assoc. reflexivity.
Qed.

Lemma addExtra_raise `{Host} (r : row) ek (cols : list nat) ex :
  noInvalidDate r = true -> colsFit r cols = false ->
  addExtra r ek cols ex = Throw RangeError.
Proof.
  intros Hr. revert ex.
  induction cols as [|c cols IH]; intros ex Hf; cbn [addExtra];
    [discriminate|].
  rewrite (splitMenuItems_ok _ (cellAt_noInvalidDate r c Hr)). cbn [bind].
  unfold colsFit in Hf. cbn [forallb] in Hf.
  destruct (cellItems (cellAt r c)) as [|i items]; cbn [fits] in Hf.
  - apply IH, Hf.
  - destruct (spread_ok _); [apply IH, Hf | reflexivity].
Qed.

Lemma addExtras_spec `{Host} (r : row) entries ex :
  noInvalidDate r = true ->
  forallb (fun e => colsFit r (snd e)) entries = true ->
  addExtras r entries ex =
  Ok (fold_left (fun ex e => appendExtra (fst e) (rowItems r (snd e)) ex)
                entries ex).
Proof.
  intros Hr. revert ex.
  induction entries as [|[ek cols] entries IH]; intros ex Hf;
    cbn [addExtras fold_left]; [reflexivity|].
  cbn [forallb snd] in Hf. apply andb_true_iff in Hf as [Hc Hf].
  rewrite (addExtra_spec r ek cols ex Hr Hc). cbn [bind fst snd].
  apply IH, Hf.
Qed.

Lemma addExtras_raise `{Host} (r : row) entries ex :
  noInvalidDate r = true ->
  forallb (fun e => colsFit r (snd e)) entries = false ->
  addExtras r entries ex = Throw RangeError.
Proof.
  intros Hr. revert ex.
  induction entries as [|[ek cols] entries IH]; intros ex Hf;
    cbn [addExtras]; [discriminate|].
  cbn [forallb snd] in Hf.
  destruct (colsFit r cols) eqn:Hc.
  - rewrite (addExtra_spec r ek cols ex Hr Hc). cbn [bind].
    apply IH, Hf.
  - rewrite (addExtra_raise r ek cols ex Hr Hc). reflexivity.
Qed.

Lemma ensureDay_get (dt : jsstring) ds :
  exists day, obj_get str_eqb dt (ensureDay dt ds) = Some day.
Proof.
  unfold ensureDay. destruct (obj_get str_eqb dt ds) as [day|] eqn:E.
  - exists day. exact E.
  - exists emptyDay. apply (obj_get_set_same str_eqb str_eqb_refl).
Qed.

Lemma ensureDay_idempotent (dt : jsstring) ds :
  ensureDay dt (ensureDay dt ds) = ensureDay dt ds.
Proof.
  destruct (ensureDay_get dt ds) as [day E].
  unfold ensureDay at 1. rewrite E. reflexivity.
Qed.

(** [ensureDay] creates the bucket once. *)
Lemma ensureDay_withBucket (dt : jsstring) ds :
  ensureDay dt ds = withBucket dt ds.
Proof.
  unfold ensureDay, withBucket.
  destruct (obj_get str_eqb dt ds) as [day|] eqn:E.
  - apply obj_get_key, existsb_str_eqb in E. rewrite E. reflexivity.
  - pose proof (obj_get_absent _ _ E) as Hn.
    apply existsb_str_eqb_false in Hn. rewrite Hn.
    apply obj_set_absent, E.
Qed.

Lemma withBucket_get (dt : jsstring) ds :
  exists day, obj_get str_eqb dt (withBucket dt ds) = Some day.
Proof. rewrite <- ensureDay_withBucket. apply ensureDay_get. Qed.

(** An anchor row: whatever else the row holds. *)
Lemma rowStep_anchor `{Host} mealCols g (st : loop_state) (r : row) dt :
  dateOf g r = Some dt ->
  rowStep mealCols g st r = Ok (classifyRow mealCols g st r) /\
  classifyRow mealCols g st r
    = {| currentDate := Some dt;
         allDates := allDates st ++ [dt];
         days_acc := withBucket dt (days_acc st) |}.
Proof.
  unfold rowStep, classifyRow, dateOf.
  destruct (normalizeDateCell (cellAt r 0) g) as [dateISO|] eqn:E;
    [|discriminate].
  intros ->. cbn [bind]. split; [|reflexivity].
  pose proof (normalizeDateCell_nonempty _ _ _ E) as Hne.
  destruct dt as [|c0 dt]; [congruence|].
  rewrite ensureDay_withBucket. reflexivity.
Qed.

(** A row without a date under a current day: the items are appended when
    every configured cell fits, and the loop raises when one does not. *)
Lemma rowStep_append `{Host} mealCols g (st : loop_state) (r : row) cur day :
  noInvalidDate r = true -> dateOf g r = None ->
  currentDate st = Some cur -> cur <> [] ->
  obj_get str_eqb cur (days_acc st) = Some day ->
  rowStep mealCols g st r
    = if rowFits mealCols r then Ok (classifyRow mealCols g st r)
      else Throw RangeError.
Proof.
  intros Hr Hd Ecur Hne Hday. unfold rowStep, classifyRow.
  rewrite Hd. unfold dateOf in Hd.
  destruct (normalizeDateCell_ok (cellAt r 0) g
              (cellAt_noInvalidDate r 0 Hr)) as [dateISO E].
  rewrite E in Hd. subst dateISO. rewrite E, Ecur, Hday. cbn [bind].
  destruct cur as [|c0 cur]; [congruence|].
  unfold rowFits, appendRow.
  destruct (colsFit r (cm_breakfast mealCols)) eqn:Fb; cbn [andb];
    [rewrite (addTo_spec _ _ _ Hr Fb)
    | rewrite (addTo_raise _ _ _ Hr Fb); reflexivity].
  cbn [bind].
  destruct (colsFit r (cm_lunch mealCols)) eqn:Fl; cbn [andb];
    [rewrite (addTo_spec _ _ _ Hr Fl)
    | rewrite (addTo_raise _ _ _ Hr Fl); reflexivity].
  cbn [bind].
  destruct (colsFit r (cm_dinner mealCols)) eqn:Fd; cbn [andb];
    [rewrite (addTo_spec _ _ _ Hr Fd)
    | rewrite (addTo_raise _ _ _ Hr Fd); reflexivity].
  cbn [bind].
  destruct (forallb _ (cm_extras mealCols)) eqn:Fe;
    [rewrite (addExtras_spec _ _ _ Hr Fe)
    | rewrite (addExtras_raise _ _ _ Hr Fe); reflexivity].
  reflexivity.
Qed.

Lemma rowStep_skip `{Host} mealCols g (st : loop_state) (r : row) :
  noInvalidDate r = true -> dateOf g r = None -> currentDate st = None ->
  rowStep mealCols g st r = Ok st /\ classifyRow mealCols g st r = st.
Proof.
  intros Hr Hd Ecur. unfold rowStep, classifyRow.
  rewrite Hd. unfold dateOf in Hd.
  destruct (normalizeDateCell_ok (cellAt r 0) g
              (cellAt_noInvalidDate r 0 Hr)) as [dateISO E].
  rewrite E in Hd. subst dateISO. rewrite E, Ecur. split; reflexivity.
Qed.

Lemma rowStep_spec `{Host} mealCols g (st : loop_state) (r : row) :
  noInvalidDate r = true -> rowFits mealCols r = true -> stateOk st ->
  rowStep mealCols g st r = Ok (classifyRow mealCols g st r) /\
  stateOk (classifyRow mealCols g st r).
Proof.
  intros Hr Hf Hst.
  destruct (dateOf g r) as [dt|] eqn:Hd.
  - destruct (rowStep_anchor mealCols g st r dt Hd) as [E Ec].
    split; [exact E|]. rewrite Ec. unfold stateOk. cbn [currentDate days_acc].
    split; [|apply withBucket_get].
    unfold dateOf in Hd.
    destruct (normalizeDateCell (cellAt r 0) g) as [dateISO|] eqn:En;
      [|discriminate].
    subst dateISO. exact (normalizeDateCell_nonempty _ _ _ En).
  - unfold stateOk in Hst.
    destruct (currentDate st) as [cur|] eqn:Ecur.
    + destruct Hst as [Hne [day Hday]].
      rewrite (rowStep_append mealCols g st r cur day Hr Hd Ecur Hne Hday), Hf.
      split; [reflexivity|].
      unfold classifyRow. rewrite Hd, Ecur, Hday. unfold stateOk.
      cbn [currentDate days_acc]. split; [exact Hne|].
      eexists. apply (obj_get_set_same str_eqb str_eqb_refl).
    + destruct (rowStep_skip mealCols g st r Hr Hd Ecur) as [E Ec].
      rewrite Ec. split; [exact E|]. unfold stateOk. rewrite Ecur. exact I.
Qed.

Lemma rowLoop_spec `{Host} mealCols g (rows : list row) (st : loop_state) :
  forallb noInvalidDate rows = true ->
  forallb (rowFits mealCols) rows = true -> stateOk st ->
  rowLoop mealCols g st rows = Ok (fold_left (classifyRow mealCols g) rows st)
  /\ stateOk (fold_left (classifyRow mealCols g) rows st).
Proof.
  revert st. induction rows as [|r rows IH]; intros st Hrows Hfit Hst;
    cbn [rowLoop fold_left forallb] in *.
  - split; [reflexivity | exact Hst].
  - apply andb_true_iff in Hrows as [Hr Hrows].
    apply andb_true_iff in Hfit as [Hf Hfit].
    destruct (rowStep_spec mealCols g st r Hr Hf Hst) as [E Hst'].
    rewrite E. cbn [bind]. apply IH; assumption.
Qed.



(** ** Header detection *)

Lemma set_add_In (c x : nat) (s : list nat) :
  In x (set_add c s) <-> In x s \/ x = c.
Proof.
  unfold set_add. destruct (existsb (Nat.eqb c) s) eqn:E.
  - split; [auto|]. intros [Hin | ->]; [assumption|].
    apply existsb_exists in E as [y [Hy Ey]].
    apply Nat.eqb_eq in Ey. subst. assumption.
  - rewrite in_app_iff. simpl. split.
    + intros [Hin | [<- | []]]; auto.
    + intros [Hin | ->]; auto.
Qed.

Lemma set_add_NoDup (c : nat) (s : list nat) :
  NoDup s -> NoDup (set_add c s).
Proof.
  intros Hs. unfold set_add. destruct (existsb (Nat.eqb c) s) eqn:E;
    [assumption|].
  apply NoDup_app; [assumption | repeat constructor; intros [] |].
  intros x Hx [<- | []].
  assert (existsb (Nat.eqb c) s = true); [|congruence].
  apply existsb_exists. exists c. split; [assumption | apply Nat.eqb_refl].
Qed.

Lemma hit_In (kw s : jsstring) (c x : nat) (set : list nat) :
  In x (hit [kw] s c set) <-> In x set \/ (x = c /\ includes s kw = true).
Proof.
  unfold hit. simpl. rewrite orb_false_r.
  destruct (includes s kw).
  - rewrite set_add_In. intuition.
  - intuition discriminate.
Qed.

Lemma hit_NoDup (kw s : jsstring) (c : nat) (set : list nat) :
  NoDup set -> NoDup (hit [kw] s c set).
Proof.
  intros Hs. unfold hit. destruct (existsb _ _);
    [apply set_add_NoDup|]; assumption.
Qed.

Section Tracking.
Context `{Host}.

Variables (proj : found_sets -> list nat) (kw : jsstring).
Hypothesis Htracks : tracks proj kw.
Hypothesis Hkw : kw <> [].

Lemma includes_nil : includes [] kw = false.
Proof. destruct kw; [congruence | reflexivity]. Qed.

Lemma scanCell_In v c found found' x :
  scanCell v c found = Ok found' ->
  In x (proj found') <->
  In x (proj found) \/ (x = c /\ includes (cellNorm v) kw = true).
Proof.
  intros E. rewrite (Htracks _ _ _ _ E).
  destruct (cellNorm v) as [|c0 s0] eqn:En.
  - rewrite includes_nil. intuition discriminate.
  - apply hit_In.
Qed.

Lemma scanCell_NoDup v c found found' :
  scanCell v c found = Ok found' ->
  NoDup (proj found) -> NoDup (proj found').
Proof.
  intros E Hnd. rewrite (Htracks _ _ _ _ E).
  destruct (cellNorm v); [assumption | apply hit_NoDup, Hnd].
Qed.

Lemma scanRow_In (r : row) c0 found found' x :
  scanRow r c0 found = Ok found' ->
  In x (proj found') <->
  In x (proj found) \/
  exists i v, nth_error r i = Some v /\ x = (c0 + i)%nat /\
              includes (cellNorm v) kw = true.
Proof.
  revert c0 found. induction r as [|v r IH]; intros c0 found; simpl.
  - intros E. injection E as <-. split; [auto|].
    intros [Hin | (i & w & Hn & _)]; [assumption|].
    destruct i; discriminate.
  - destruct (scanCell v c0 found) as [found1|] eqn:E1; simpl;
      [|discriminate].
    intros E. rewrite (IH _ _ E), (scanCell_In _ _ _ _ x E1). split.
    + intros [[Hin | [-> Hinc]] | (i & w & Hn & -> & Hinc)].
      * left. assumption.
      * right. exists 0%nat, v. rewrite Nat.add_0_r. auto.
      * right. exists (S i), w. repeat split; [assumption | lia | assumption].
    + intros [Hin | (i & w & Hn & -> & Hinc)]; [auto|].
      destruct i as [|i]; simpl in Hn.
      * injection Hn as <-. left. right. rewrite Nat.add_0_r. auto.
      * right. exists i, w. repeat split; [assumption | lia | assumption].
Qed.

Lemma scanRow_NoDup (r : row) c0 found found' :
  scanRow r c0 found = Ok found' ->
  NoDup (proj found) -> NoDup (proj found').
Proof.
  revert c0 found. induction r as [|v r IH]; intros c0 found; simpl.
  - intros E. injection E as <-. auto.
  - destruct (scanCell v c0 found) as [found1|] eqn:E1; simpl;
      [|discriminate].
    intros E Hnd. apply (IH _ _ E). apply (scanCell_NoDup _ _ _ _ E1 Hnd).
Qed.

Lemma scanRows_In (rows : list row) found found' x :
  scanRows rows found = Ok found' ->
  In x (proj found') <->
  In x (proj found) \/
  exists r v, In r rows /\ nth_error r x = Some v /\
              includes (cellNorm v) kw = true.
Proof.
  revert found. induction rows as [|r rows IH]; intros found; simpl.
  - intros E. injection E as <-. split; [auto|].
    intros [Hin | (r & v & [] & _)]. assumption.
  - destruct (scanRow r 0 found) as [found1|] eqn:E1; simpl;
      [|discriminate].
    intros E. rewrite (IH _ E), (scanRow_In _ _ _ _ x E1). split.
    + intros [[Hin | (i & v & Hn & -> & Hinc)] | (r' & v & Hr & Hn & Hinc)].
      * left. assumption.
      * right. exists r, v. auto.
      * right. exists r', v. auto.
    + intros [Hin | (r' & v & [<- | Hr] & Hn & Hinc)].
      * auto.
      * left. right. exists x, v. auto.
      * right. exists r', v. auto.
Qed.

Lemma scanRows_NoDup (rows : list row) found found' :
  scanRows rows found = Ok found' ->
  NoDup (proj found) -> NoDup (proj found').
Proof.
  revert found. induction rows as [|r rows IH]; intros found; simpl.
  - intros E. injection E as <-. auto.
  - destruct (scanRow r 0 found) as [found1|] eqn:E1; simpl;
      [|discriminate].
    intros E Hnd. apply (IH _ E). apply (scanRow_NoDup _ _ _ _ E1 Hnd).
Qed.
End Tracking.

Ltac solve_tracks :=
  intros v c found found' E; unfold scanCell, cellNorm in *;
  destruct (safeText v) as [t|]; simpl in E; [|discriminate];
  destruct (trim (collapseSpaces t false));
  injection E as <-; reflexivity.

Lemma tracks_breakfast `{Host} : tracks f_breakfast w_breakfast.
Proof. solve_tracks. Qed.

Lemma tracks_lunch `{Host} : tracks f_lunch w_lunch.
Proof. solve_tracks. Qed.

Lemma tracks_dinner `{Host} : tracks f_dinner w_dinner.
Proof. solve_tracks. Qed.

Lemma tracks_night `{Host} : tracks f_night w_night.
Proof. solve_tracks. Qed.

Lemma tracks_salad `{Host} : tracks f_salad w_salad.
Proof. solve_tracks. Qed.

Lemma tracks_corner `{Host} : tracks f_corner w_corner.
Proof. solve_tracks. Qed.

Lemma insertNat_In (x y : nat) (l : list nat) :
  In y (insertNat x l) <-> y = x \/ In y l.
Proof.
  induction l as [|h t IH]; simpl.
  - intuition.
  - destruct (x <=? h)%nat; simpl; [intuition|].
    rewrite IH. intuition.
Qed.

Lemma insertNat_sorted (x : nat) (l : list nat) :
  StronglySorted lt l -> ~ In x l -> StronglySorted lt (insertNat x l).
Proof.
  induction l as [|h t IH]; simpl; intros Hs Hx.
  - repeat constructor.
  - inversion Hs as [|? ? Ht Hh]; subst.
    destruct (x <=? h)%nat eqn:E.
    + apply Nat.leb_le in E. assert (x < h)%nat by lia.
      constructor; [assumption|]. constructor; [assumption|].
      rewrite Forall_forall in *. intros y Hy. specialize (Hh y Hy). lia.
    + apply Nat.leb_gt in E. constructor.
      * apply IH; [assumption | tauto].
      * rewrite Forall_forall in *. intros y Hy.
        apply insertNat_In in Hy as [-> | Hy]; [lia | auto].
Qed.

Lemma pick_In (y : nat) (s : list nat) : In y (pick s) <-> In y s.
Proof.
  unfold pick. induction s as [|x s IH]; simpl; [tauto|].
  rewrite insertNat_In, IH. intuition.
Qed.

Lemma pick_sorted (s : list nat) : NoDup s -> StronglySorted lt (pick s).
Proof.
  unfold pick. induction s as [|x s IH]; simpl; intros Hnd.
  - constructor.
  - inversion Hnd; subst. apply insertNat_sorted; [auto|].
    fold (pick s). rewrite pick_In. assumption.
Qed.

Lemma scan_window (A : Type) (rows : list A) :
  firstn (Nat.min (length rows) 35) rows = firstn 35 rows.
Proof.
  destruct (Nat.le_ge_cases (length rows) 35) as [Hle | Hge].
  - rewrite Nat.min_l by exact Hle.
    rewrite firstn_all, firstn_all2 by exact Hle. reflexivity.
  - rewrite Nat.min_r by exact Hge. reflexivity.
Qed.

Lemma detected_columnsOf `{Host} (rows : list row) proj kw found :
  tracks proj kw -> kw <> [] ->
  scanRows (firstn 35 rows)
    {| f_breakfast := []; f_lunch := []; f_dinner := []; f_night := [];
       f_salad := []; f_corner := [] |} = Ok found ->
  proj {| f_breakfast := []; f_lunch := []; f_dinner := []; f_night := [];
          f_salad := []; f_corner := [] |} = [] ->
  columnsOf rows kw (pick (proj found)).
Proof.
  intros Ht Hkw E H0. split.
  - intros c. rewrite pick_In, (scanRows_In proj kw Ht Hkw _ _ _ c E), H0.
    unfold columnHas. simpl. tauto.
  - apply pick_sorted. apply (scanRows_NoDup proj kw Ht _ _ _ E).
    rewrite H0. constructor.
Qed.

(** C4 (as amended): the scan records the corner hits - the corner set
    holds exactly the columns that have, within the first 35 rows, a cell
    whose text contains the corner keyword - and returns none of them:
    the returned object is made of the five other sets only.  Each
    returned list - breakfast, lunch, dinner, night, salad - is the
    ascending list of the columns that have, within the first 35 rows, a
    cell whose text contains the keyword of that category, whatever else
    the cell contains. *)
Theorem detectHeaderColumns_columns `{Host} (rows : list row) det :
  detectHeaderColumns rows = Ok det ->
  columnsOf rows w_breakfast (det_breakfast det) /\
  columnsOf rows w_lunch (det_lunch det) /\
  columnsOf rows w_dinner (det_dinner det) /\
  columnsOf rows w_night (det_night det) /\
  columnsOf rows w_salad (det_salad det) /\
  exists found,
    scanRows (firstn 35 rows)
      {| f_breakfast := []; f_lunch := []; f_dinner := []; f_night := [];
         f_salad := []; f_corner := [] |} = Ok found /\
    (forall c, In c (f_corner found) <-> columnHas rows w_corner c) /\
    NoDup (f_corner found) /\
    det = {| det_breakfast := pick (f_breakfast found);
             det_lunch := pick (f_lunch found);
             det_dinner := pick (f_dinner found);
             det_night := pick (f_night found);
             det_salad := pick (f_salad found) |}.
Proof.
  unfold detectHeaderColumns. rewrite scan_window.
  destruct (scanRows _ _) as [found|] eqn:E; simpl; [|discriminate].
  intros D. injection D as <-. simpl.
  split; [|split; [|split; [|split; [|split]]]];
    try (eapply detected_columnsOf;
         [ first [ apply tracks_breakfast | apply tracks_lunch
                 | apply tracks_dinner | apply tracks_night
                 | apply tracks_salad ]
         | discriminate | exact E | reflexivity ]).
  exists found. split; [reflexivity|]. split; [|split; [|reflexivity]].
  - intros c.
    rewrite (scanRows_In f_corner w_corner tracks_corner
               ltac:(discriminate) _ _ _ c E).
    unfold columnHas. simpl. tauto.
  - apply (scanRows_NoDup f_corner w_corner tracks_corner _ _ _ E).
    constructor.
Qed.

Lemma detectHeaderColumns_columns_witness :
  exists det,
    detectHeaderColumns (H := NodeHost.node) Sample.grid = Ok det /\
    columnsOf Sample.grid w_lunch (det_lunch det) /\
    exists found,
      scanRows (firstn 35 Sample.grid)
        {| f_breakfast := []; f_lunch := []; f_dinner := []; f_night := [];
           f_salad := []; f_corner := [] |} = Ok found /\
      forall c, In c (f_corner found) <-> columnHas Sample.grid w_corner c.
Proof.
  eexists. split; [vm_compute; reflexivity|].
  assert (E : detectHeaderColumns (H := NodeHost.node) Sample.grid
              = Ok {| det_breakfast := [1%nat]; det_lunch := [3%nat];
                      det_dinner := [5%nat]; det_night := [];
                      det_salad := [] |}) by (vm_compute; reflexivity).
  destruct (detectHeaderColumns_columns (H := NodeHost.node) Sample.grid _ E)
    as (_ & Hl & _ & _ & _ & found & Hs & Hc & _).
  split; [exact Hl|]. exists found. split; [exact Hs | exact Hc].
Defined.

(** C4, as stated, fails: a single cell reading 중식 A코너 holds the
    corner keyword, and its column is returned as a lunch column. *)
Lemma corner_cell_assigns_lunch :
  includes (w_lunch ++ $" A" ++ w_corner) w_corner = true /\
  detectHeaderColumns (H := NodeHost.node)
    [[CNull; CString (w_lunch ++ $" A" ++ w_corner)]]
  = Ok {| det_breakfast := []; det_lunch := [1%nat]; det_dinner := [];
          det_night := []; det_salad := [] |}.
Proof. split; reflexivity. Qed.

(** ** Searching with a regular expression *)

Section Search.
Context {A : Type} (at_ : bool -> jsstring -> option A).

Lemma search_Some (b : bool) (s : jsstring) (r : A) :
  search at_ b s = Some r ->
  exists pre rest,
    s = pre ++ rest /\ at_ (b && nilb pre) rest = Some r /\
    forall pre' rest',
      s = pre' ++ rest' -> (length pre' < length pre)%nat ->
      at_ (b && nilb pre') rest' = None.
Proof.
  revert b. induction s as [|c s IH]; intros b; simpl.
  - destruct (at_ b []) as [r'|] eqn:E; [|discriminate].
    intros D. injection D as ->. exists [], []. simpl.
    rewrite andb_true_r. repeat split; [assumption|].
    intros pre' rest' _ Hlen. simpl in Hlen. lia.
  - destruct (at_ b (c :: s)) as [r'|] eqn:E.
    + intros D. injection D as ->. exists [], (c :: s). simpl.
      rewrite andb_true_r. repeat split; [assumption|].
      intros pre' rest' _ Hlen. simpl in Hlen. lia.
    + intros D. destruct (IH false D) as (pre & rest & -> & Hat & Hmin).
      exists (c :: pre), rest. simpl. rewrite andb_false_r.
      repeat split; [exact Hat|].
      intros [|c' pre'] rest' Hs Hlen; simpl in *.
      * rewrite andb_true_r. subst rest'. exact E.
      * rewrite andb_false_r. injection Hs as -> Hs.
        apply (Hmin pre' rest' Hs). lia.
Qed.

Lemma search_None (b : bool) (s : jsstring) :
  search at_ b s = None ->
  forall pre rest, s = pre ++ rest -> at_ (b && nilb pre) rest = None.
Proof.
  revert b. induction s as [|c s IH]; intros b; simpl.
  - destruct (at_ b []) eqn:E; [discriminate|]. intros _ pre rest Hs.
    symmetry in Hs. apply app_eq_nil in Hs as [-> ->]. simpl.
    rewrite andb_true_r. exact E.
  - destruct (at_ b (c :: s)) eqn:E; [discriminate|].
    intros D [|c' pre] rest Hs; simpl in *.
    + rewrite andb_true_r. subst rest. exact E.
    + rewrite andb_false_r. injection Hs as -> Hs.
      apply (IH false D pre rest Hs).
Qed.
End Search.

(** ** The date in the file name *)

#[local] Arguments firstn : simpl never.
#[local] Arguments skipn : simpl never.
#[local] Arguments Z.mul : simpl never.
#[local] Arguments Z.add : simpl never.
#[local] Arguments Z.sub : simpl never.

Lemma firstn_skipn_app (n : nat) (run post : jsstring) :
  length run = n ->
  firstn n (run ++ post) = run /\ skipn n (run ++ post) = post.
Proof.
  intros <-. split.
  - rewrite firstn_app, Nat.sub_diag, firstn_all. simpl. apply app_nil_r.
  - rewrite skipn_app, Nat.sub_diag, skipn_all. reflexivity.
Qed.

Lemma filename_date_tail_spec (s g : jsstring) :
  filename_date_tail s = Some g <->
  g = firstn 6 s /\ length g = 6%nat /\ forallb isDigit g = true /\
  startsNonDigit (skipn 6 s) = true.
Proof.
  unfold filename_date_tail, digitsN, alt, cls, eoi, startsNonDigit, notDigit.
  destruct (length (firstn 6 s) =? 6)%nat eqn:El; cbn [andb].
  2:{ split; [discriminate|]. intros (-> & Hl & _).
      apply Nat.eqb_neq in El. contradiction. }
  apply Nat.eqb_eq in El.
  destruct (forallb isDigit (firstn 6 s)) eqn:Ed.
  2:{ split; [discriminate|]. intros (-> & _ & Hd & _). congruence. }
  destruct (skipn 6 s) as [|c q].
  - split; [intros E; injection E as <-; auto|].
    intros (-> & _). reflexivity.
  - destruct (negb (isDigit c)).
    + split; [intros E; injection E as <-; auto|].
      intros (-> & _). reflexivity.
    + split; [discriminate|]. intros (_ & _ & _ & ?). discriminate.
Qed.

Lemma filename_date_tail_digit (c : Z) (s g : jsstring) :
  filename_date_tail (c :: s) = Some g -> isDigit c = true.
Proof.
  intros E. apply filename_date_tail_spec in E as (-> & _ & Hd & _).
  simpl in Hd. apply andb_true_iff in Hd as [Hc _]. exact Hc.
Qed.

Lemma filename_date_tail_run (run post : jsstring) :
  length run = 6%nat -> forallb isDigit run = true ->
  startsNonDigit post = true ->
  filename_date_tail (run ++ post) = Some run.
Proof.
  intros Hl Hd Hp. apply filename_date_tail_spec.
  destruct (firstn_skipn_app 6 run post Hl) as [-> ->]. auto.
Qed.

Lemma filename_date_at_spec (b : bool) (s g : jsstring) :
  filename_date_at b s = Some g <->
  (b = true /\ filename_date_tail s = Some g) \/
  (exists c s', s = c :: s' /\ isDigit c = false /\
                filename_date_tail s' = Some g).
Proof.
  unfold filename_date_at, alt, cls, notDigit. split.
  - destruct b.
    + destruct (filename_date_tail s) as [g'|] eqn:E; [auto|].
      destruct s as [|c s']; [discriminate|].
      destruct (isDigit c) eqn:Ec; simpl; [discriminate|].
      intros E'. right. exists c, s'. auto.
    + destruct s as [|c s']; [discriminate|].
      destruct (isDigit c) eqn:Ec; simpl; [discriminate|].
      intros E'. right. exists c, s'. auto.
  - intros [[-> E] | (c & s' & -> & Hc & E)].
    + rewrite E. reflexivity.
    + assert (Hn : (if b then filename_date_tail (c :: s') else None) = None).
      { destruct b; [|reflexivity].
        destruct (filename_date_tail (c :: s')) eqn:E'; [|reflexivity].
        apply filename_date_tail_digit in E'. congruence. }
      rewrite Hn, Hc. simpl. exact E.
Qed.

Lemma endsNonDigit_cases (pre : jsstring) :
  endsNonDigit pre = true ->
  pre = [] \/ exists p c, pre = p ++ [c] /\ isDigit c = false.
Proof.
  unfold endsNonDigit. destruct pre as [|c pre] using rev_ind; [auto|].
  rewrite rev_app_distr. simpl. intros Hc. right. exists pre, c.
  split; [reflexivity | apply negb_true_iff, Hc].
Qed.

Lemma endsNonDigit_snoc (p : jsstring) (c : Z) :
  isDigit c = false -> endsNonDigit (p ++ [c]) = true.
Proof.
  intros Hc. unfold endsNonDigit. rewrite rev_app_distr. simpl.
  rewrite Hc. reflexivity.
Qed.

(** A run of the specification is a match of the expression, at the
    position of the run or one before it. *)
Lemma isolatedRun_match (s pre run post : jsstring) :
  isolatedRun s pre run post ->
  (pre = [] /\ filename_date_tail s = Some run) \/
  (exists p c, pre = p ++ [c] /\ s = p ++ c :: run ++ post /\
               isDigit c = false /\
               filename_date_tail (run ++ post) = Some run).
Proof.
  intros (-> & Hl & Hd & Hpre & Hpost).
  pose proof (filename_date_tail_run run post Hl Hd Hpost) as Ht.
  destruct (endsNonDigit_cases pre Hpre) as [-> | (p & c & -> & Hc)].
  - left. auto.
  - right. exists p, c. rewrite <- app_assoc. auto.
Qed.

Lemma re_filename_date_Some (s g : jsstring) :
  re_filename_date s = Some g -> exists pre post, firstRun s pre g post.
Proof.
  unfold re_filename_date. intros E.
  apply search_Some in E as (pre0 & rest & -> & Hat & Hmin).
  simpl in Hat. apply filename_date_at_spec in Hat
    as [[Hb Ht] | (c & s' & -> & Hc & Ht)].
  - destruct pre0; [|discriminate]. simpl in *.
    apply filename_date_tail_spec in Ht as (-> & Hl & Hd & Hp).
    exists [], (skipn 6 rest). split.
    + repeat split; auto. simpl. symmetry. apply firstn_skipn.
    + intros. simpl. lia.
  - apply filename_date_tail_spec in Ht as (-> & Hl & Hd & Hp).
    exists (pre0 ++ [c]), (skipn 6 s'). split.
    + repeat split; auto using endsNonDigit_snoc.
      rewrite <- app_assoc. simpl. rewrite firstn_skipn. reflexivity.
    + intros pre' run' post' Hrun. rewrite length_app. simpl.
      destruct (Nat.le_gt_cases (length pre0 + 1) (length pre'))
        as [Hle | Hgt]; [exact Hle | exfalso].
      apply isolatedRun_match in Hrun
        as [[-> Ht'] | (p & c' & -> & Hs & Hc' & Ht')].
      * destruct pre0 as [|c0 pre0].
        -- simpl in Ht'. apply filename_date_tail_digit in Ht'. congruence.
        -- specialize (Hmin [] _ eq_refl). simpl in Hmin.
           assert (Some run' = None); [|discriminate].
           rewrite <- Hmin by lia. symmetry.
           apply filename_date_at_spec. left. auto.
      * rewrite length_app in Hgt. simpl in Hgt.
        specialize (Hmin p _ Hs).
        assert (Some run' = None); [|discriminate].
        rewrite <- Hmin by lia. symmetry.
        apply filename_date_at_spec. right. exists c', (run' ++ post'). auto.
Qed.

Lemma re_filename_date_None (s : jsstring) :
  re_filename_date s = None ->
  forall pre run post, ~ isolatedRun s pre run post.
Proof.
  unfold re_filename_date. intros E pre run post Hrun.
  pose proof (search_None _ _ _ E) as Hnone.
  apply isolatedRun_match in Hrun
    as [[-> Ht] | (p & c & -> & Hs & Hc & Ht)].
  - specialize (Hnone [] s eq_refl). simpl in Hnone.
    assert (Some run = None); [|discriminate].
    rewrite <- Hnone. symmetry. apply filename_date_at_spec. left. auto.
  - specialize (Hnone p _ Hs).
    assert (Some run = None); [|discriminate].
    rewrite <- Hnone. symmetry.
    apply filename_date_at_spec. right. exists c, (run ++ post). auto.
Qed.

Lemma Number_of_digits_nonneg (s : jsstring) :
  forallb isDigit s = true -> 0 <= Number_of_digits s.
Proof.
  unfold Number_of_digits.
  assert (G : forall acc, 0 <= acc -> forallb isDigit s = true ->
                          0 <= fold_left (fun a c => 10 * a + (c - 48)) s acc).
  { induction s as [|c s IH]; intros acc Hacc; simpl; [auto|].
    rewrite andb_true_iff. intros [Hc Hs]. apply IH; [|exact Hs].
    cbv beta. unfold isDigit in Hc. apply andb_true_iff in Hc as [H1 H2].
    apply Z.leb_le in H1, H2. lia. }
  apply G. lia.
Qed.

Lemma forallb_firstn (p : Z -> bool) (n : nat) (s : jsstring) :
  forallb p s = true -> forallb p (firstn n s) = true.
Proof.
  revert s. induction n as [|n IH]; intros [|c s]; try reflexivity.
  rewrite firstn_cons. simpl. rewrite !andb_true_iff.
  intros [Hc Hs]. auto.
Qed.

Lemma forallb_skipn (p : Z -> bool) (n : nat) (s : jsstring) :
  forallb p s = true -> forallb p (skipn n s) = true.
Proof.
  revert s. induction n as [|n IH]; intros [|c s]; try reflexivity.
  - rewrite skipn_O. auto.
  - rewrite skipn_cons. simpl. rewrite andb_true_iff. intros [_ Hs]. auto.
Qed.

Lemma forallb_slice (p : Z -> bool) (s : jsstring) (i j : nat) :
  forallb p s = true -> forallb p (slice s i j) = true.
Proof.
  intros Hs. unfold slice. apply forallb_firstn, forallb_skipn, Hs.
Qed.

(** C9 (as amended): [parseBaseDateFromFilename] never raises; it looks
    at the base name of the file name only, and at the first run of six
    digits there that has no digit next to it.  It returns that run read
    as [YYMMDD], with the year counted from 2000, when the month and the
    day so read are not zero; it returns nothing when the month or the day
    is zero, or when the base name has no such run.
    ["260112_mealplan.xlsx"] gives 2026, 1, 12 and ["mealplan.xlsx"]
    gives nothing. *)
Theorem parseBaseDateFromFilename_spec :
  (forall (H : Host) (filename : jsstring),
     match parseBaseDateFromFilename filename with
     | Some bd =>
         exists pre run post,
           firstRun (basename filename) pre run post /\
           bd = dateOfRun run /\ bd_mo bd <> 0 /\ bd_d bd <> 0
     | None =>
         (forall pre run post,
            ~ isolatedRun (basename filename) pre run post) \/
         (exists pre run post,
            firstRun (basename filename) pre run post /\
            (bd_mo (dateOfRun run) = 0 \/ bd_d (dateOfRun run) = 0))
     end) /\
  parseBaseDateFromFilename (H := NodeHost.node) $"260112_mealplan.xlsx"
    = Some {| bd_y := 2026; bd_mo := 1; bd_d := 12 |} /\
  parseBaseDateFromFilename (H := NodeHost.node) $"mealplan.xlsx" = None.
Proof.
  split; [|split; reflexivity].
  intros H filename. unfold parseBaseDateFromFilename.
  destruct (re_filename_date (basename filename)) as [g|] eqn:E.
  - destruct (re_filename_date_Some _ _ E) as (pre & post & Hrun).
    assert (Hy : (2000 + Number_of_digits (slice g 0 2) =? 0) = false).
    { apply Z.eqb_neq.
      destruct Hrun as [(_ & _ & Hd & _) _].
      pose proof (Number_of_digits_nonneg _ (forallb_slice _ g 0 2 Hd)).
      lia. }
    rewrite Hy. cbn [orb].
    destruct (Number_of_digits (slice g 2 4) =? 0) eqn:Em; cbn [orb].
    + right. exists pre, g, post. split; [exact Hrun|].
      left. apply Z.eqb_eq in Em. exact Em.
    + destruct (Number_of_digits (slice g 4 6) =? 0) eqn:Ed.
      * right. exists pre, g, post. split; [exact Hrun|].
        right. apply Z.eqb_eq in Ed. exact Ed.
      * exists pre, g, post. apply Z.eqb_neq in Em, Ed.
        repeat split; try apply Hrun; assumption.
  - left. apply re_filename_date_None. exact E.
Qed.

(** C9, as stated, fails: ["260012.xlsx"] has the six-digit run 260012
    with no digit next to it, and the result is nothing, because the
    month read from it is zero. *)
Lemma filename_run_with_month_zero :
  isolatedRun $"260012.xlsx" [] $"260012" $".xlsx" /\
  parseBaseDateFromFilename (H := NodeHost.node) $"260012.xlsx" = None.
Proof. repeat split. Qed.

(** ** The calendar *)

Lemma DayFromYear_succ (y : Z) : DayFromYear (y + 1) = DayFromYear y + DaysInYear y.
Proof.
  unfold DayFromYear, DaysInYear.
  destruct (y mod 4 =? 0) eqn:E4; destruct (y mod 100 =? 0) eqn:E100;
  destruct (y mod 400 =? 0) eqn:E400; cbn [negb];
  rewrite ?Z.eqb_eq, ?Z.eqb_neq in *;
  Z.div_mod_to_equations; lia.
Qed.

Lemma YearFromDay_bounds (n : Z) :
  DayFromYear (YearFromDay n) <= n < DayFromYear (YearFromDay n + 1).
Proof.
  unfold YearFromDay.
  set (y0 := 1970 + 400 * n / 146097).
  destruct (n <? DayFromYear y0) eqn:E1.
  - apply Z.ltb_lt in E1. replace (y0 - 1 + 1) with y0 by lia.
    split; [|exact E1]. unfold DayFromYear in *. subst y0.
    Z.div_mod_to_equations. lia.
  - apply Z.ltb_ge in E1.
    destruct (DayFromYear (y0 + 1) <=? n) eqn:E2.
    + apply Z.leb_le in E2. split; [exact E2|].
      unfold DayFromYear in *. subst y0. Z.div_mod_to_equations. lia.
    + apply Z.leb_gt in E2. lia.
Qed.

Lemma InLeapYear_days (y : Z) :
  (InLeapYear y = 0 \/ InLeapYear y = 1) /\ DaysInYear y = 365 + InLeapYear y.
Proof.
  unfold InLeapYear, DaysInYear.
  destruct (negb (y mod 4 =? 0)); [simpl; lia|].
  destruct (negb (y mod 100 =? 0)); [simpl; lia|].
  destruct (negb (y mod 400 =? 0)); simpl; lia.
Qed.

Lemma MakeDay_civil (y m d : Z) :
  1 <= m <= 12 ->
  MakeDay y (m - 1) d = DayFromYear y + monthStart (m - 1) (InLeapYear y) + d - 1.
Proof.
  intros Hm. unfold MakeDay.
  replace ((m - 1) / 12) with 0 by (symmetry; apply Z.div_small; lia).
  rewrite Z.mod_small by lia. rewrite Z.add_0_r. reflexivity.
Qed.

Lemma civil_of_day (n : Z) :
  civil (YearFromDay n) (MonthFromDay n + 1) (DateFromDay n) /\
  MakeDay (YearFromDay n) (MonthFromDay n) (DateFromDay n) = n.
Proof.
  pose proof (YearFromDay_bounds n) as Hb.
  rewrite DayFromYear_succ in Hb.
  destruct (InLeapYear_days (YearFromDay n)) as [HL HD].
  unfold civil, DateFromDay, MonthFromDay, DayWithinYear, DaysInMonth.
  set (y := YearFromDay n) in *. remember (InLeapYear y) as L eqn:EL.
  set (w := n - DayFromYear y).
  assert (Hw : 0 <= w < 365 + L) by (unfold w; lia).
  assert (Hn : n = DayFromYear y + w) by (unfold w; lia).
  clearbody w.
  repeat match goal with
         | |- context [if ?c <? ?k then _ else _] =>
             destruct (Z.ltb_spec c k)
         end;
    repeat match goal with
           | |- context [Z.add ?a 1] =>
               lazymatch a with Z0 => idtac | Zpos _ => idtac end;
               let v := eval vm_compute in (a + 1) in change (a + 1) with v
           end;
    (split; [cbv [monthStart]; lia|]);
    match goal with
    | |- MakeDay _ ?m _ = _ =>
        let v := eval vm_compute in (m + 1) in
        change m with (v - 1); rewrite MakeDay_civil by lia
    end; rewrite <- EL; cbv [monthStart]; change (1 - 1) with 0; lia.
Qed.

Lemma DayFromYear_mono (y1 y2 : Z) :
  y1 <= y2 -> DayFromYear y1 <= DayFromYear y2.
Proof.
  intros Hy. unfold DayFromYear. Z.div_mod_to_equations. lia.
Qed.

Ltac norm_month :=
  repeat match goal with
         | |- context [Z.sub (Zpos ?a) 1] =>
             let v := eval vm_compute in (Zpos a - 1) in
             change (Zpos a - 1) with v
         | H : context [Z.sub (Zpos ?a) 1] |- _ =>
             let v := eval vm_compute in (Zpos a - 1) in
             change (Zpos a - 1) with v in H
         end;
  cbv beta iota delta [monthStart DaysInMonth] in *.

Ltac month_cases m :=
  let Hm := fresh in
  assert (Hm : m = 1 \/ m = 2 \/ m = 3 \/ m = 4 \/ m = 5 \/ m = 6 \/ m = 7 \/
               m = 8 \/ m = 9 \/ m = 10 \/ m = 11 \/ m = 12) by lia;
  repeat (destruct Hm as [Hm | Hm]); subst m.

Lemma civil_within_year (y m d : Z) :
  civil y m d ->
  0 <= monthStart (m - 1) (InLeapYear y) + d - 1 < DaysInYear y.
Proof.
  intros [Hm Hd]. destruct (InLeapYear_days y) as [HL ->].
  month_cases m; norm_month; lia.
Qed.

Lemma MakeDay_lex (y1 m1 d1 y2 m2 d2 : Z) :
  civil y1 m1 d1 -> civil y2 m2 d2 ->
  dateLt y1 m1 d1 y2 m2 d2 ->
  MakeDay y1 (m1 - 1) d1 < MakeDay y2 (m2 - 1) d2.
Proof.
  intros H1 H2 Hlt.
  pose proof (civil_within_year _ _ _ H1) as W1.
  pose proof (civil_within_year _ _ _ H2) as W2.
  destruct H1 as [Hm1 Hd1], H2 as [Hm2 Hd2].
  rewrite !MakeDay_civil by assumption.
  destruct Hlt as [Hy | [<- Hlt]].
  - pose proof (DayFromYear_mono (y1 + 1) y2 ltac:(lia)) as Hmono.
    rewrite DayFromYear_succ in Hmono. lia.
  - destruct Hlt as [Hm | [<- Hd]]; [|lia].
    destruct (InLeapYear_days y1) as [HL _].
    month_cases m1; month_cases m2; try lia; norm_month; lia.
Qed.

(** ** Dates as strings *)

Lemma isDigit_bounds (c : Z) : isDigit c = true -> 48 <= c <= 57.
Proof.
  unfold isDigit. rewrite andb_true_iff, !Z.leb_le. tauto.
Qed.

Lemma fourDigits_range (y : Z) : 1000 <= y <= 9999 -> fourDigits y = true.
Proof.
  intros Hy.
  assert (Hall : forallb fourDigits (map Z.of_nat (seq (Z.to_nat 1000) (Z.to_nat 9000))) = true)
    by (vm_compute; reflexivity).
  rewrite forallb_forall in Hall. apply Hall.
  replace y with (Z.of_nat (Z.to_nat y)) by lia.
  apply in_map, in_seq. lia.
Qed.

Lemma twoDigits_range (m : Z) : 0 <= m <= 99 -> twoDigits m = true.
Proof.
  intros Hm.
  assert (Hall : forallb twoDigits (map Z.of_nat (seq 0 (Z.to_nat 100))) = true)
    by (vm_compute; reflexivity).
  rewrite forallb_forall in Hall. apply Hall.
  replace m with (Z.of_nat (Z.to_nat m)) by lia.
  apply in_map, in_seq. lia.
Qed.

Lemma toISODate_fields `{Host} (y m d : Z) :
  1000 <= y <= 9999 -> 0 <= m <= 99 -> 0 <= d <= 99 ->
  dateFields (toISODate (Int y) (Int m) (Int d)) = Some (y, m, d).
Proof.
  intros Hy Hm Hd.
  pose proof (fourDigits_range y Hy) as Fy.
  pose proof (twoDigits_range m Hm) as Fm.
  pose proof (twoDigits_range d Hd) as Fd.
  unfold toISODate, String_of_jsint, fourDigits, twoDigits in *.
  destruct (String_of_Z y) as [|y3 [|y2 [|y1 [|y0 [|? ?]]]]];
    try discriminate.
  destruct (padStart2 (String_of_Z m)) as [|m1 [|m0 [|? ?]]];
    try discriminate.
  destruct (padStart2 (String_of_Z d)) as [|d1 [|d0 [|? ?]]];
    try discriminate.
  apply andb_true_iff in Fy as [Dy Vy]. apply Z.eqb_eq in Vy.
  apply andb_true_iff in Fm as [Dm Vm]. apply Z.eqb_eq in Vm.
  apply andb_true_iff in Fd as [Dd Vd]. apply Z.eqb_eq in Vd.
  cbn [app dateFields]. 
  cbn [forallb] in *.
  repeat match goal with
         | H : _ && _ = true |- _ => apply andb_true_iff in H as [? ?]
         end.
  repeat match goal with
         | H : isDigit ?c = true |- _ => rewrite H
         end.
  rewrite !Z.eqb_refl. cbn [andb]. rewrite Vy, Vm, Vd. reflexivity.
Qed.

Lemma dateFields_Some (s : jsstring) (y m d : Z) :
  dateFields s = Some (y, m, d) ->
  exists y3 y2 y1 y0 m1 m0 d1 d0,
    s = [y3; y2; y1; y0; 45; m1; m0; 45; d1; d0] /\
    forallb isDigit [y3; y2; y1; y0; m1; m0; d1; d0] = true /\
    y = Number_of_digits [y3; y2; y1; y0] /\
    m = Number_of_digits [m1; m0] /\
    d = Number_of_digits [d1; d0].
Proof.
  unfold dateFields.
  destruct s as [|y3 [|y2 [|y1 [|y0 [|h1 [|m1 [|m0 [|h2 [|d1 [|d0 [|? ?]]]]]]]]]]];
    try discriminate.
  destruct (h1 =? 45) eqn:E1; [|discriminate].
  destruct (h2 =? 45) eqn:E2; [|discriminate].
  apply Z.eqb_eq in E1, E2. subst h1 h2. cbn [andb].
  destruct (forallb isDigit _) eqn:Ed; [|discriminate].
  intros E. injection E as <- <- <-.
  exists y3, y2, y1, y0, m1, m0, d1, d0. auto.
Qed.

Ltac digit_bounds :=
  repeat match goal with
         | H : forallb isDigit (_ :: _) = true |- _ =>
             cbn [forallb] in H
         | H : _ && _ = true |- _ => apply andb_true_iff in H as [? ?]
         | H : isDigit _ = true |- _ => apply isDigit_bounds in H
         end.

Ltac digit_values :=
  unfold Number_of_digits in *; cbn [fold_left] in *.

Lemma dateFields_bounds (s : jsstring) (y m d : Z) :
  dateFields s = Some (y, m, d) ->
  0 <= y <= 9999 /\ 0 <= m <= 99 /\ 0 <= d <= 99.
Proof.
  intros E.
  apply dateFields_Some in E
    as (y3 & y2 & y1 & y0 & m1 & m0 & d1 & d0 & _ & Hd & -> & -> & ->).
  digit_bounds. digit_values. lia.
Qed.

(** On [YYYY-MM-DD] strings the order by code units is the order of the
    dates. *)
Lemma str_leb_dates (s1 s2 : jsstring) (y1 m1 d1 y2 m2 d2 : Z) :
  dateFields s1 = Some (y1, m1, d1) ->
  dateFields s2 = Some (y2, m2, d2) ->
  ~ dateLt y2 m2 d2 y1 m1 d1 ->
  str_leb s1 s2 = true.
Proof.
  intros E1 E2 Hn.
  apply dateFields_Some in E1
    as (a3 & a2 & a1 & a0 & b1 & b0 & c1 & c0 & -> & Hd1 & -> & -> & ->).
  apply dateFields_Some in E2
    as (e3 & e2 & e1 & e0 & f1 & f0 & g1 & g0 & -> & Hd2 & -> & -> & ->).
  digit_bounds. unfold dateLt in Hn. digit_values.
  unfold str_leb. cbn [str_compare].
  repeat match goal with
         | |- context [Z.compare ?a ?b] =>
             destruct (Z.compare_spec a b); [subst | |]
         end;
    try reflexivity; exfalso; lia.
Qed.

Lemma str_compare_refl (a : jsstring) : str_compare a a = Eq.
Proof.
  induction a as [|x a IH]; simpl; [reflexivity|].
  rewrite Z.compare_refl. exact IH.
Qed.

Lemma str_leb_refl (a : jsstring) : str_leb a a = true.
Proof. unfold str_leb. rewrite str_compare_refl. reflexivity. Qed.

Lemma str_leb_total (a b : jsstring) :
  str_leb a b = false -> str_leb b a = true.
Proof.
  unfold str_leb. revert b.
  induction a as [|x a IH]; intros [|y b]; simpl; try congruence.
  rewrite (Z.compare_antisym x y).
  destruct (Z.compare_spec x y); simpl; try congruence. apply IH.
Qed.

Lemma str_leb_trans (a b c : jsstring) :
  str_leb a b = true -> str_leb b c = true -> str_leb a c = true.
Proof.
  unfold str_leb. revert b c.
  induction a as [|x a IH]; intros [|y b] [|z c]; simpl; try congruence.
  destruct (Z.compare_spec x y); destruct (Z.compare_spec y z);
    try congruence; subst.
  - rewrite Z.compare_refl. apply IH.
  - intros _ _. destruct (Z.compare_spec y z); [lia | reflexivity | lia].
  - intros _ _. destruct (Z.compare_spec x z); [lia | reflexivity | lia].
  - intros _ _. destruct (Z.compare_spec x z); [lia | reflexivity | lia].
Qed.

(** ** [mondayOf] *)

Lemma civilb_civil (y m d : Z) : civilb y m d = true <-> civil y m d.
Proof.
  unfold civilb, civil. rewrite !andb_true_iff, !Z.leb_le. tauto.
Qed.

Lemma DaysInMonth_le_31 (y m : Z) : DaysInMonth y m <= 31.
Proof.
  destruct (InLeapYear_days y) as [HL _]. unfold DaysInMonth.
  destruct m as [|p|p]; try lia.
  do 4 (try destruct p as [p|p|]); lia.
Qed.

Lemma MakeDay_range (y m d : Z) :
  0 <= y <= 9999 -> civil y m d ->
  -719528 <= MakeDay y (m - 1) d <= 2932896.
Proof.
  intros Hy Hc. pose proof (civil_within_year _ _ _ Hc) as Hw.
  rewrite MakeDay_civil by apply Hc.
  pose proof (DayFromYear_mono 0 y ltac:(lia)) as H0.
  pose proof (DayFromYear_mono (y + 1) 10000 ltac:(lia)) as H1.
  rewrite DayFromYear_succ in H1.
  change (DayFromYear 0) with (-719528) in H0.
  change (DayFromYear 10000) with 2932897 in H1. lia.
Qed.

Lemma Date_of_local_midnight_calendar `{Host} (s : jsstring) (y m d : Z) :
  dateFields s = Some (y, m, d) -> civil y m d ->
  Date_of_local_midnight s = ValidDate (MakeDay y (m - 1) d) [].
Proof.
  intros E Hc. pose proof (dateFields_bounds _ _ _ _ E) as (Hy & _ & _).
  pose proof (MakeDay_range y m d Hy Hc) as Hr.
  apply dateFields_Some in E
    as (y3 & y2 & y1 & y0 & m1 & m0 & d1 & d0 & -> & Hd & -> & -> & ->).
  unfold Date_of_local_midnight. rewrite Hd.
  destruct Hc as [Hm Hday]. pose proof (DaysInMonth_le_31
    (Number_of_digits [y3; y2; y1; y0]) (Number_of_digits [m1; m0])).
  replace (1 <=? Number_of_digits [m1; m0]) with true
    by (symmetry; apply Z.leb_le; lia).
  replace (Number_of_digits [m1; m0] <=? 12) with true
    by (symmetry; apply Z.leb_le; lia).
  replace (1 <=? Number_of_digits [d1; d0]) with true
    by (symmetry; apply Z.leb_le; lia).
  replace (Number_of_digits [d1; d0] <=? 31) with true
    by (symmetry; apply Z.leb_le; lia).
  cbn [andb]. unfold TimeClip.
  replace (Z.abs _ <=? 100000000) with true
    by (symmetry; apply Z.leb_le; lia).
  reflexivity.
Qed.

Lemma MakeDay_date (y m d k : Z) : MakeDay y m (d + k) = MakeDay y m d + k.
Proof. unfold MakeDay. lia. Qed.

Lemma mondayOf_calendar `{Host} (s : jsstring) (y m d : Z) :
  dateFields s = Some (y, m, d) -> civil y m d ->
  let n' := mondayBefore (MakeDay y (m - 1) d) in
  mondayOf s = toISODate (Int (YearFromDay n')) (Int (MonthFromDay n' + 1))
                         (Int (DateFromDay n')).
Proof.
  intros E Hc n'. unfold mondayOf.
  rewrite (Date_of_local_midnight_calendar s y m d E Hc).
  set (n := MakeDay y (m - 1) d) in *.
  pose proof (MakeDay_range y m d
                (proj1 (dateFields_bounds _ _ _ _ E)) Hc) as Hr.
  fold n in Hr.
  cbn [getDay getDate is_zero jsint_sub jsint_add].
  assert (Hw : 0 <= WeekDay n < 7)
    by (unfold WeekDay; apply Z.mod_pos_bound; lia).
  assert (Hn' : n' = n + (if WeekDay n =? 0 then -6 else 1 - WeekDay n)).
  { unfold n', mondayBefore. destruct (Z.eqb_spec (WeekDay n) 0) as [E0|E0].
    - rewrite E0. reflexivity.
    - assert ((WeekDay n + 6) mod 7 = WeekDay n - 1); [|lia].
      replace (WeekDay n + 6) with (WeekDay n - 1 + 1 * 7) by lia.
      rewrite Z.mod_add by lia. apply Z.mod_small. lia. }
  assert (Hset : forall k, -6 <= k <= 0 -> n' = n + k ->
            setDate (ValidDate n []) (Int (DateFromDay n + k))
            = ValidDate n' []).
  { intros k Hk6 Hk. cbn [setDate].
    rewrite MakeDay_date, (proj2 (civil_of_day n)), <- Hk.
    unfold TimeClip.
    replace (Z.abs n' <=? 100000000) with true
      by (symmetry; apply Z.leb_le; lia).
    reflexivity. }
  destruct (Z.eqb_spec (WeekDay n) 0).
  - rewrite (Hset (-6) ltac:(lia) Hn'). reflexivity.
  - rewrite (Hset (1 - WeekDay n) ltac:(lia) Hn'). reflexivity.
Qed.

Lemma mondayBefore_spec (n : Z) :
  WeekDay (mondayBefore n) = 1 /\ 0 <= n - mondayBefore n <= 6.
Proof.
  unfold mondayBefore, WeekDay. Z.div_mod_to_equations. lia.
Qed.

Lemma YearFromDay_unique (n y : Z) :
  DayFromYear y <= n < DayFromYear (y + 1) -> YearFromDay n = y.
Proof.
  intros Hy. pose proof (YearFromDay_bounds n) as Hb.
  destruct (Z.lt_trichotomy (YearFromDay n) y) as [Hlt | [Heq | Hgt]];
    [exfalso | exact Heq | exfalso].
  - pose proof (DayFromYear_mono (YearFromDay n + 1) y ltac:(lia)). lia.
  - pose proof (DayFromYear_mono (y + 1) (YearFromDay n) ltac:(lia)). lia.
Qed.

Lemma YearFromDay_mono (n1 n2 : Z) :
  n1 <= n2 -> YearFromDay n1 <= YearFromDay n2.
Proof.
  intros Hn. pose proof (YearFromDay_bounds n1) as H1.
  pose proof (YearFromDay_bounds n2) as H2.
  destruct (Z.le_gt_cases (YearFromDay n1) (YearFromDay n2)) as [|Hgt];
    [assumption | exfalso].
  pose proof (DayFromYear_mono (YearFromDay n2 + 1) (YearFromDay n1)
                ltac:(lia)). lia.
Qed.

(** The Monday of a calendar date with a four-digit year after 1000 is a
    calendar date, a Monday, at most six days earlier, and not after the
    date in the order of strings. *)
Lemma mondayOf_monday `{Host} (s : jsstring) :
  isCalendarDate s = true -> 1001 <= yearOf s ->
  isCalendarDate (mondayOf s) = true /\
  WeekDay (dayNumber (mondayOf s)) = 1 /\
  0 <= dayNumber s - dayNumber (mondayOf s) <= 6 /\
  str_leb (mondayOf s) s = true.
Proof.
  unfold isCalendarDate, yearOf, dayNumber.
  destruct (dateFields s) as [[[y m] d]|] eqn:E; [|discriminate].
  intros Hc Hy. apply civilb_civil in Hc.
  rewrite (mondayOf_calendar s y m d E Hc). cbv zeta.
  set (n := MakeDay y (m - 1) d).
  destruct (mondayBefore_spec n) as [Hmon Hdiff].
  set (n' := mondayBefore n) in *.
  destruct (civil_of_day n') as [Hc' Hn'].
  pose proof (dateFields_bounds _ _ _ _ E) as (Hyb & _ & _).
  pose proof (civil_within_year _ _ _ Hc) as Hw.
  assert (Hn : n = DayFromYear y + (monthStart (m - 1) (InLeapYear y) + d - 1))
    by (unfold n; rewrite MakeDay_civil by apply Hc; lia).
  assert (Hy' : 1000 <= YearFromDay n' <= 9999).
  { split.
    - rewrite <- (YearFromDay_unique (DayFromYear 1000) 1000).
      + apply YearFromDay_mono.
        pose proof (DayFromYear_mono 1001 y Hy).
        change (DayFromYear 1001) with (-353920) in *.
        change (DayFromYear 1000) with (-354285). lia.
      + vm_compute. split; [discriminate | reflexivity].
    - assert (YearFromDay n = y).
      { apply YearFromDay_unique. rewrite DayFromYear_succ. lia. }
      pose proof (YearFromDay_mono n' n ltac:(lia)). lia. }
  assert (E' : dateFields
                 (toISODate (Int (YearFromDay n')) (Int (MonthFromDay n' + 1))
                            (Int (DateFromDay n')))
               = Some (YearFromDay n', MonthFromDay n' + 1, DateFromDay n')).
  { apply toISODate_fields; [exact Hy' | |].
    - destruct Hc' as [Hm' _]. lia.
    - destruct Hc' as [_ Hd'].
      pose proof (DaysInMonth_le_31 (YearFromDay n') (MonthFromDay n' + 1)).
      lia. }
  rewrite E'. replace (MonthFromDay n' + 1 - 1) with (MonthFromDay n') by lia.
  rewrite Hn'. repeat split; try assumption; try lia.
  - apply civilb_civil. exact Hc'.
  - apply (str_leb_dates _ _ _ _ _ _ _ _ E' E).
    intros Hlt. apply (MakeDay_lex _ _ _ _ _ _ Hc Hc') in Hlt.
    replace (MonthFromDay n' + 1 - 1) with (MonthFromDay n') in Hlt by lia.
    rewrite Hn' in Hlt. fold n in Hlt. lia.
Qed.

(** ** The keys of [days] and the week start *)

Lemma obj_set_keys {V : Type} (k k0 : jsstring) (v : V) o :
  In k (map fst (obj_set str_eqb k0 v o)) <-> k = k0 \/ In k (map fst o).
Proof.
  induction o as [|[k' v'] o IH]; simpl.
  - intuition.
  - destruct (str_eqb k0 k') eqn:E; simpl.
    + apply str_eqb_eq in E. subst k'. intuition.
    + rewrite IH. intuition.
Qed.

Lemma ensureDay_keys (k dt : jsstring) ds :
  In k (map fst (ensureDay dt ds)) <-> k = dt \/ In k (map fst ds).
Proof.
  unfold ensureDay. destruct (obj_get str_eqb dt ds) as [day|] eqn:E.
  - apply obj_get_key in E. split; [auto|]. intros [-> | Hin]; assumption.
  - apply obj_set_keys.
Qed.

Lemma rowStep_dates `{Host} mealCols g (st st' : loop_state) (r : row) :
  rowStep mealCols g st r = Ok st' ->
  allDates st' = allDates st ++ anchorsOf g [r] /\
  forall k, In k (map fst (days_acc st')) <->
            In k (map fst (days_acc st)) \/ In k (anchorsOf g [r]).
Proof.
  unfold rowStep, anchorsOf, dateOf. simpl flat_map. rewrite app_nil_r.
  destruct (normalizeDateCell (cellAt r 0) g) as [dateISO|] eqn:E;
    simpl; [|discriminate].
  destruct dateISO as [dt|].
  - pose proof (normalizeDateCell_nonempty _ _ _ E) as Hne.
    destruct dt as [|c0 dt]; [congruence|].
    intros D. injection D as <-. simpl. split; [reflexivity|].
    intros k. rewrite ensureDay_keys. intuition.
  - assert (Hsame : st' = st ->
              allDates st' = allDates st ++ [] /\
              forall k, In k (map fst (days_acc st')) <->
                        In k (map fst (days_acc st)) \/ In k []).
    { intros ->. rewrite app_nil_r. simpl. intuition. }
    destruct (currentDate st) as [[|c0 cur]|];
      try (intros D; injection D as <-; apply Hsame; reflexivity).
    destruct (obj_get str_eqb (c0 :: cur) (days_acc st)) as [day|] eqn:Eg;
      [|discriminate].
    destruct (addTo r (cm_breakfast mealCols) _); simpl; [|discriminate].
    destruct (addTo r (cm_lunch mealCols) _); simpl; [|discriminate].
    destruct (addTo r (cm_dinner mealCols) _); simpl; [|discriminate].
    destruct (addExtras r _ _); simpl; [|discriminate].
    intros D. injection D as <-. simpl. rewrite app_nil_r.
    split; [reflexivity|]. intros k. rewrite obj_set_keys.
    apply obj_get_key in Eg. split.
    + intros [-> | Hin]; auto.
    + intros [Hin | []]. auto.
Qed.

Lemma anchorsOf_cons `{Host} g (r : row) rows :
  anchorsOf g (r :: rows) = anchorsOf g [r] ++ anchorsOf g rows.
Proof. unfold anchorsOf. simpl. rewrite app_nil_r. reflexivity. Qed.

Lemma rowLoop_dates `{Host} mealCols g (rows : list row) (st st' : loop_state) :
  rowLoop mealCols g st rows = Ok st' ->
  allDates st' = allDates st ++ anchorsOf g rows /\
  forall k, In k (map fst (days_acc st')) <->
            In k (map fst (days_acc st)) \/ In k (anchorsOf g rows).
Proof.
  revert st. induction rows as [|r rows IH]; intros st; cbn [rowLoop].
  - intros D. injection D as <-. unfold anchorsOf. simpl.
    rewrite app_nil_r. intuition.
  - destruct (rowStep mealCols g st r) as [st1|] eqn:E1; cbn [bind];
      [|discriminate].
    intros E. destruct (rowStep_dates _ _ _ _ _ E1) as [Ha Hk].
    destruct (IH _ E) as [Ha' Hk'].
    rewrite anchorsOf_cons. split.
    + rewrite Ha', Ha, app_assoc. reflexivity.
    + intros k. rewrite Hk', Hk, in_app_iff. tauto.
Qed.

Lemma distinct_In (x : jsstring) (l seen : list jsstring) :
  In x (distinct l seen) <-> In x l /\ ~ In x seen.
Proof.
  revert seen. induction l as [|y l IH]; intros seen; simpl.
  - tauto.
  - destruct (existsb (str_eqb y) seen) eqn:E.
    + apply existsb_str_eqb in E. rewrite IH. split.
      * intros [Hin Hs]. auto.
      * intros [[-> | Hin] Hs]; [contradiction | auto].
    + apply existsb_str_eqb_false in E. simpl. rewrite IH. simpl. split.
      * intros [-> | [Hin Hs]]; [auto|]. split; [auto|]. tauto.
      * intros [[-> | Hin] Hs]; [auto|].
        destruct (str_eqb y x) eqn:Exy.
        -- apply str_eqb_eq in Exy. auto.
        -- apply str_eqb_neq in Exy. right. split; [assumption|].
           intros [Heq | Hin']; [contradiction | contradiction].
Qed.

Lemma insertStr_In (x y : jsstring) (l : list jsstring) :
  In y (insertStr x l) <-> y = x \/ In y l.
Proof.
  induction l as [|h t IH]; simpl.
  - intuition.
  - destruct (str_leb x h); simpl; [intuition|]. rewrite IH. intuition.
Qed.

Lemma sortStrings_In (y : jsstring) (l : list jsstring) :
  In y (sortStrings l) <-> In y l.
Proof.
  unfold sortStrings. induction l as [|x l IH]; simpl; [tauto|].
  rewrite insertStr_In, IH. intuition.
Qed.

Lemma insertStr_sorted (x : jsstring) (l : list jsstring) :
  StronglySorted str_le l -> StronglySorted str_le (insertStr x l).
Proof.
  induction l as [|h t IH]; simpl; intros Hs.
  - repeat constructor.
  - inversion Hs as [|? ? Ht Hh]; subst.
    destruct (str_leb x h) eqn:E.
    + constructor; [assumption|]. constructor; [exact E|].
      rewrite Forall_forall in *. intros y Hy.
      apply (str_leb_trans x h y E (Hh y Hy)).
    + constructor; [apply IH, Ht|].
      rewrite Forall_forall in *. intros y Hy.
      apply insertStr_In in Hy as [-> | Hy]; [|auto].
      apply str_leb_total, E.
Qed.

Lemma sortStrings_sorted (l : list jsstring) :
  StronglySorted str_le (sortStrings l).
Proof.
  unfold sortStrings. induction l as [|x l IH]; simpl.
  - constructor.
  - apply insertStr_sorted, IH.
Qed.

Lemma sortStrings_first (l : list jsstring) (first : jsstring) rest :
  sortStrings l = first :: rest ->
  In first l /\ forall k, In k l -> str_leb first k = true.
Proof.
  intros E. pose proof (sortStrings_sorted l) as Hs. rewrite E in Hs.
  inversion Hs as [|? ? _ Hh]; subst. split.
  - apply sortStrings_In. rewrite E. left. reflexivity.
  - intros k Hk. apply sortStrings_In in Hk. rewrite E in Hk.
    destruct Hk as [<- | Hk]; [apply str_leb_refl|].
    rewrite Forall_forall in Hh. apply (Hh k Hk).
Qed.

Lemma parseRows_inv `{Host} rows sheetName originalFilename site doc :
  parseRows rows sheetName originalFilename site = Ok doc ->
  exists mealCols st,
    rowLoop mealCols
      (option_map bd_y (parseBaseDateFromFilename originalFilename))
      initialState rows = Ok st /\
    map fst (days doc) = map fst (days_acc st) /\
    weekStart doc = match sortStrings (distinct (allDates st) []) with
                    | [] => None
                    | first :: _ => Some (mondayOf first)
                    end.
Proof.
  unfold parseRows. destruct (detectHeaderColumns rows) as [det|];
    cbn [bind]; [|discriminate].
  fold initialState.
  destruct (rowLoop _ _ initialState rows) as [st|] eqn:E; cbn [bind];
    [|discriminate].
  intros D. injection D as <-. cbn [days weekStart].
  eexists. exists st. split; [exact E|]. split; [|reflexivity].
  rewrite map_map. reflexivity.
Qed.

(** C2 (as amended): the date keys of [days] are the dates of the anchor
    rows.  Without an anchor row [weekStart] is nothing and [days] is
    empty.  Otherwise [weekStart] is [mondayOf] applied to the least date
    key in the order of strings; when that key is a canonical string of a
    date of the calendar, in a year from 1001 to 9999, [weekStart] is
    such a string too, of a Monday, not after any date key in the order of
    strings, and at most six days before that least key. *)
Theorem weekStart_spec `{Host} rows sheetName originalFilename site doc :
  parseRows rows sheetName originalFilename site = Ok doc ->
  let g := option_map bd_y (parseBaseDateFromFilename originalFilename) in
  let keys := map fst (days doc) in
  (forall k, In k keys <-> In k (anchorsOf g rows)) /\
  (anchorsOf g rows = [] -> weekStart doc = None /\ days doc = []) /\
  match weekStart doc with
  | None => anchorsOf g rows = []
  | Some ws =>
      exists first,
        In first keys /\ (forall k, In k keys -> str_le first k) /\
        ws = mondayOf first /\
        (isCalendarDate first = true -> 1001 <= yearOf first ->
         isCalendarDate ws = true /\
         WeekDay (dayNumber ws) = 1 /\
         0 <= dayNumber first - dayNumber ws <= 6 /\
         forall k, In k keys -> str_le ws k)
  end.
Proof.
  intros Hp g keys. subst g keys.
  set (g := option_map bd_y (parseBaseDateFromFilename originalFilename)) in *.
  set (keys := map fst (days doc)) in *.
  destruct (parseRows_inv _ _ _ _ _ Hp) as (mealCols & st & Hloop & Hkeys & Hws).
  destruct (rowLoop_dates _ _ _ _ _ Hloop) as [Hall Hk].
  change (allDates initialState) with (@nil jsstring) in Hall.
  change (map fst (days_acc initialState)) with (@nil jsstring) in Hk.
  simpl in Hall.
  assert (Hkeys' : forall k, In k keys <-> In k (anchorsOf g rows)).
  { intros k. unfold keys. rewrite Hkeys, Hk. simpl. tauto. }
  assert (Hsorted : forall k,
            In k (sortStrings (distinct (allDates st) [])) <-> In k keys).
  { intros k. rewrite sortStrings_In, distinct_In, Hkeys', Hall.
    simpl. tauto. }
  split; [exact Hkeys'|].
  destruct (sortStrings (distinct (allDates st) [])) as [|first rest] eqn:Es.
  - assert (Hnone : anchorsOf g rows = []).
    { destruct (anchorsOf g rows) as [|a l] eqn:Ea; [reflexivity|].
      exfalso. apply (proj2 (Hsorted a)).
      apply Hkeys'. left. reflexivity. }
    rewrite Hws. split; [|exact Hnone].
    intros _. split; [reflexivity|].
    destruct (days doc) as [|[k v] l] eqn:Ed; [reflexivity|].
    exfalso. apply (proj2 (Hsorted k)). unfold keys. simpl.
    left. reflexivity.
  - rewrite Hws. split.
    + intros Hnone. exfalso.
      assert (Hin : In first (anchorsOf g rows)).
      { apply Hkeys', Hsorted. left. reflexivity. }
      rewrite Hnone in Hin. exact Hin.
    + destruct (sortStrings_first _ _ _ Es) as [Hin Hmin].
      assert (Hmin' : forall k, In k keys -> str_le first k).
      { intros k Hk'. apply Hmin. apply sortStrings_In.
        rewrite Es. apply Hsorted, Hk'. }
      exists first. split; [apply Hsorted; left; reflexivity|].
      split; [exact Hmin'|]. split; [reflexivity|].
      intros Hcal Hyear.
      destruct (mondayOf_monday first Hcal Hyear) as (Hc & Hm & Hd & Hle).
      repeat split; try assumption; try lia.
      intros k Hk'. unfold str_le.
      apply (str_leb_trans _ first _ Hle (Hmin' k Hk')).
Qed.

Lemma weekStart_spec_witness :
  exists doc,
    Sample.document = Ok doc /\
    forall k, In k (map fst (days doc)) <->
              In k (anchorsOf (H := NodeHost.node) (Some 2026) Sample.grid).
Proof.
  eexists. split; [vm_compute; reflexivity|].
  apply (weekStart_spec (H := NodeHost.node) Sample.grid (Some $"Sheet1")
           $"260112_meal.xlsx" $"main").
  vm_compute. reflexivity.
Defined.

(** C2, as stated, fails: a sheet whose only date cell reads 13/1 gives
    the date key 2026-13-01 and the week start NaN-NaN-NaN, which is no
    date at all and comes after the key in the order of strings. *)
Lemma weekStart_not_a_monday :
  exists doc,
    parseRows (H := NodeHost.node) [[CString $"13/1"]] (Some $"Sheet1")
              $"mealplan.xlsx" $"main" = Ok doc /\
    map fst (days doc) = [$"2026-13-01"] /\
    weekStart doc = Some $"NaN-NaN-NaN" /\
    isCalendarDate $"NaN-NaN-NaN" = false /\
    str_leb $"NaN-NaN-NaN" $"2026-13-01" = false.
Proof.
  eexists. split; [vm_compute; reflexivity|].
  repeat split.
Qed.

(** ** The month/day expression *)

Lemma isDigit_not_space (c : Z) : isDigit c = true -> isSpace c = false.
Proof.
  intros Hc. apply isDigit_bounds in Hc. unfold isSpace.
  repeat match goal with
         | |- context [?a =? ?b] =>
             rewrite (proj2 (Z.eqb_neq a b)) by lia
         end.
  rewrite (proj2 (Z.leb_gt 8192 c)) by lia. reflexivity.
Qed.

Lemma takeWhile_dropWhile (p : Z -> bool) (s : jsstring) :
  s = takeWhile p s ++ dropWhile p s /\ forallb p (takeWhile p s) = true.
Proof.
  induction s as [|c s [IH1 IH2]]; simpl; [auto|].
  destruct (p c) eqn:E; simpl; [|auto].
  rewrite E, IH2. split; [f_equal; exact IH1 | reflexivity].
Qed.

Section Spaces.
Context {A : Type} (k : jsstring -> option A).
Hypothesis k_no_space : forall c s, isSpace c = true -> k (c :: s) = None.

Lemma spaces_greedy (s : jsstring) : spaces k s = k (dropWhile isSpace s).
Proof.
  induction s as [|c s IH]; simpl; [reflexivity|].
  destruct (isSpace c) eqn:E; [|reflexivity].
  rewrite IH. destruct (k (dropWhile isSpace s)) eqn:Ek; [reflexivity|].
  apply k_no_space, E.
Qed.
End Spaces.

Lemma digitsN_Some {A : Type} (n : nat) (k : jsstring -> jsstring -> option A)
  (s : jsstring) (r : A) :
  digitsN n k s = Some r ->
  length (firstn n s) = n /\ forallb isDigit (firstn n s) = true /\
  k (firstn n s) (skipn n s) = Some r.
Proof.
  unfold digitsN.
  destruct (length (firstn n s) =? n)%nat eqn:El; [|discriminate].
  destruct (forallb isDigit (firstn n s)) eqn:Ed; [|discriminate].
  apply Nat.eqb_eq in El. cbn [andb]. auto.
Qed.

Lemma digitsN_app {A : Type} (n : nat) (k : jsstring -> jsstring -> option A)
  (g rest : jsstring) :
  length g = n -> forallb isDigit g = true ->
  digitsN n k (g ++ rest) = k g rest.
Proof.
  intros Hl Hd. unfold digitsN.
  destruct (firstn_skipn_app n g rest Hl) as [-> ->].
  rewrite Hl, Nat.eqb_refl, Hd. reflexivity.
Qed.

Lemma digitsN_2_None {A : Type} (k : jsstring -> jsstring -> option A)
  (c : Z) (post : jsstring) :
  startsNonDigit post = true -> digitsN 2 k (c :: post) = None.
Proof.
  unfold digitsN. destruct post as [|c2 q]; simpl.
  - intros _. reflexivity.
  - intros Hc. apply negb_true_iff in Hc.
    rewrite !firstn_cons, firstn_O. cbn [length forallb Nat.eqb].
    rewrite Hc, andb_false_r. reflexivity.
Qed.

Lemma md_day_spec (m s : jsstring) (r : jsstring * jsstring) :
  md_day m s = Some r <->
  exists b post,
    s = b ++ post /\ isDigits12 b /\
    (length b = 1%nat -> startsNonDigit post = true) /\ r = (m, b).
Proof.
  unfold md_day, digits12, alt. split.
  - destruct (digitsN 2 _ s) as [r2|] eqn:E2.
    + intros D. injection D as ->.
      apply digitsN_Some in E2 as (Hl & Hd & Hr). injection Hr as <-.
      exists (firstn 2 s), (skipn 2 s). unfold isDigits12.
      rewrite firstn_skipn, Hl. repeat split; auto. discriminate.
    + intros E1. apply digitsN_Some in E1 as (Hl & Hd & Hr).
      injection Hr as <-.
      exists (firstn 1 s), (skipn 1 s). unfold isDigits12.
      rewrite firstn_skipn. repeat split; auto.
      intros _. destruct s as [|c s]; [discriminate|].
      rewrite skipn_cons, skipn_O.
      destruct s as [|c2 q]; [reflexivity|]. simpl.
      destruct (isDigit c2) eqn:E; [|reflexivity]. exfalso.
      rewrite firstn_cons, firstn_O in Hd. cbn [forallb] in Hd.
      rewrite andb_true_r in Hd.
      rewrite (digitsN_app 2 _ [c; c2] q eq_refl) in E2; [discriminate|].
      cbn [forallb]. rewrite Hd, E. reflexivity.
  - intros (b & post & -> & [[Hl | Hl] Hd] & Hpost & ->).
    + destruct b as [|c [|? ?]]; try discriminate. cbn [app].
      rewrite (digitsN_2_None _ c post (Hpost eq_refl)).
      exact (digitsN_app 1 (fun d _ => Some (m, d)) [c] post eq_refl Hd).
    + rewrite (digitsN_app 2 (fun d _ => Some (m, d)) b post Hl Hd).
      reflexivity.
Qed.

Lemma md_day_no_space (m : jsstring) (c : Z) (s : jsstring) :
  isSpace c = true -> md_day m (c :: s) = None.
Proof.
  intros Hc. destruct (md_day m (c :: s)) as [r|] eqn:E; [|reflexivity].
  apply md_day_spec in E as (b & post & Hs & [Hl Hd] & _).
  destruct b as [|c' b]; [simpl in Hl; lia|].
  injection Hs as <- _. cbn [forallb] in Hd.
  apply andb_true_iff in Hd as [Hd _].
  apply isDigit_not_space in Hd. congruence.
Qed.

Lemma md_slash_no_space (m : jsstring) (c : Z) (s : jsstring) :
  isSpace c = true -> md_slash m (c :: s) = None.
Proof.
  intros Hc. unfold md_slash, cls.
  destruct (Z.eqb_spec 47 c) as [<-|]; [discriminate | reflexivity].
Qed.

Lemma dropWhile_spaces_then (ws rest : jsstring) :
  forallb isSpace ws = true -> noLeadSpace rest ->
  dropWhile isSpace (ws ++ rest) = rest.
Proof.
  intros Hws Hrest. rewrite dropWhile_app, Hws.
  apply (noLead_trimStart rest Hrest).
Qed.

(** What follows the month: white space, the slash, white space, the
    day. *)
Lemma md_tail_spec (m s : jsstring) (r : jsstring * jsstring) :
  spaces (md_slash m) s = Some r <->
  exists ws1 ws2 b post,
    s = ws1 ++ [47] ++ ws2 ++ b ++ post /\
    forallb isSpace ws1 = true /\ forallb isSpace ws2 = true /\
    isDigits12 b /\ (length b = 1%nat -> startsNonDigit post = true) /\
    r = (m, b).
Proof.
  rewrite (spaces_greedy _ (md_slash_no_space m)). split.
  - destruct (takeWhile_dropWhile isSpace s) as [Hs Hws1].
    destruct (dropWhile isSpace s) as [|c s1]; [discriminate|].
    unfold md_slash, cls. destruct (Z.eqb_spec 47 c) as [<-|]; [|discriminate].
    rewrite (spaces_greedy _ (md_day_no_space m)).
    destruct (takeWhile_dropWhile isSpace s1) as [Hs1 Hws2].
    intros E. apply md_day_spec in E as (b & post & Hb & Hd & Hp & ->).
    exists (takeWhile isSpace s), (takeWhile isSpace s1), b, post.
    repeat split; auto; try apply Hd.
    rewrite Hs at 1. f_equal. cbn [app]. f_equal.
    rewrite Hs1 at 1. f_equal. exact Hb.
  - intros (ws1 & ws2 & b & post & -> & Hws1 & Hws2 & Hb & Hp & ->).
    rewrite dropWhile_spaces_then; [|exact Hws1 | reflexivity].
    unfold md_slash, cls. cbn [app]. rewrite Z.eqb_refl.
    rewrite (spaces_greedy _ (md_day_no_space m)).
    rewrite dropWhile_spaces_then; [|exact Hws2|].
    + apply md_day_spec. exists b, post. auto.
    + destruct Hb as [Hl Hd]. destruct b as [|c b]; [simpl in Hl; lia|].
      cbn [forallb] in Hd. apply andb_true_iff in Hd as [Hd _].
      apply isDigit_not_space, Hd.
Qed.

Lemma month_day_at_spec (atStart : bool) (rest a b : jsstring) :
  month_day_at atStart rest = Some (a, b) <-> monthDayPrefix rest a b.
Proof.
  unfold month_day_at, digits12, alt, monthDayPrefix.
  change (fun m : jsstring =>
            spaces (cls (Z.eqb 47)
              (spaces (digits12 (fun d _ => Some (m, d))))))
    with (fun m => spaces (md_slash m)).
  split.
  - destruct (digitsN 2 _ rest) as [r2|] eqn:E2.
    + intros D. injection D as ->.
      apply digitsN_Some in E2 as (Hl & Hd & Hr).
      apply md_tail_spec in Hr
        as (ws1 & ws2 & b' & post & Hs & Hw1 & Hw2 & Hb & Hp & Hr).
      injection Hr as Ea Eb. subst a b.
      exists ws1, ws2, post. rewrite <- Hs, firstn_skipn.
      unfold isDigits12. rewrite Hl. repeat split; auto; apply Hb.
    + intros E1. apply digitsN_Some in E1 as (Hl & Hd & Hr).
      apply md_tail_spec in Hr
        as (ws1 & ws2 & b' & post & Hs & Hw1 & Hw2 & Hb & Hp & Hr).
      injection Hr as Ea Eb. subst a b.
      exists ws1, ws2, post. rewrite <- Hs, firstn_skipn.
      unfold isDigits12. rewrite Hl. repeat split; auto; apply Hb.
  - intros (ws1 & ws2 & post & -> & [[Hl | Hl] Hd] & Hb & Hw1 & Hw2 & Hp).
    + destruct a as [|c [|? ?]]; try discriminate. cbn [app].
      rewrite digitsN_2_None.
      * refine (eq_trans
                  (digitsN_app 1 (fun m => spaces (md_slash m)) [c]
                     (ws1 ++ [47] ++ ws2 ++ b ++ post) eq_refl Hd) _).
        apply md_tail_spec. exists ws1, ws2, b, post.
        repeat split; auto; apply Hb.
      * destruct ws1 as [|w ws1]; [reflexivity|]. simpl.
        cbn [forallb] in Hw1. apply andb_true_iff in Hw1 as [Hw _].
        destruct (isDigit w) eqn:E; [|reflexivity].
        apply isDigit_not_space in E. congruence.
    + rewrite (digitsN_app 2 (fun m => spaces (md_slash m)) a _ Hl Hd).
      assert (Ht : spaces (md_slash a) (ws1 ++ [47] ++ ws2 ++ b ++ post)
                   = Some (a, b)).
      { apply md_tail_spec. exists ws1, ws2, b, post.
        repeat split; auto; apply Hb. }
      rewrite Ht. reflexivity.
Qed.

Lemma app_same_length {A : Type} (p1 p2 r1 r2 : list A) :
  p1 ++ r1 = p2 ++ r2 -> length p1 = length p2 -> p1 = p2 /\ r1 = r2.
Proof.
  revert p2. induction p1 as [|x p1 IH]; intros [|y p2]; simpl;
    try discriminate; [auto|].
  intros E Hl. injection E as -> E. injection Hl as Hl.
  destruct (IH _ E Hl) as [-> ->]. auto.
Qed.

Lemma re_month_day_spec (s a b : jsstring) :
  re_month_day s = Some (a, b) <-> monthDayMatch s a b.
Proof.
  unfold re_month_day. split.
  - intros E. apply search_Some in E as (pre & rest & -> & Hat & Hmin).
    exists pre, rest. split; [reflexivity|].
    split; [apply (month_day_at_spec (true && nilb pre)), Hat|].
    intros pre' rest' a' b' Hs Hp.
    destruct (Nat.le_gt_cases (length pre) (length pre')) as [|Hgt];
      [assumption | exfalso].
    apply (month_day_at_spec (true && nilb pre')) in Hp.
    rewrite (Hmin pre' rest' Hs Hgt) in Hp. discriminate.
  - intros (pre & rest & -> & Hp & Hmin).
    destruct (search month_day_at true (pre ++ rest)) as [[a0 b0]|] eqn:E.
    + apply search_Some in E as (pre0 & rest0 & Hs & Hat & Hmin0).
      pose proof Hat as Hp0. apply month_day_at_spec in Hp0.
      pose proof (Hmin pre0 rest0 a0 b0 Hs Hp0) as Hle.
      destruct (Nat.le_gt_cases (length pre0) (length pre)) as [Hle'|Hgt].
      * destruct (app_same_length _ _ _ _ Hs ltac:(lia)) as [-> ->].
        apply (month_day_at_spec (true && nilb pre0)) in Hp.
        congruence.
      * exfalso. apply (month_day_at_spec (true && nilb pre)) in Hp.
        rewrite (Hmin0 pre rest eq_refl Hgt) in Hp. discriminate.
    + exfalso. apply (month_day_at_spec (true && nilb pre)) in Hp.
      rewrite (search_None _ _ _ E pre rest eq_refl) in Hp. discriminate.
Qed.

(** ** [normalizeDateCell] *)

Lemma isDigits12_value (a : jsstring) :
  isDigits12 a -> 0 <= Number_of_digits a <= 99.
Proof.
  intros [Hl Hd].
  destruct a as [|c1 [|c2 [|? ?]]]; simpl in Hl; try lia;
    digit_bounds; digit_values; lia.
Qed.

Lemma normalizeDateCell_shape `{Host} (v : cell) (g : option Z) dt :
  normalizeDateCell v g = Ok (Some dt) ->
  exists y m d, dt = toISODate (Int y) (Int m) (Int d).
Proof.
  unfold normalizeDateCell. intros E.
  assert (Htext :
    forall t, match trim t with
              | [] => Ok None
              | _ :: _ =>
                  match re_month_day (trim t) with
                  | Some (md1, md2) =>
                      Ok (Some (toISODate
                                  (Int (nullish g currentYear))
                                  (Int (Number_of_digits md1))
                                  (Int (Number_of_digits md2))))
                  | None =>
                      match re_iso (trim t) with
                      | Some (iso1, iso2, iso3) =>
                          Ok (Some (toISODate (Int (Number_of_digits iso1))
                                              (Int (Number_of_digits iso2))
                                              (Int (Number_of_digits iso3))))
                      | None => Ok None
                      end
                  end
              end = Ok (Some dt) ->
              exists y m d, dt = toISODate (Int y) (Int m) (Int d)).
  { intros t. destruct (trim t) as [|c0 s0]; [discriminate|].
    destruct (re_month_day _) as [[? ?]|].
    - intros E'. injection E' as <-. eauto.
    - destruct (re_iso _) as [[[? ?] ?]|]; [|discriminate].
      intros E'. injection E' as <-. eauto. }
  destruct v as [| |s|n|b|[|day iso]]; simpl in E;
    try discriminate; try (apply (Htext _ E)).
  - destruct (Number_isFinite n); [destruct (parse_date_code n) as [dc|];
      [destruct (_ && _)|]|]; simpl in E;
      try (apply (Htext _ E)).
    injection E as <-. eauto.
  - injection E as <-. eauto.
Qed.

(** C1: an invalid [Date] cell makes [normalizeDateCell] raise, and with
    it the parse of a workbook that was read without error. *)
Theorem invalid_Date_cell_raises `{Host} :
  (forall g, normalizeDateCell (CDate InvalidDate) g = Throw RangeError) /\
  (forall r rows sheetName originalFilename site,
     parseRows ((CDate InvalidDate :: r) :: rows) sheetName originalFilename
               site = Throw RangeError) /\
  (forall name r rows filePath originalFilename site,
     parseMealExcel
       (fun _ => Ok {| SheetNames := [name];
                       Sheets := fun _ => Some ((CDate InvalidDate :: r) :: rows) |})
       filePath originalFilename site = Throw RangeError).
Proof.
  assert (Hrows : forall r rows sheetName originalFilename site,
            parseRows ((CDate InvalidDate :: r) :: rows) sheetName
                      originalFilename site = Throw RangeError).
  { intros. unfold parseRows, detectHeaderColumns.
    rewrite scan_window, firstn_cons. reflexivity. }
  split; [reflexivity|]. split; [exact Hrows|].
  intros. unfold parseMealExcel. cbn [bind SheetNames Sheets existsb].
  destruct (str_eqb postedMenu name || false); cbn [hd_error]; apply Hrows.
Qed.

(** C3, as stated, fails: the text 13/45 with the year 2026 gives the
    string 2026-13-45, which is not a date of the calendar. *)
Lemma month_13_is_returned :
  normalizeDateCell (H := NodeHost.node) (CString $"13/45") (Some 2026)
    = Ok (Some $"2026-13-45") /\
  isCalendarDate $"2026-13-45" = false.
Proof. split; reflexivity. Qed.

(** ** The parse raises on nothing else *)

Lemma scanRow_ok `{Host} (r : row) (c : nat) found :
  noInvalidDate r = true -> exists found', scanRow r c found = Ok found'.
Proof.
  revert c found. induction r as [|v r IH]; intros c found Hr.
  - eexists. reflexivity.
  - unfold noInvalidDate in Hr. cbn [forallb] in Hr.
    apply andb_true_iff in Hr as [Hv Hr]. apply negb_true_iff in Hv.
    cbn [scanRow]. unfold scanCell.
    destruct (safeText_ok v Hv) as [t ->]. cbn [bind].
    destruct (trim (collapseSpaces t false)); cbn [bind]; apply IH, Hr.
Qed.

Lemma scanRows_ok `{Host} (rows : list row) found :
  forallb noInvalidDate rows = true ->
  exists found', scanRows rows found = Ok found'.
Proof.
  revert found. induction rows as [|r rows IH]; intros found Hrows.
  - eexists. reflexivity.
  - cbn [forallb] in Hrows. apply andb_true_iff in Hrows as [Hr Hrows].
    cbn [scanRows]. destruct (scanRow_ok r 0 found Hr) as [found1 ->].
    cbn [bind]. apply IH, Hrows.
Qed.

Lemma forallb_firstn_rows {A : Type} (p : A -> bool) (n : nat) (l : list A) :
  forallb p l = true -> forallb p (firstn n l) = true.
Proof.
  revert l. induction n as [|n IH]; intros [|x l]; try reflexivity.
  rewrite firstn_cons. cbn [forallb]. rewrite !andb_true_iff.
  intros [Hx Hl]. auto.
Qed.

(** A grid whose cells all fit has rows that fit every column map. *)
Lemma gridFits_colsFit `{Host} (r : row) (cols : list nat) :
  forallb (fun v => fits (cellItems v)) r = true -> colsFit r cols = true.
Proof.
  intros Hr. unfold colsFit. apply forallb_forall. intros c _.
  unfold cellAt. destruct (nth_in_or_default c r CUndefined) as [Hin | ->].
  - rewrite forallb_forall in Hr. apply Hr, Hin.
  - reflexivity.
Qed.

Lemma gridFits_rowFits `{Host} mealCols (rows : list row) :
  gridFits rows = true -> forallb (rowFits mealCols) rows = true.
Proof.
  unfold gridFits. rewrite !forallb_forall. intros Hg r Hr.
  specialize (Hg r Hr). unfold rowFits.
  rewrite !(gridFits_colsFit r _ Hg). cbn [andb].
  apply forallb_forall. intros e _. apply gridFits_colsFit, Hg.
Qed.

(** Without an invalid [Date] cell in the grid, and with cells that fit,
    a document is returned. *)
Lemma parseRows_ok `{Host} rows sheetName originalFilename site :
  forallb noInvalidDate rows = true -> gridFits rows = true ->
  exists doc, parseRows rows sheetName originalFilename site = Ok doc.
Proof.
  intros Hrows Hfit. unfold parseRows, detectHeaderColumns.
  destruct (scanRows_ok (firstn (Nat.min (length rows) 35) rows)
              {| f_breakfast := []; f_lunch := []; f_dinner := [];
                 f_night := []; f_salad := []; f_corner := [] |}
              (forallb_firstn_rows _ _ _ Hrows)) as [found ->].
  cbn [bind]. fold initialState.
  match goal with
  | |- context [rowLoop ?mc ?g initialState rows] =>
      destruct (rowLoop_spec mc g rows initialState Hrows
                  (gridFits_rowFits mc rows Hfit) I) as [-> _]
  end.
  cbn [bind]. eexists. reflexivity.
Qed.

(** X21: [parseMealExcel] passes the failure of [xlsx.readFile] on, and
    returns a document when the file was read, no sheet has an invalid
    [Date] cell, and the lines of every cell fit into one call of
    [push]. *)
Theorem parseMealExcel_outcomes `{Host} readFile filePath originalFilename site :
  (forall e, readFile filePath = Throw e ->
     parseMealExcel readFile filePath originalFilename site = Throw e) /\
  (forall wb, readFile filePath = Ok wb ->
     (forall name rows, Sheets wb name = Some rows ->
        forallb noInvalidDate rows = true /\ gridFits rows = true) ->
     exists doc,
       parseMealExcel readFile filePath originalFilename site = Ok doc).
Proof.
  unfold parseMealExcel. split.
  - intros e ->. reflexivity.
  - intros wb -> Hsheets. cbn [bind].
    destruct (if existsb (str_eqb postedMenu) (SheetNames wb)
              then Some postedMenu else hd_error (SheetNames wb)) as [n|].
    + destruct (Sheets wb n) as [rows|] eqn:E.
      * apply parseRows_ok; apply (Hsheets n rows E).
      * apply parseRows_ok; reflexivity.
    + apply parseRows_ok; reflexivity.
Qed.

(** ** The examples of the specification, run on [NodeHost.node] *)

Example serial_date_2026_01_12 :
  normalizeDateCell (CNumber (H := NodeHost.node) 46034) None
  = Ok (Some $"2026-01-12").
Proof. reflexivity. Qed.

Example text_date_with_weekday :
  normalizeDateCell (H := NodeHost.node) Sample.monday_cell (Some 2026)
  = Ok (Some $"2026-01-12").
Proof. reflexivity. Qed.

Example text_date_without_hint :
  normalizeDateCell (H := NodeHost.node) (CString $"1/12") None
  = Ok (Some (toISODate (Int (currentYear (Host := NodeHost.node)))
                        (Int 1) (Int 12))).
Proof. reflexivity. Qed.

Example iso_text_date :
  normalizeDateCell (H := NodeHost.node) (CString $" 2026-1-5 ") None
  = Ok (Some $"2026-01-05").
Proof. reflexivity. Qed.

Example not_a_date :
  normalizeDateCell (H := NodeHost.node) (CString $"rice") (Some 2026)
  = Ok None.
Proof. reflexivity. Qed.

Example monday_of_a_monday : mondayOf (H := NodeHost.node) $"2026-01-12" = $"2026-01-12".
Proof. reflexivity. Qed.

Example monday_of_a_sunday : mondayOf (H := NodeHost.node) $"2026-03-01" = $"2026-02-23".
Proof. reflexivity. Qed.

Example monday_across_years : mondayOf (H := NodeHost.node) $"2026-01-01" = $"2025-12-29".
Proof. reflexivity. Qed.

Example split_drops_labels :
  splitMenuItems (H := NodeHost.node)
    (CString ($" kimchi stew" ++ [13; 10; 10] ++ w_lunch ++ [10] ++
              $"a  " ++ w_corner ++ [10] ++ $"rice" ++ [160]))
  = Ok [$"kimchi stew"; $"rice"].
Proof. reflexivity. Qed.

Example sample_document :
  Sample.document
  = Ok {| site := $"main";
          source_filename := $"260112_meal.xlsx";
          source_sheet := Some $"Sheet1";
          weekStart := Some $"2026-01-12";
          days :=
            [($"2026-01-12",
              {| breakfast := [$"porridge"];
                 lunch := [$"kimchi stew"; $"rice"];
                 dinner := [$"noodles"];
                 extras := Some [("night"%string, [$"ramen"])] |});
             ($"2026-01-13",
              {| breakfast := [];
                 lunch := [$"kimchi stew"; $"rice"];
                 dinner := [];
                 extras := None |})] |}.
Proof. reflexivity. Qed.

(** * Further properties *)

(** * Further properties of the code *)

(** ** [dedupe]: what it keeps and in which order *)

Lemma dedupeLoop_seen_ext (arr s1 s2 out : list jsstring) :
  (forall x, In x s1 <-> In x s2) ->
  dedupeLoop arr s1 out = dedupeLoop arr s2 out.
Proof.
  revert s1 s2 out. induction arr as [|x arr IH]; intros s1 s2 out Hs;
    cbn [dedupeLoop]; [reflexivity|].
  destruct (nonEmpty (trim x)); cbn [negb]; [|apply IH, Hs].
  assert (E : existsb (str_eqb (trim x)) s1 = existsb (str_eqb (trim x)) s2).
  { destruct (existsb (str_eqb (trim x)) s2) eqn:E2.
    - apply existsb_str_eqb. apply Hs. apply existsb_str_eqb. exact E2.
    - apply existsb_str_eqb_false. intros Hin.
      apply existsb_str_eqb_false in E2. apply E2, Hs, Hin. }
  rewrite E. destruct (existsb (str_eqb (trim x)) s2); [apply IH, Hs|].
  apply IH. intros y. rewrite !in_app_iff. rewrite (Hs y). tauto.
Qed.

Lemma dedupeLoop_members (arr seen : list jsstring) (x : jsstring) :
  In x (dedupeLoop arr seen []) <->
  x <> [] /\ (exists y, In y arr /\ trim y = x) /\ ~ In x seen.
Proof.
  revert seen. induction arr as [|a arr IH]; intros seen; cbn [dedupeLoop].
  - split; [intros [] | intros (_ & (y & [] & _) & _)].
  - destruct (nonEmpty (trim a)) eqn:Hne; cbn [negb].
    + destruct (existsb (str_eqb (trim a)) seen) eqn:Hs.
      * apply existsb_str_eqb in Hs. rewrite IH. split.
        -- intros (Hx & (y & Hy & Ey) & Hn). repeat split; auto.
           exists y. split; [right|]; assumption.
        -- intros (Hx & (y & [<- | Hy] & Ey) & Hn).
           ++ subst x. contradiction.
           ++ repeat split; auto. exists y. auto.
      * apply existsb_str_eqb_false in Hs. apply nonEmpty_true in Hne.
        rewrite dedupeLoop_out. cbn [app In]. rewrite IH. split.
        -- intros [<- | (Hx & (y & Hy & Ey) & Hn)].
           ++ repeat split; auto. exists a. split; [left|]; reflexivity.
           ++ repeat split; auto.
              ** exists y. split; [right|]; assumption.
              ** intros Hin. apply Hn, in_or_app. left. exact Hin.
        -- intros (Hx & (y & [<- | Hy] & Ey) & Hn); [left; exact Ey|].
           destruct (str_eqb (trim a) x) eqn:E.
           ++ left. apply str_eqb_eq, E.
           ++ right. apply str_eqb_neq in E. repeat split; auto.
              ** exists y. auto.
              ** intros Hin. apply in_app_or in Hin as [Hin | [Hin | []]];
                   [apply Hn, Hin | apply E, Hin].
    + assert (Ha : trim a = []) by (destruct (trim a); [reflexivity | discriminate]).
      rewrite IH. split.
      * intros (Hx & (y & Hy & Ey) & Hn). repeat split; auto.
        exists y. split; [right|]; assumption.
      * intros (Hx & (y & [<- | Hy] & Ey) & Hn).
        -- congruence.
        -- repeat split; auto. exists y. auto.
Qed.

(** X1: the strings [dedupe] returns are exactly the non-empty trimmed
    forms of the strings it is given. *)
Theorem dedupe_members (arr : list jsstring) (x : jsstring) :
  In x (dedupe arr) <-> x <> [] /\ exists y, In y arr /\ trim y = x.
Proof.
  unfold dedupe. rewrite dedupeLoop_members. split.
  - intros (Hx & Hy & _). split; assumption.
  - intros (Hx & Hy). repeat split; try assumption. intros [].
Qed.

Lemma dedupeLoop_more_seen (b s e : list jsstring) :
  dedupeLoop b (s ++ e) [] = filter (notInb e) (dedupeLoop b s []).
Proof.
  revert s. induction b as [|x b IH]; intros s; cbn [dedupeLoop app];
    [reflexivity|].
  destruct (nonEmpty (trim x)) eqn:Hne; cbn [negb]; [|apply IH].
  destruct (existsb (str_eqb (trim x)) s) eqn:Hs.
  - assert (Hse : existsb (str_eqb (trim x)) (s ++ e) = true).
    { apply existsb_str_eqb, in_or_app. left.
      apply existsb_str_eqb, Hs. }
    rewrite Hse. apply IH.
  - rewrite (dedupeLoop_out b (s ++ [trim x]) [trim x]).
    cbn [app filter]. unfold notInb at 1.
    destruct (existsb (str_eqb (trim x)) e) eqn:He; cbn [negb].
    + assert (Hse : existsb (str_eqb (trim x)) (s ++ e) = true).
      { apply existsb_str_eqb, in_or_app. right.
        apply existsb_str_eqb, He. }
      rewrite Hse, <- IH. apply dedupeLoop_seen_ext.
      intros y. rewrite !in_app_iff. cbn [In]. split; [tauto|].
      intros [[Hy | [<- | []]] | Hy]; auto.
      right. apply existsb_str_eqb, He.
    + assert (Hse : existsb (str_eqb (trim x)) (s ++ e) = false).
      { apply existsb_str_eqb_false. intros Hin.
        apply in_app_or in Hin as [Hin | Hin].
        - apply existsb_str_eqb_false in Hs. contradiction.
        - apply existsb_str_eqb_false in He. contradiction. }
      rewrite Hse, dedupeLoop_out. cbn [app]. f_equal. rewrite <- IH.
      apply dedupeLoop_seen_ext. intros y. rewrite !in_app_iff. cbn [In].
      tauto.
Qed.

Lemma dedupeLoop_app (a b s : list jsstring) :
  dedupeLoop (a ++ b) s [] =
  dedupeLoop a s [] ++ dedupeLoop b (s ++ dedupeLoop a s []) [].
Proof.
  revert s. induction a as [|x a IH]; intros s; cbn [app dedupeLoop].
  - rewrite app_nil_r. reflexivity.
  - destruct (nonEmpty (trim x)); cbn [negb]; [|apply IH].
    destruct (existsb (str_eqb (trim x)) s); [apply IH|].
    rewrite (dedupeLoop_out (a ++ b)), (dedupeLoop_out a). cbn [app].
    f_equal. rewrite IH. f_equal. apply dedupeLoop_seen_ext.
    intros y. rewrite !in_app_iff. cbn [In]. tauto.
Qed.

(** X2: [dedupe] of two sequences, one after the other, is [dedupe] of
    the first followed by those of [dedupe] of the second that the first
    did not give: first occurrences keep their order. *)
Theorem dedupe_app (a b : list jsstring) :
  dedupe (a ++ b) = dedupe a ++ filter (notInb (dedupe a)) (dedupe b).
Proof.
  unfold dedupe. rewrite dedupeLoop_app. f_equal.
  apply (dedupeLoop_more_seen b [] (dedupeLoop a [] [])).
Qed.

(** ** [splitMenuItems]: what an item is *)

Lemma In_dropWhile (p : Z -> bool) (c : Z) (s : jsstring) :
  In c (dropWhile p s) -> In c s.
Proof.
  induction s as [|a s IH]; cbn [dropWhile]; [auto|].
  destruct (p a); [intros H; right; auto | auto].
Qed.

Lemma In_trim (c : Z) (s : jsstring) : In c (trim s) -> In c s.
Proof.
  unfold trim, trimEnd, trimStart. intros H.
  apply In_dropWhile with (p := isSpace).
  apply in_rev. apply In_dropWhile with (p := isSpace).
  apply in_rev. exact H.
Qed.

Lemma splitNewlines_pieces (s cur : jsstring) (inSep : bool) piece :
  ~ In 10 cur -> In piece (splitNewlines s cur inSep) ->
  ~ In 10 piece /\ forall c, In c piece -> In c s \/ In c cur.
Proof.
  revert cur inSep. induction s as [|a s IH]; intros cur inSep Hcur;
    cbn [splitNewlines].
  - intros [<- | []]. split.
    + intros H. apply Hcur, in_rev, H.
    + intros c H. right. apply in_rev, H.
  - destruct (Z.eqb_spec a 10) as [->|Ha].
    + assert (Hrec : In piece (splitNewlines s [] true) ->
                     ~ In 10 piece /\
                     forall c, In c piece -> In c (10 :: s) \/ In c cur).
      { intros H. destruct (IH [] true (fun F => F) H) as [H1 H2].
        split; [exact H1|]. intros c Hc.
        destruct (H2 c Hc) as [? | []]. left. right. assumption. }
      destruct inSep; [exact Hrec|].
      intros [<- | H]; [|exact (Hrec H)]. split.
      * intros H. apply Hcur, in_rev, H.
      * intros c H. right. apply in_rev, H.
    + intros H.
      assert (Hcur' : ~ In 10 (a :: cur)).
      { intros [E | F]; [congruence | contradiction]. }
      destruct (IH (a :: cur) false Hcur' H) as [H1 H2].
      split; [exact H1|]. intros c Hc.
      destruct (H2 c Hc) as [? | [<- | ?]]; auto.
      * left. right. assumption.
      * left. left. reflexivity.
Qed.

Lemma stripCR_no_CR (s : jsstring) : ~ In 13 (stripCR s).
Proof.
  unfold stripCR. intros H. apply filter_In in H as [_ H]. discriminate.
Qed.

Lemma nbspToSpace_In (c : Z) (s : jsstring) :
  In c (nbspToSpace s) -> c <> 160 /\ (c = 32 \/ In c s).
Proof.
  unfold nbspToSpace. intros H. apply in_map_iff in H as (a & E & Ha).
  destruct (a =? 160) eqn:Ea.
  - subst c. split; [discriminate | left; reflexivity].
  - subst c. apply Z.eqb_neq in Ea. split; [exact Ea | right; exact Ha].
Qed.

Lemma splitMenuItems_menuLine `{Host} (v : cell) (items : list jsstring) :
  splitMenuItems v = Ok items -> Forall menuLine items.
Proof.
  unfold splitMenuItems. destruct (safeText v) as [raw|]; cbn [bind];
    [|discriminate].
  set (t := trim (nbspToSpace (stripCR raw))).
  assert (Ht : forall c, In c t -> c <> 13 /\ c <> 160).
  { intros c Hc. apply In_trim, nbspToSpace_In in Hc as [H160 Hc].
    split; [|exact H160]. intros ->.
    destruct Hc as [Hc | Hc]; [discriminate|].
    apply (stripCR_no_CR raw Hc). }
  assert (Hitems :
    Forall menuLine
      (filter (fun p => negb (re_header_label p))
         (filter nonEmpty (map trim (splitNewlines t [] false))))).
  { apply Forall_forall. intros x Hx.
    apply filter_In in Hx as [Hx Hlabel]. apply filter_In in Hx as [Hx Hne].
    apply in_map_iff in Hx as (piece & <- & Hpiece).
    destruct (splitNewlines_pieces t [] false piece (fun F => F) Hpiece)
      as [H10 Hsub].
    assert (Hin : forall c, In c (trim piece) -> In c t).
    { intros c Hc. apply In_trim in Hc.
      destruct (Hsub c Hc) as [? | []]. assumption. }
    unfold menuLine. repeat split.
    - apply nonEmpty_true, Hne.
    - apply trim_idem.
    - apply negb_true_iff, Hlabel.
    - intros F. apply H10, In_trim, F.
    - intros F. apply (proj1 (Ht 13 (Hin 13 F))). reflexivity.
    - intros F. apply (proj2 (Ht 160 (Hin 160 F))). reflexivity. }
  destruct t as [|c0 t0].
  - intros E. injection E as <-. constructor.
  - intros E. injection E as <-. exact Hitems.
Qed.

(** X3: every item [splitMenuItems] returns is a non-empty, trimmed
    line without line break, carriage return or no-break space, and is
    not a header label. *)
Theorem splitMenuItems_lines `{Host} (v : cell) (items : list jsstring) :
  splitMenuItems v = Ok items -> Forall menuLine items.
Proof. exact (splitMenuItems_menuLine v items). Qed.

Lemma splitMenuItems_lines_witness :
  exists items,
    splitMenuItems (H := NodeHost.node)
      (CString ($"stew" ++ [13; 10] ++ w_lunch ++ [10] ++ $" rice ")) = Ok items /\
    Forall menuLine items.
Proof.
  eexists. split; [vm_compute; reflexivity|].
  apply (splitMenuItems_lines (H := NodeHost.node)
           (CString ($"stew" ++ [13; 10] ++ w_lunch ++ [10] ++ $" rice "))).
  vm_compute. reflexivity.
Defined.

(** ** The header labels [splitMenuItems] drops *)

Lemma dropWhile_nil_iff (p : Z -> bool) (s : jsstring) :
  dropWhile p s = [] <-> forallb p s = true.
Proof.
  induction s as [|c s IH]; cbn [dropWhile forallb]; [tauto|].
  destruct (p c); cbn [andb]; [exact IH | split; discriminate].
Qed.

Lemma label_fin_spec (s : jsstring) (r : unit) :
  label_fin s = Some r <-> forallb isSpace s = true.
Proof.
  unfold label_fin.
  rewrite (spaces_greedy (eoi (fun _ => Some tt)) (fun _ _ _ => eq_refl)).
  rewrite <- dropWhile_nil_iff. unfold eoi. destruct r.
  destruct (dropWhile isSpace s); split; congruence.
Qed.

Lemma alt_unit (a b : jsstring -> option unit) (s : jsstring) (r : unit) :
  alt a b s = Some r <-> a s = Some r \/ b s = Some r.
Proof.
  unfold alt. destruct r. destruct (a s) as [[]|]; split; auto.
  intros [E | E]; [discriminate | exact E].
Qed.

Lemma ci_lit_caseless {A : Type} (w : jsstring) (k : jsstring -> option A)
  (s : jsstring) (r : A) :
  caseless w ->
  ci_lit w k s = Some r <-> exists rest, s = w ++ rest /\ k rest = Some r.
Proof.
  intros Hw. revert s. induction Hw as [|p w Hp Hw IH]; intros s;
    cbn [ci_lit app].
  - split; [eauto | intros (rest & -> & E); exact E].
  - unfold cls, ci_eqb. rewrite Hp. cbn [andb].
    destruct s as [|c s].
    + split; [discriminate | intros (rest & E & _); discriminate].
    + rewrite orb_false_r. destruct (Z.eqb_spec c p) as [->|Hc].
      * rewrite IH. split.
        -- intros (rest & -> & E). eauto.
        -- intros (rest & E & Ek). injection E as ->. eauto.
      * split; [discriminate|]. intros (rest & E & _).
        injection E as E _. contradiction.
Qed.

Lemma ci_lit_letter {A : Type} (l : Z) (k : jsstring -> option A)
  (s : jsstring) (r : A) :
  65 <= l <= 90 ->
  ci_lit [l] k s = Some r <->
  exists c rest, s = c :: rest /\ (c = l \/ c = l + 32) /\ k rest = Some r.
Proof.
  intros Hl. cbn [ci_lit]. unfold cls, ci_eqb.
  replace ((65 <=? l) && (l <=? 90)) with true
    by (symmetry; apply andb_true_iff; rewrite !Z.leb_le; lia).
  cbn [andb]. destruct s as [|c s].
  - split; [discriminate | intros (c & rest & E & _); discriminate].
  - destruct ((c =? l) || (c =? l + 32)) eqn:E.
    + apply orb_true_iff in E. rewrite !Z.eqb_eq in E. split; [eauto|].
      intros (c' & rest & Es & _ & Ek). injection Es as -> ->. exact Ek.
    + apply orb_false_iff in E. rewrite !Z.eqb_neq in E.
      split; [discriminate|].
      intros (c' & rest & Es & Hc & _). injection Es as -> ->. tauto.
Qed.

Lemma w_corner_caseless : caseless w_corner.
Proof. repeat constructor. Qed.

Lemma label_corner_spec (l : Z) (s : jsstring) (r : unit) :
  65 <= l <= 90 ->
  label_corner l s = Some r <->
  exists c ws rest,
    s = c :: ws ++ w_corner ++ rest /\ (c = l \/ c = l + 32) /\
    forallb isSpace ws = true /\ forallb isSpace rest = true.
Proof.
  intros Hl. unfold label_corner. rewrite (ci_lit_letter l _ s r Hl).
  assert (Hk : forall c s', isSpace c = true ->
                 ci_lit w_corner label_fin (c :: s') = None).
  { intros c s' Hc. destruct (ci_lit w_corner label_fin (c :: s')) as [[]|] eqn:E;
      [|reflexivity].
    apply (ci_lit_caseless w_corner label_fin _ tt w_corner_caseless) in E
      as (rest & Es & _).
    injection Es as -> _. discriminate. }
  split.
  - intros (c & rest & -> & Hc & E).
    rewrite (spaces_greedy _ Hk) in E.
    apply (ci_lit_caseless w_corner label_fin _ r w_corner_caseless) in E
      as (rest' & Ed & Ef).
    apply label_fin_spec in Ef.
    destruct (takeWhile_dropWhile isSpace rest) as [Hs Hws].
    exists c, (takeWhile isSpace rest), rest'. repeat split; auto.
    rewrite Hs at 1. rewrite Ed. reflexivity.
  - intros (c & ws & rest & -> & Hc & Hws & Hrest).
    exists c, (ws ++ w_corner ++ rest). repeat split; auto.
    rewrite (spaces_greedy _ Hk).
    rewrite dropWhile_spaces_then; [|exact Hws | reflexivity].
    apply (ci_lit_caseless w_corner label_fin _ r w_corner_caseless).
    exists rest. split; [reflexivity | apply label_fin_spec, Hrest].
Qed.

Lemma label_word_spec (w s : jsstring) (r : unit) :
  caseless w ->
  ci_lit w label_fin s = Some r <->
  exists rest, s = w ++ rest /\ forallb isSpace rest = true.
Proof.
  intros Hw. rewrite (ci_lit_caseless w label_fin s r Hw).
  split; intros (rest & E & Hr); exists rest; split; auto;
    apply (label_fin_spec rest r); assumption.
Qed.

(** What the alternatives match at the front of [s]: a label text and
    white space to the end. *)
Lemma label_alts_spec (s : jsstring) (r : unit) :
  label_alts s = Some r <->
  exists core rest,
    s = core ++ rest /\ labelCore core /\ forallb isSpace rest = true.
Proof.
  unfold label_alts. rewrite !alt_unit.
  rewrite !label_word_spec by (repeat constructor).
  rewrite !label_corner_spec by lia.
  unfold labelCore, labelWords. split.
  - intros [(rest & -> & Hr) | [(rest & -> & Hr) | [(rest & -> & Hr)
           | [(rest & -> & Hr) | [(rest & -> & Hr)
           | [(c & ws & rest & -> & Hc & Hws & Hr)
             | (c & ws & rest & -> & Hc & Hws & Hr)]]]]]];
      try (eexists; exists rest; split; [reflexivity|];
           split; [left; cbn [In]; tauto | exact Hr]).
    + exists (c :: ws ++ w_corner), rest. split.
      * cbn [app]. rewrite <- app_assoc. reflexivity.
      * split; [|exact Hr]. right. exists c, ws. cbn [In].
        repeat split; auto. destruct Hc as [-> | ->]; auto.
    + exists (c :: ws ++ w_corner), rest. split.
      * cbn [app]. rewrite <- app_assoc. reflexivity.
      * split; [|exact Hr]. right. exists c, ws. cbn [In].
        repeat split; auto. destruct Hc as [-> | ->]; auto.
  - intros (core & rest & -> & [Hw | (l & ws & Hl & Hws & ->)] & Hr).
    + cbn [In] in Hw.
      destruct Hw as [<- | [<- | [<- | [<- | [<- | []]]]]];
        [left | right; left | right; right; left
        | right; right; right; left | right; right; right; right; left];
        exists rest; auto.
    + cbn [In] in Hl. do 5 right.
      destruct Hl as [<- | [<- | [<- | [<- | []]]]];
        [left | left | right | right];
        eexists; exists ws, rest; cbn [app]; rewrite <- app_assoc;
        (split; [reflexivity|]); repeat split; auto;
        first [left; reflexivity | right; reflexivity].
Qed.

Lemma label_alts_no_space (c : Z) (s : jsstring) :
  isSpace c = true -> label_alts (c :: s) = None.
Proof.
  intros Hc. destruct (label_alts (c :: s)) as [r|] eqn:E; [|reflexivity].
  apply label_alts_spec in E as (core & rest & Es & Hcore & _).
  exfalso. destruct Hcore as [Hw | (l & ws & Hl & _ & ->)].
  - cbn [In] in Hw.
    destruct Hw as [<- | [<- | [<- | [<- | [<- | []]]]]];
      injection Es as -> _; discriminate.
  - injection Es as -> _. cbn [In] in Hl.
    destruct Hl as [<- | [<- | [<- | [<- | []]]]]; discriminate.
Qed.

Lemma search_anchored {A : Type} (k : jsstring -> option A) (s : jsstring) :
  search (fun atStart s => if atStart then k s else None) true s = k s.
Proof.
  assert (Hf : forall s',
            search (fun (atStart : bool) s => if atStart then k s else None)
                   false s' = None).
  { induction s' as [|c s' IH]; cbn [search]; [reflexivity | exact IH]. }
  destruct s as [|c s]; cbn [search].
  - destruct (k []); reflexivity.
  - destruct (k (c :: s)); [reflexivity | apply Hf].
Qed.

Lemma labelCore_no_lead_space (core rest : jsstring) :
  labelCore core -> noLeadSpace (core ++ rest).
Proof.
  intros [Hw | (l & ws & Hl & _ & ->)].
  - cbn [In] in Hw.
    destruct Hw as [<- | [<- | [<- | [<- | [<- | []]]]]]; reflexivity.
  - cbn [In] in Hl.
    destruct Hl as [<- | [<- | [<- | [<- | []]]]]; reflexivity.
Qed.

(** X4: the expression that recognises header labels accepts exactly the
    five meal words and, in either case, A or B followed by white space
    and the corner word, each with white space allowed before and after,
    and nothing else. *)
Theorem re_header_label_spec (p : jsstring) :
  re_header_label p = true <-> isHeaderLabel p.
Proof.
  change (re_header_label p)
    with (match search (fun (atStart : bool) s =>
                          if atStart then spaces label_alts s else None)
                       true p
          with Some _ => true | None => false end).
  rewrite search_anchored, (spaces_greedy _ label_alts_no_space).
  unfold isHeaderLabel. split.
  - destruct (label_alts (dropWhile isSpace p)) as [r|] eqn:E;
      [|discriminate].
    intros _. apply label_alts_spec in E as (core & rest & Es & Hc & Hr).
    destruct (takeWhile_dropWhile isSpace p) as [Hp Hws].
    exists (takeWhile isSpace p), core, rest. repeat split; auto.
    rewrite Hp at 1. rewrite Es. reflexivity.
  - intros (ws1 & core & ws2 & -> & Hw1 & Hw2 & Hc).
    rewrite dropWhile_spaces_then;
      [|exact Hw1 | apply labelCore_no_lead_space, Hc].
    assert (E : label_alts (core ++ ws2) = Some tt).
    { apply label_alts_spec. exists core, ws2. auto. }
    rewrite E. reflexivity.
Qed.

(** ** [detectHeaderColumns]: its window and when it raises *)

(** X5: only the first 35 rows of the grid matter to header detection. *)
Theorem detectHeaderColumns_window `{Host} (rows1 rows2 : list row) :
  firstn 35 rows1 = firstn 35 rows2 ->
  detectHeaderColumns rows1 = detectHeaderColumns rows2.
Proof.
  intros E. unfold detectHeaderColumns.
  rewrite !scan_window, E. reflexivity.
Qed.

Lemma detectHeaderColumns_window_witness :
  detectHeaderColumns (H := NodeHost.node)
    (repeat [CNull] 35 ++ [[CString w_lunch]])
  = detectHeaderColumns (H := NodeHost.node) (repeat [CNull] 35).
Proof.
  apply (detectHeaderColumns_window (H := NodeHost.node)).
  reflexivity.
Defined.

Lemma scanRow_throw `{Host} (r : row) (c : nat) found :
  noInvalidDate r = false -> scanRow r c found = Throw RangeError.
Proof.
  revert c found. induction r as [|v r IH]; intros c found;
    unfold noInvalidDate; cbn [forallb]; [discriminate|].
  intros Hr. cbn [scanRow]. unfold scanCell.
  destruct (isInvalidDate v) eqn:Hv.
  - destruct v as [| | | | |[|? ?]]; try discriminate. reflexivity.
  - destruct (safeText_ok v Hv) as [t ->]. cbn [bind negb andb] in *.
    destruct (trim (collapseSpaces t false)); cbn [bind]; apply IH, Hr.
Qed.

Lemma scanRows_throw `{Host} (rows : list row) found :
  forallb noInvalidDate rows = false -> scanRows rows found = Throw RangeError.
Proof.
  revert found. induction rows as [|r rows IH]; intros found;
    cbn [forallb]; [discriminate|].
  intros Hr. cbn [scanRows]. destruct (noInvalidDate r) eqn:E.
  - destruct (scanRow_ok r 0 found E) as [found1 ->]. cbn [bind].
    apply IH, Hr.
  - rewrite (scanRow_throw r 0 found E). reflexivity.
Qed.

(** X6: header detection raises exactly when one of the first 35 rows
    holds an invalid [Date] cell, and then a [RangeError]; cells further
    down are never read by it. *)
Theorem detectHeaderColumns_raises `{Host} (rows : list row) :
  if forallb noInvalidDate (firstn 35 rows)
  then exists det, detectHeaderColumns rows = Ok det
  else detectHeaderColumns rows = Throw RangeError.
Proof.
  unfold detectHeaderColumns. rewrite scan_window.
  destruct (forallb noInvalidDate (firstn 35 rows)) eqn:E.
  - destruct (scanRows_ok (firstn 35 rows)
                {| f_breakfast := []; f_lunch := []; f_dinner := [];
                   f_night := []; f_salad := []; f_corner := [] |} E)
      as [found ->].
    cbn [bind]. eexists. reflexivity.
  - rewrite (scanRows_throw _ _ E). reflexivity.
Qed.

(** ** [normalizeDateCell]: date cells and text without digits *)

(** X7: a valid [Date] cell of a year from 1000 to 9999 is returned as
    the canonical string of its own local date, whatever the year
    guess. *)
Theorem date_cell_round_trip `{Host} (n : Z) (iso : jsstring) (g : option Z) :
  1000 <= YearFromDay n <= 9999 ->
  exists s,
    normalizeDateCell (CDate (ValidDate n iso)) g = Ok (Some s) /\
    isCalendarDate s = true /\ dayNumber s = n.
Proof.
  intros Hy. eexists. split; [reflexivity|].
  cbn [getFullYear getMonth getDate jsint_add].
  destruct (civil_of_day n) as [Hc Hn].
  pose proof (DaysInMonth_le_31 (YearFromDay n) (MonthFromDay n + 1)) as H31.
  assert (E : dateFields (toISODate (Int (YearFromDay n))
                            (Int (MonthFromDay n + 1)) (Int (DateFromDay n)))
              = Some (YearFromDay n, MonthFromDay n + 1, DateFromDay n)).
  { destruct Hc as [Hm Hd]. apply toISODate_fields; lia. }
  unfold isCalendarDate, dayNumber. rewrite E. split.
  - apply civilb_civil, Hc.
  - replace (MonthFromDay n + 1 - 1) with (MonthFromDay n) by lia. exact Hn.
Qed.

Lemma date_cell_round_trip_witness :
  exists s,
    normalizeDateCell (H := NodeHost.node) (CDate (ValidDate 20465 [])) None
      = Ok (Some s) /\
    isCalendarDate s = true /\ dayNumber s = 20465.
Proof.
  apply (date_cell_round_trip (H := NodeHost.node) 20465 [] None).
  vm_compute. split; discriminate.
Defined.

Lemma search_fails {A : Type} (at_ : bool -> jsstring -> option A)
  (b : bool) (s : jsstring) :
  (forall flag rest, at_ flag rest <> None ->
     exists c rest', rest = c :: rest' /\ isDigit c = true) ->
  forallb notDigit s = true -> search at_ b s = None.
Proof.
  intros Hat Hs. destruct (search at_ b s) as [r|] eqn:E; [|reflexivity].
  exfalso. apply search_Some in E as (pre & rest & -> & E & _).
  destruct (Hat _ rest ltac:(rewrite E; discriminate))
    as (c & rest' & -> & Hc).
  rewrite forallb_app in Hs. apply andb_true_iff in Hs as [_ Hs].
  cbn [forallb] in Hs. apply andb_true_iff in Hs as [Hs _].
  unfold notDigit in Hs. rewrite Hc in Hs. discriminate.
Qed.

Lemma digitsN_head {A : Type} (n : nat) (k : jsstring -> jsstring -> option A)
  (s : jsstring) :
  digitsN (S n) k s <> None ->
  exists c rest, s = c :: rest /\ isDigit c = true.
Proof.
  intros Hs. destruct (digitsN (S n) k s) as [r|] eqn:E; [|congruence].
  apply digitsN_Some in E as (Hl & Hd & _).
  destruct s as [|c rest]; [discriminate|].
  rewrite firstn_cons in Hd. cbn [forallb] in Hd.
  apply andb_true_iff in Hd as [Hc _]. eauto.
Qed.

Lemma digits12_head {A : Type} (k : jsstring -> jsstring -> option A)
  (s : jsstring) :
  digits12 k s <> None -> exists c rest, s = c :: rest /\ isDigit c = true.
Proof.
  unfold digits12, alt. destruct (digitsN 2 k s) eqn:E.
  - intros _. apply (digitsN_head 1 k). rewrite E. discriminate.
  - apply (digitsN_head 0 k).
Qed.

(** X8: a text cell without any digit is never a date: it is always a
    continuation row's cell. *)
Theorem text_without_digit_is_no_date `{Host} (s : jsstring) (g : option Z) :
  forallb notDigit s = true -> normalizeDateCell (CString s) g = Ok None.
Proof.
  intros Hs. unfold normalizeDateCell. cbn [safeText bind].
  assert (Ht : forallb notDigit (trim s) = true).
  { rewrite forallb_forall in *. intros c Hc. apply Hs, In_trim, Hc. }
  destruct (trim s) as [|c0 s0] eqn:Et; [reflexivity|].
  unfold re_month_day, re_iso.
  rewrite (search_fails month_day_at true _
             (fun _ rest => digits12_head _ rest) Ht).
  rewrite (search_fails iso_at true _
             (fun _ rest => digitsN_head 3 _ rest) Ht).
  reflexivity.
Qed.

Lemma text_without_digit_is_no_date_witness :
  normalizeDateCell (H := NodeHost.node) (CString $"kimchi stew / rice")
                    (Some 2026) = Ok None.
Proof.
  apply (text_without_digit_is_no_date (H := NodeHost.node)).
  reflexivity.
Defined.

(** ** The year-month-day expression *)

Lemma digits12_last {A : Type} (f : jsstring -> A) (s : jsstring) (r : A) :
  digits12 (fun d _ => Some (f d)) s = Some r <->
  exists b post,
    s = b ++ post /\ isDigits12 b /\
    (length b = 1%nat -> startsNonDigit post = true) /\ r = f b.
Proof.
  unfold digits12, alt. split.
  - destruct (digitsN 2 _ s) as [r2|] eqn:E2.
    + intros D. injection D as ->.
      apply digitsN_Some in E2 as (Hl & Hd & Hr). injection Hr as <-.
      exists (firstn 2 s), (skipn 2 s). unfold isDigits12.
      rewrite firstn_skipn, Hl. repeat split; auto. discriminate.
    + intros E1. apply digitsN_Some in E1 as (Hl & Hd & Hr).
      injection Hr as <-.
      exists (firstn 1 s), (skipn 1 s). unfold isDigits12.
      rewrite firstn_skipn. repeat split; auto.
      intros _. destruct s as [|c s]; [discriminate|].
      rewrite skipn_cons, skipn_O.
      destruct s as [|c2 q]; [reflexivity|]. cbn [startsNonDigit].
      destruct (isDigit c2) eqn:E; [|reflexivity]. exfalso.
      rewrite firstn_cons, firstn_O in Hd. cbn [forallb] in Hd.
      rewrite andb_true_r in Hd.
      rewrite (digitsN_app 2 _ [c; c2] q eq_refl) in E2; [discriminate|].
      cbn [forallb]. rewrite Hd, E. reflexivity.
  - intros (b & post & -> & [[Hl | Hl] Hd] & Hpost & ->).
    + destruct b as [|c [|? ?]]; try discriminate. cbn [app].
      rewrite (digitsN_2_None _ c post (Hpost eq_refl)).
      exact (digitsN_app 1 (fun d _ => Some (f d)) [c] post eq_refl Hd).
    + rewrite (digitsN_app 2 (fun d _ => Some (f d)) b post Hl Hd).
      reflexivity.
Qed.

(** [(\d{1,2})] followed by a hyphen and a continuation [k]. *)
Lemma digits12_hyphen {A : Type} (k : jsstring -> jsstring -> option A)
  (s : jsstring) (r : A) :
  digits12 (fun m => cls (Z.eqb 45) (k m)) s = Some r <->
  exists m rest,
    s = m ++ [45] ++ rest /\ isDigits12 m /\ k m rest = Some r.
Proof.
  unfold digits12, alt, cls. split.
  - assert (Hcase : forall n, (n = 1 \/ n = 2)%nat ->
              digitsN n (fun m s0 =>
                match s0 with
                | [] => None
                | c :: s' => if 45 =? c then k m s' else None
                end) s = Some r ->
              exists m rest,
                s = m ++ [45] ++ rest /\ isDigits12 m /\ k m rest = Some r).
    { intros n Hn E. apply digitsN_Some in E as (Hl & Hd & Hr).
      destruct (skipn n s) as [|c rest] eqn:Es; [discriminate|].
      destruct (Z.eqb_spec 45 c) as [<-|]; [|discriminate].
      exists (firstn n s), rest. unfold isDigits12. rewrite Hl.
      repeat split; auto.
      cbn [app]. rewrite <- Es, firstn_skipn. reflexivity. }
    destruct (digitsN 2 _ s) as [r2|] eqn:E2.
    + intros D. injection D as ->. apply (Hcase 2%nat); auto.
    + apply (Hcase 1%nat). auto.
  - intros (m & rest & -> & [[Hl | Hl] Hd] & Hk).
    + destruct m as [|c [|? ?]]; try discriminate. cbn [app].
      rewrite digitsN_2_None by reflexivity.
      refine (eq_trans (digitsN_app 1 _ [c] (45 :: rest) eq_refl Hd) _).
      cbn beta iota. rewrite Z.eqb_refl. exact Hk.
    + rewrite (digitsN_app 2 _ m ([45] ++ rest) Hl Hd).
      cbn [app]. rewrite Z.eqb_refl, Hk. reflexivity.
Qed.

Lemma iso_at_spec (flag : bool) (rest y m d : jsstring) :
  iso_at flag rest = Some (y, m, d) <-> isoPrefix rest y m d.
Proof.
  unfold iso_at, isoPrefix. split.
  - intros E. apply digitsN_Some in E as (Hl & Hd & E).
    unfold cls in E at 1.
    destruct (skipn 4 rest) as [|c rest1] eqn:Es; [discriminate|].
    destruct (Z.eqb_spec 45 c) as [<-|]; [|discriminate].
    apply (digits12_hyphen
             (fun m0 => digits12 (fun d0 _ => Some (firstn 4 rest, m0, d0))))
      in E as (m0 & rest2 & -> & Hm & E).
    apply (digits12_last (fun d0 => (firstn 4 rest, m0, d0)))
      in E as (d0 & post & -> & Hd0 & Hp & E).
    injection E as -> -> ->.
    exists post. repeat split; auto; try apply Hm; try apply Hd0.
    rewrite <- (firstn_skipn 4 rest) at 1. rewrite Es. reflexivity.
  - intros (post & -> & Hl & Hd & Hm & Hd0 & Hp).
    rewrite (digitsN_app 4 _ y _ Hl Hd). cbn [app cls].
    rewrite Z.eqb_refl.
    apply (digits12_hyphen
             (fun m0 => digits12 (fun d0 _ => Some (y, m0, d0)))).
    exists m, (d ++ post). repeat split; try apply Hm.
    apply (digits12_last (fun d0 => (y, m, d0))).
    exists d, post. repeat split; auto; apply Hd0.
Qed.

(** The search returns the leftmost place where the attempt succeeds. *)
Lemma search_leftmost {A : Type} (at_ : bool -> jsstring -> option A)
  (P : jsstring -> A -> Prop) (s : jsstring) (r : A) :
  (forall flag rest r', at_ flag rest = Some r' <-> P rest r') ->
  search at_ true s = Some r <->
  exists pre rest,
    s = pre ++ rest /\ P rest r /\
    forall pre' rest' r',
      s = pre' ++ rest' -> P rest' r' -> (length pre <= length pre')%nat.
Proof.
  intros Hat. split.
  - intros E. apply search_Some in E as (pre & rest & -> & E & Hmin).
    exists pre, rest. split; [reflexivity|].
    split; [apply (Hat (true && nilb pre)), E|].
    intros pre' rest' r' Hs Hp.
    destruct (Nat.le_gt_cases (length pre) (length pre')) as [|Hgt];
      [assumption | exfalso].
    apply (Hat (true && nilb pre')) in Hp.
    rewrite (Hmin pre' rest' Hs Hgt) in Hp. discriminate.
  - intros (pre & rest & -> & Hp & Hmin).
    destruct (search at_ true (pre ++ rest)) as [r0|] eqn:E.
    + apply search_Some in E as (pre0 & rest0 & Hs & E0 & Hmin0).
      pose proof E0 as Hp0. apply Hat in Hp0.
      pose proof (Hmin pre0 rest0 r0 Hs Hp0) as Hle.
      destruct (Nat.le_gt_cases (length pre0) (length pre)) as [Hle'|Hgt].
      * destruct (app_same_length _ _ _ _ Hs ltac:(lia)) as [-> ->].
        apply (Hat (true && nilb pre0)) in Hp. congruence.
      * exfalso. apply (Hat (true && nilb pre)) in Hp.
        rewrite (Hmin0 pre rest eq_refl Hgt) in Hp. discriminate.
    + exfalso. apply (Hat (true && nilb pre)) in Hp.
      rewrite (search_None _ _ _ E pre rest eq_refl) in Hp. discriminate.
Qed.

Lemma re_iso_spec (s y m d : jsstring) :
  re_iso s = Some (y, m, d) <-> isoMatch s y m d.
Proof.
  unfold re_iso, isoMatch.
  rewrite (search_leftmost iso_at
             (fun rest r => isoPrefix rest (fst (fst r)) (snd (fst r)) (snd r))).
  - cbn [fst snd]. split.
    + intros (pre & rest & Hs & Hp & Hmin). exists pre, rest.
      repeat split; auto.
      intros pre' rest' y' m' d' Hs' Hp'.
      apply (Hmin pre' rest' (y', m', d') Hs' Hp').
    + intros (pre & rest & Hs & Hp & Hmin). exists pre, rest.
      repeat split; auto.
      intros pre' rest' [[y' m'] d'] Hs' Hp'.
      apply (Hmin pre' rest' y' m' d' Hs' Hp').
  - intros flag rest [[y' m'] d']. apply iso_at_spec.
Qed.

Lemma noSlash_no_month_day (s : jsstring) :
  noSlash s = true -> re_month_day s = None.
Proof.
  intros Hs. destruct (re_month_day s) as [[a b]|] eqn:E; [|reflexivity].
  exfalso. apply re_month_day_spec in E
    as (pre & rest & -> & (ws1 & ws2 & post & -> & _) & _).
  unfold noSlash in Hs. rewrite forallb_forall in Hs.
  specialize (Hs 47). rewrite Z.eqb_refl in Hs.
  enough (negb true = true) by discriminate. apply Hs.
  rewrite !in_app_iff. right. right. right. left. left. reflexivity.
Qed.

(** ** [normalizeDateCell] on every kind of cell *)

(** The string of a day of a four-digit year is canonical and reads back
    as that day. *)
Lemma day_string_calendar `{Host} (n : Z) :
  1000 <= YearFromDay n <= 9999 ->
  let s := toISODate (Int (YearFromDay n)) (Int (MonthFromDay n + 1))
                     (Int (DateFromDay n)) in
  isCalendarDate s = true /\ dayNumber s = n.
Proof.
  intros Hy s. subst s.
  destruct (civil_of_day n) as [Hc Hn].
  pose proof (DaysInMonth_le_31 (YearFromDay n) (MonthFromDay n + 1)) as H31.
  assert (E : dateFields (toISODate (Int (YearFromDay n))
                            (Int (MonthFromDay n + 1)) (Int (DateFromDay n)))
              = Some (YearFromDay n, MonthFromDay n + 1, DateFromDay n)).
  { destruct Hc as [Hm Hd]. apply toISODate_fields; lia. }
  unfold isCalendarDate, dayNumber. rewrite E. split.
  - apply civilb_civil, Hc.
  - replace (MonthFromDay n + 1 - 1) with (MonthFromDay n) by lia. exact Hn.
Qed.

(** A cell that is no date by its type is read as its text. *)
Lemma normalizeDateCell_as_text `{Host} (c : cell) (g : option Z) t :
  hasDateCode c = false -> safeText c = Ok t ->
  normalizeDateCell c g = normalizeDateCell (CString t) g.
Proof.
  destruct c as [| |s|n|b|[|day iso]]; cbn [hasDateCode safeText];
    intros Hc E; try discriminate; injection E as <-; try reflexivity.
  unfold normalizeDateCell. cbn [safeText bind].
  destruct (Number_isFinite n); cbn [andb] in Hc; [|reflexivity].
  destruct (parse_date_code n) as [dc|]; [|reflexivity].
  rewrite Hc. reflexivity.
Qed.

(** The three outcomes of a text cell. *)
Lemma normalizeDateCell_text `{Host} (s : jsstring) (g : option Z) :
  normalizeDateCell (CString s) g =
  Ok match trim s with
     | [] => None
     | _ :: _ =>
         match re_month_day (trim s) with
         | Some (a, b) =>
             Some (toISODate (Int (nullish g currentYear))
                             (Int (Number_of_digits a))
                             (Int (Number_of_digits b)))
         | None =>
             match re_iso (trim s) with
             | Some (y, m, d) =>
                 Some (toISODate (Int (Number_of_digits y))
                                 (Int (Number_of_digits m))
                                 (Int (Number_of_digits d)))
             | None => None
             end
         end
     end.
Proof.
  unfold normalizeDateCell. cbn [safeText bind].
  destruct (trim s) as [|c0 s0]; [reflexivity|].
  destruct (re_month_day _) as [[a b]|]; [reflexivity|].
  destruct (re_iso _) as [[[y m] d]|]; reflexivity.
Qed.

Lemma re_month_day_nil : re_month_day [] = None.
Proof. reflexivity. Qed.

Lemma re_iso_nil : re_iso [] = None.
Proof. reflexivity. Qed.

(** C3 (as amended): on every cell but an invalid [Date],
    [normalizeDateCell] returns nothing or a string
    [String(y) + '-' + mm + '-' + dd] for integers [y], [m], [d], with
    [mm] and [dd] padded to two digits.  A valid [Date] cell gives the
    year, the month and the day of its local date, and in a year from 1000
    to 9999 that is the canonical string of a date of the calendar, the
    cell's own.  A finite number whose date code has a year, a month and a
    day other than zero gives these three, in this order.  Every other
    cell is read as its text: nothing for text that is empty once trimmed;
    for text with a month/day match, [m] and [d] are the numbers of the
    leftmost match and [y] is [baseYearGuess] when present, else the
    current year; for text with no month/day match and a year-month-day
    match, the three numbers of the leftmost match; nothing for text with
    neither.  The numbers read from text are not checked against the
    calendar; with a four-digit year the string reads [YYYY-MM-DD] with
    these numbers. *)
Theorem normalizeDateCell_spec `{Host} (c : cell) (g : option Z) :
  isInvalidDate c = false ->
  exists r,
    normalizeDateCell c g = Ok r /\
    (r = None \/ exists y m d, r = Some (toISODate (Int y) (Int m) (Int d))) /\
    (forall n iso, c = CDate (ValidDate n iso) ->
       r = Some (toISODate (Int (YearFromDay n)) (Int (MonthFromDay n + 1))
                           (Int (DateFromDay n))) /\
       (1000 <= YearFromDay n <= 9999 ->
        exists k, r = Some k /\ isCalendarDate k = true /\ dayNumber k = n)) /\
    (forall n dc, c = CNumber n ->
       Number_isFinite n = true -> parse_date_code n = Some dc ->
       dc_y dc <> 0 -> dc_m dc <> 0 -> dc_d dc <> 0 ->
       r = Some (toISODate (Int (dc_y dc)) (Int (dc_m dc)) (Int (dc_d dc)))) /\
    (forall t, hasDateCode c = false -> safeText c = Ok t ->
       normalizeDateCell (CString t) g = Ok r) /\
    (forall s, c = CString s -> trim s = [] -> r = None) /\
    (forall s a b,
       c = CString s -> monthDayMatch (trim s) a b ->
       let y := nullish g currentYear in
       let m := Number_of_digits a in
       let d := Number_of_digits b in
       r = Some (toISODate (Int y) (Int m) (Int d)) /\
       0 <= m <= 99 /\ 0 <= d <= 99 /\
       (1000 <= y <= 9999 ->
        dateFields (toISODate (Int y) (Int m) (Int d)) = Some (y, m, d))) /\
    (forall s iy im id,
       c = CString s -> (forall a b, ~ monthDayMatch (trim s) a b) ->
       isoMatch (trim s) iy im id ->
       let y := Number_of_digits iy in
       let m := Number_of_digits im in
       let d := Number_of_digits id in
       r = Some (toISODate (Int y) (Int m) (Int d)) /\
       0 <= y <= 9999 /\ 0 <= m <= 99 /\ 0 <= d <= 99 /\
       (1000 <= y ->
        dateFields (toISODate (Int y) (Int m) (Int d)) = Some (y, m, d))) /\
    (forall s,
       c = CString s -> (forall a b, ~ monthDayMatch (trim s) a b) ->
       (forall iy im id, ~ isoMatch (trim s) iy im id) -> r = None).
Proof.
  intros Hc. destruct (normalizeDateCell_ok c g Hc) as [r Hr].
  exists r. split; [exact Hr|].
  split; [|split; [|split; [|split; [|split; [|split; [|split]]]]]].
  - destruct r as [dt|]; [right | left; reflexivity].
    destruct (normalizeDateCell_shape _ _ _ Hr) as (y & m & d & ->). eauto.
  - intros n iso ->. cbn in Hr. injection Hr as <-.
    split; [reflexivity|]. intros Hy. eexists. split; [reflexivity|].
    apply (day_string_calendar n Hy).
  - intros n dc -> Hfin Hdc Hy Hm Hd.
    unfold normalizeDateCell in Hr. rewrite Hfin, Hdc in Hr.
    apply Z.eqb_neq in Hy, Hm, Hd. rewrite Hy, Hm, Hd in Hr.
    cbn [negb andb] in Hr. injection Hr as <-. reflexivity.
  - intros t Hd Et. rewrite <- (normalizeDateCell_as_text c g t Hd Et).
    exact Hr.
  - intros s -> Et. rewrite normalizeDateCell_text, Et in Hr.
    injection Hr as <-. reflexivity.
  - intros s a b -> Hm y m d.
    pose proof Hm as (pre & rest & _ & (ws1 & ws2 & post & _ & Ha & Hb & _) & _).
    pose proof (isDigits12_value a Ha) as Hma.
    pose proof (isDigits12_value b Hb) as Hmb.
    apply re_month_day_spec in Hm.
    rewrite normalizeDateCell_text in Hr.
    destruct (trim s) as [|c0 s0] eqn:Et;
      [rewrite re_month_day_nil in Hm; discriminate|].
    rewrite Hm in Hr. injection Hr as <-.
    repeat split; try apply Hma; try apply Hmb.
    intros Hy. apply toISODate_fields; assumption.
  - intros s iy im id -> Hno Hm y m d.
    pose proof Hm
      as (pre & rest & _ & (post & _ & Hly & Hdy & Hmm & Hdd & _) & _).
    pose proof (isDigits12_value im Hmm) as Bm.
    pose proof (isDigits12_value id Hdd) as Bd.
    assert (By : 0 <= y <= 9999).
    { unfold y. destruct iy as [|a [|b [|c [|e [|? ?]]]]]; try discriminate.
      digit_bounds. digit_values. lia. }
    apply re_iso_spec in Hm.
    rewrite normalizeDateCell_text in Hr.
    destruct (trim s) as [|c0 s0] eqn:Et;
      [rewrite re_iso_nil in Hm; discriminate|].
    destruct (re_month_day (c0 :: s0)) as [[a b]|] eqn:Emd.
    { exfalso. apply re_month_day_spec in Emd. exact (Hno a b Emd). }
    rewrite Hm in Hr. injection Hr as <-.
    repeat split; try apply Bm; try apply Bd; try apply By.
    intros Hy. apply toISODate_fields; lia.
  - intros s -> Hno Hnoiso.
    rewrite normalizeDateCell_text in Hr.
    destruct (trim s) as [|c0 s0] eqn:Et; [injection Hr as <-; reflexivity|].
    destruct (re_month_day (c0 :: s0)) as [[a b]|] eqn:Emd.
    { exfalso. apply re_month_day_spec in Emd. exact (Hno a b Emd). }
    destruct (re_iso (c0 :: s0)) as [[[iy im] id]|] eqn:Eiso.
    { exfalso. apply re_iso_spec in Eiso. exact (Hnoiso iy im id Eiso). }
    injection Hr as <-. reflexivity.
Qed.

Lemma normalizeDateCell_spec_witness :
  exists r,
    normalizeDateCell (H := NodeHost.node) Sample.monday_cell (Some 2026)
      = Ok r /\
    (r = None \/ exists y m d, r = Some (toISODate (Int y) (Int m) (Int d))).
Proof.
  destruct (normalizeDateCell_spec (H := NodeHost.node) Sample.monday_cell
              (Some 2026) eq_refl) as (r & Hr & Hshape & _).
  exists r. split; [exact Hr | exact Hshape].
Defined.

(** X9: a text cell without a slash whose trimmed text holds the pattern
    year-month-day (four digits, one or two, one or two) gives the date
    of the leftmost such place, with month and day padded; the string is
    canonical when the four digits read 1000 or more. *)
Theorem iso_text_cell `{Host} (s y m d : jsstring) (g : option Z) :
  noSlash s = true -> isoMatch (trim s) y m d ->
  let yy := Number_of_digits y in
  let mm := Number_of_digits m in
  let dd := Number_of_digits d in
  normalizeDateCell (CString s) g
    = Ok (Some (toISODate (Int yy) (Int mm) (Int dd))) /\
  0 <= yy <= 9999 /\ 0 <= mm <= 99 /\ 0 <= dd <= 99 /\
  (1000 <= yy ->
   dateFields (toISODate (Int yy) (Int mm) (Int dd)) = Some (yy, mm, dd)).
Proof.
  intros Hs Hm yy mm dd.
  pose proof Hm as (pre & rest & _ & (post & _ & Hly & Hdy & Hmm & Hdd & _) & _).
  pose proof (isDigits12_value m Hmm) as Bm.
  pose proof (isDigits12_value d Hdd) as Bd.
  assert (By : 0 <= yy <= 9999).
  { unfold yy. destruct y as [|a [|b [|c [|e [|? ?]]]]]; try discriminate.
    digit_bounds. digit_values. lia. }
  assert (Ht : noSlash (trim s) = true).
  { unfold noSlash in *. rewrite forallb_forall in *.
    intros c Hc. apply Hs, In_trim, Hc. }
  apply re_iso_spec in Hm.
  repeat split; try apply Bm; try apply Bd; try apply By.
  - unfold normalizeDateCell. cbn [safeText bind].
    destruct (trim s) as [|c0 s0] eqn:Et; [discriminate|].
    rewrite (noSlash_no_month_day _ Ht), Hm. reflexivity.
  - intros Hy. apply toISODate_fields; lia.
Qed.

Lemma iso_text_cell_witness :
  normalizeDateCell (H := NodeHost.node) (CString $" 2026-1-5 ") None
  = Ok (Some (toISODate (Int (Number_of_digits $"2026"))
                        (Int (Number_of_digits $"1"))
                        (Int (Number_of_digits $"5")))).
Proof.
  apply (iso_text_cell (H := NodeHost.node) $" 2026-1-5 " $"2026" $"1" $"5"
           None eq_refl).
  apply re_iso_spec. reflexivity.
Defined.

(** ** [mondayOf] on the calendar *)

(** A canonical string is determined by the fields it writes. *)
Lemma dateFields_inj (s1 s2 : jsstring) (t : Z * Z * Z) :
  dateFields s1 = Some t -> dateFields s2 = Some t -> s1 = s2.
Proof.
  destruct t as [[y m] d]. intros E1 E2.
  apply dateFields_Some in E1
    as (a3 & a2 & a1 & a0 & b1 & b0 & c1 & c0 & -> & D1 & Y1 & M1 & DD1).
  apply dateFields_Some in E2
    as (e3 & e2 & e1 & e0 & f1 & f0 & g1 & g0 & -> & D2 & Y2 & M2 & DD2).
  digit_bounds. rewrite Y2 in Y1. rewrite M2 in M1. rewrite DD2 in DD1.
  digit_values.
  assert (a3 = e3) by lia. assert (a2 = e2) by lia.
  assert (a1 = e1) by lia. assert (a0 = e0) by lia.
  assert (b1 = f1) by lia. assert (b0 = f0) by lia.
  assert (c1 = g1) by lia. assert (c0 = g0) by lia.
  congruence.
Qed.

(** Two dates of the calendar with the same day number are the same. *)
Lemma civil_day_inj (y1 m1 d1 y2 m2 d2 : Z) :
  civil y1 m1 d1 -> civil y2 m2 d2 ->
  MakeDay y1 (m1 - 1) d1 = MakeDay y2 (m2 - 1) d2 ->
  (y1, m1, d1) = (y2, m2, d2).
Proof.
  intros C1 C2 E.
  destruct (Z.lt_trichotomy y1 y2) as [L | [-> | L]].
  - pose proof (MakeDay_lex _ _ _ _ _ _ C1 C2 (or_introl L)). lia.
  - destruct (Z.lt_trichotomy m1 m2) as [L | [-> | L]].
    + pose proof (MakeDay_lex _ _ _ _ _ _ C1 C2
                    (or_intror (conj eq_refl (or_introl L)))). lia.
    + destruct (Z.lt_trichotomy d1 d2) as [L | [-> | L]].
      * pose proof (MakeDay_lex _ _ _ _ _ _ C1 C2
          (or_intror (conj eq_refl (or_intror (conj eq_refl L))))). lia.
      * reflexivity.
      * pose proof (MakeDay_lex _ _ _ _ _ _ C2 C1
          (or_intror (conj eq_refl (or_intror (conj eq_refl L))))). lia.
    + pose proof (MakeDay_lex _ _ _ _ _ _ C2 C1
                    (or_intror (conj eq_refl (or_introl L)))). lia.
  - pose proof (MakeDay_lex _ _ _ _ _ _ C2 C1 (or_introl L)). lia.
Qed.

Lemma dayNumber_inj (s1 s2 : jsstring) :
  isCalendarDate s1 = true -> isCalendarDate s2 = true ->
  dayNumber s1 = dayNumber s2 -> s1 = s2.
Proof.
  unfold isCalendarDate, dayNumber.
  destruct (dateFields s1) as [[[y1 m1] d1]|] eqn:E1; [|discriminate].
  destruct (dateFields s2) as [[[y2 m2] d2]|] eqn:E2; [|discriminate].
  intros C1 C2 E. apply civilb_civil in C1, C2.
  pose proof (civil_day_inj _ _ _ _ _ _ C1 C2 E) as Et.
  rewrite Et in E1. exact (dateFields_inj _ _ _ E1 E2).
Qed.

(** X10: the Monday of a week is what [mondayOf] returns for each of its
    seven days: for a calendar date [w] that is a Monday and a calendar
    date [s] of year 1001 or later that lies zero to six days after [w],
    [mondayOf s] is [w]. *)
Theorem mondayOf_of_week `{Host} (s w : jsstring) :
  isCalendarDate s = true -> 1001 <= yearOf s ->
  isCalendarDate w = true -> WeekDay (dayNumber w) = 1 ->
  0 <= dayNumber s - dayNumber w <= 6 ->
  mondayOf s = w.
Proof.
  intros Cs Ys Cw Ww Hd.
  destruct (mondayOf_monday s Cs Ys) as (Cm & Wm & Hm & _).
  apply dayNumber_inj; try assumption.
  unfold WeekDay in Ww, Wm.
  revert Ww Wm Hd Hm.
  generalize (dayNumber (mondayOf s)) (dayNumber w) (dayNumber s).
  intros a b c. intros. Z.div_mod_to_equations. lia.
Qed.

Lemma mondayOf_of_week_witness :
  mondayOf (H := NodeHost.node) $"2026-01-18" = $"2026-01-12".
Proof.
  apply (mondayOf_of_week (H := NodeHost.node) $"2026-01-18" $"2026-01-12");
    [ reflexivity | vm_compute; discriminate | reflexivity | reflexivity
    | vm_compute; split; discriminate ].
Defined.

(** X11: [mondayOf] is idempotent on calendar dates of year 1001 or
    later: the Monday of a week is its own Monday. *)
Theorem mondayOf_idempotent `{Host} (s : jsstring) :
  isCalendarDate s = true -> 1001 <= yearOf s ->
  mondayOf (mondayOf s) = mondayOf s.
Proof.
  intros Cs Ys.
  destruct (mondayOf_monday s Cs Ys) as (Cm & Wm & Hd & _).
  unfold isCalendarDate in Cm, Cs. unfold dayNumber in Wm, Hd.
  unfold yearOf in Ys.
  destruct (dateFields (mondayOf s)) as [[[y m] d]|] eqn:E; [|discriminate].
  destruct (dateFields s) as [[[ys ms] ds]|] eqn:Es; [|discriminate].
  apply civilb_civil in Cm, Cs.
  assert (Hy : 1000 <= y).
  { destruct (Z.lt_ge_cases y 1000) as [Hlt|]; [exfalso | lia].
    pose proof (civil_within_year _ _ _ Cs) as Ws.
    pose proof (civil_within_year _ _ _ Cm) as Wy.
    rewrite (MakeDay_civil ys) in Hd by apply Cs.
    rewrite (MakeDay_civil y) in Hd by apply Cm.
    pose proof (DayFromYear_mono 1001 ys Ys) as M1.
    pose proof (DayFromYear_mono (y + 1) 1000 ltac:(lia)) as M2.
    rewrite DayFromYear_succ in M2.
    change (DayFromYear 1001) with (-353920) in *.
    change (DayFromYear 1000) with (-354285) in *. lia. }
  rewrite (mondayOf_calendar (mondayOf s) y m d E Cm). cbv zeta.
  assert (Hb : mondayBefore (MakeDay y (m - 1) d) = MakeDay y (m - 1) d).
  { unfold mondayBefore. rewrite Wm. change ((1 + 6) mod 7) with 0. lia. }
  rewrite Hb. set (n := MakeDay y (m - 1) d).
  destruct (civil_of_day n) as [Cn En].
  assert (Et : (YearFromDay n, MonthFromDay n + 1, DateFromDay n) = (y, m, d)).
  { apply civil_day_inj; try assumption.
    replace (MonthFromDay n + 1 - 1) with (MonthFromDay n) by lia.
    exact En. }
  injection Et as -> -> ->.
  pose proof (dateFields_bounds _ _ _ _ E) as (By & Bm & Bd).
  apply (dateFields_inj _ _ (y, m, d)); [|exact E].
  apply toISODate_fields; lia.
Qed.

Lemma mondayOf_idempotent_witness :
  mondayOf (H := NodeHost.node) (mondayOf (H := NodeHost.node) $"2026-01-18")
  = mondayOf (H := NodeHost.node) $"2026-01-18".
Proof.
  apply (mondayOf_idempotent (H := NodeHost.node) $"2026-01-18");
    vm_compute; [reflexivity | discriminate].
Defined.

(** X12: on a string [YYYY-MM-DD] whose month is not 1..12 or whose day
    is not 1..31, [mondayOf] returns the text "NaN-NaN-NaN", whatever the
    host. *)
Theorem mondayOf_out_of_range `{Host} (s : jsstring) (y m d : Z) :
  dateFields s = Some (y, m, d) ->
  m < 1 \/ 12 < m \/ d < 1 \/ 31 < d ->
  mondayOf s = $"NaN-NaN-NaN".
Proof.
  intros E Hr.
  apply dateFields_Some in E
    as (a3 & a2 & a1 & a0 & b1 & b0 & c1 & c0 & -> & D & _ & -> & ->).
  unfold mondayOf, Date_of_local_midnight. rewrite D.
  replace ((1 <=? Number_of_digits [b1; b0])
           && (Number_of_digits [b1; b0] <=? 12)
           && (1 <=? Number_of_digits [c1; c0])
           && (Number_of_digits [c1; c0] <=? 31)) with false.
  - reflexivity.
  - symmetry. rewrite !andb_false_iff, !Z.leb_gt. lia.
Qed.

Lemma mondayOf_out_of_range_witness :
  mondayOf (H := NodeHost.node) $"2026-13-45" = $"NaN-NaN-NaN".
Proof.
  apply (mondayOf_out_of_range (H := NodeHost.node) $"2026-13-45" 2026 13 45);
    [reflexivity | lia].
Defined.

(** ** The date keys of the document, in order *)

Lemma distinct_seen_ext (l s1 s2 : list jsstring) :
  (forall x, In x s1 <-> In x s2) -> distinct l s1 = distinct l s2.
Proof.
  revert s1 s2. induction l as [|a l IH]; intros s1 s2 Hs; cbn [distinct];
    [reflexivity|].
  assert (E : existsb (str_eqb a) s1 = existsb (str_eqb a) s2).
  { destruct (existsb (str_eqb a) s2) eqn:E2.
    - apply existsb_str_eqb, Hs, existsb_str_eqb, E2.
    - apply existsb_str_eqb_false. intros F.
      apply existsb_str_eqb_false in E2. apply E2, Hs, F. }
  rewrite E. destruct (existsb (str_eqb a) s2).
  - apply IH, Hs.
  - f_equal. apply IH. intros x. cbn [In]. rewrite Hs. reflexivity.
Qed.

Lemma distinct_app (a b seen : list jsstring) :
  distinct (a ++ b) seen = distinct a seen ++ distinct b (seen ++ distinct a seen).
Proof.
  revert seen. induction a as [|x a IH]; intros seen; cbn [app distinct].
  - rewrite app_nil_r. reflexivity.
  - destruct (existsb (str_eqb x) seen) eqn:E.
    + apply IH.
    + cbn [app]. f_equal. rewrite IH. f_equal.
      apply distinct_seen_ext. intros y.
      cbn [In]. rewrite ?in_app_iff. cbn [In]. tauto.
Qed.

Lemma distinct_NoDup (l seen : list jsstring) : NoDup (distinct l seen).
Proof.
  revert seen. induction l as [|a l IH]; intros seen; cbn [distinct].
  - constructor.
  - destruct (existsb (str_eqb a) seen); [apply IH|].
    constructor; [|apply IH].
    intros F. apply distinct_In in F as [_ F]. apply F. left. reflexivity.
Qed.

Lemma ensureDay_key_list (dt : jsstring) ds :
  map fst (ensureDay dt ds) = map fst ds ++ distinct [dt] (map fst ds).
Proof.
  unfold ensureDay. cbn [distinct].
  destruct (obj_get str_eqb dt ds) as [day|] eqn:E.
  - apply obj_get_key in E. apply existsb_str_eqb in E. rewrite E.
    rewrite app_nil_r. reflexivity.
  - pose proof (obj_get_absent _ _ E) as Hn.
    apply existsb_str_eqb_false in Hn. rewrite Hn.
    rewrite (obj_set_absent _ _ _ E), map_app. reflexivity.
Qed.

Lemma rowStep_key_list `{Host} mealCols g (st st' : loop_state) (r : row) :
  rowStep mealCols g st r = Ok st' ->
  map fst (days_acc st') =
  map fst (days_acc st) ++ distinct (anchorsOf g [r]) (map fst (days_acc st)).
Proof.
  unfold rowStep, anchorsOf, dateOf. cbn [flat_map].
  destruct (normalizeDateCell (cellAt r 0) g) as [[dt|]|e] eqn:En;
    cbn [bind]; [| |discriminate].
  - pose proof (normalizeDateCell_nonempty _ _ _ En) as Hne.
    destruct dt as [|c dt]; [congruence|].
    intros E. injection E as <-. cbn [days_acc app].
    apply ensureDay_key_list.
  - cbn [app distinct]. rewrite app_nil_r.
    destruct (currentDate st) as [[|c cur]|].
    + intros E. injection E as <-. reflexivity.
    + destruct (obj_get str_eqb (c :: cur) (days_acc st)) as [day|] eqn:Eg;
        [|discriminate].
      destruct (addTo r _ _); cbn [bind]; [|discriminate].
      destruct (addTo r _ _); cbn [bind]; [|discriminate].
      destruct (addTo r _ _); cbn [bind]; [|discriminate].
      destruct (addExtras r _ _); cbn [bind]; [|discriminate].
      intros E. injection E as <-. cbn [days_acc].
      apply (obj_set_present _ _ _ _ Eg).
    + intros E. injection E as <-. reflexivity.
Qed.

Lemma rowLoop_key_list `{Host} mealCols g (rows : list row)
  (st st' : loop_state) :
  rowLoop mealCols g st rows = Ok st' ->
  map fst (days_acc st') =
  map fst (days_acc st) ++ distinct (anchorsOf g rows) (map fst (days_acc st)).
Proof.
  revert st. induction rows as [|r rows IH]; intros st; cbn [rowLoop].
  - intros E. injection E as <-. cbn. rewrite app_nil_r. reflexivity.
  - destruct (rowStep mealCols g st r) as [st1|] eqn:E1; cbn [bind];
      [|discriminate].
    intros E. rewrite (anchorsOf_cons g r rows), distinct_app, app_assoc.
    rewrite (IH _ E), (rowStep_key_list _ _ _ _ _ E1). reflexivity.
Qed.

(** X13: the date keys of [days] are the dates of the anchor rows in the
    order of their first appearance, each once; so [days] has as many
    entries as the sheet has distinct anchor dates. *)
Theorem days_in_order_of_appearance `{Host} rows sheetName originalFilename
  site doc :
  parseRows rows sheetName originalFilename site = Ok doc ->
  let g := option_map bd_y (parseBaseDateFromFilename originalFilename) in
  map fst (days doc) = distinct (anchorsOf g rows) [] /\
  NoDup (map fst (days doc)).
Proof.
  intros Hp g.
  destruct (parseRows_inv _ _ _ _ _ Hp) as (mealCols & st & Hloop & Hkeys & _).
  fold g in Hloop. apply rowLoop_key_list in Hloop. cbn in Hloop.
  rewrite Hkeys, Hloop. split; [reflexivity | apply distinct_NoDup].
Qed.

Lemma days_in_order_of_appearance_witness :
  map fst (days (match Sample.document with
                 | Ok doc => doc
                 | Throw _ =>
                     {| site := []; source_filename := [];
                        source_sheet := None; weekStart := None; days := [] |}
                 end))
  = distinct (anchorsOf (H := NodeHost.node) (Some 2026) Sample.grid) [].
Proof.
  apply (days_in_order_of_appearance (H := NodeHost.node) Sample.grid
           (Some $"Sheet1") $"260112_meal.xlsx" $"main").
  vm_compute. reflexivity.
Defined.

(** ** The items of the document *)

Section Items.
Context `{Host}.
Variable P : jsstring -> Prop.

Lemma addTo_Forall (r : row) (cols : list nat) bucket bucket' :
  (forall c items, splitMenuItems (cellAt r c) = Ok items -> Forall P items) ->
  Forall P bucket -> addTo r cols bucket = Ok bucket' -> Forall P bucket'.
Proof.
  intros Hr. revert bucket. induction cols as [|c cols IH]; intros bucket Hb;
    cbn [addTo].
  - intros E. injection E as <-. exact Hb.
  - destruct (splitMenuItems (cellAt r c)) as [items|] eqn:Es; cbn [bind];
      [|discriminate].
    destruct items as [|i items]; [apply IH, Hb|].
    destruct (spread_ok _); [|discriminate].
    apply IH. apply Forall_app. split; [exact Hb | exact (Hr _ _ Es)].
Qed.

Lemma obj_get_In {K V : Type} (eqb : K -> K -> bool) (k : K) (v : V) o :
  obj_get eqb k o = Some v -> exists k', In (k', v) o.
Proof.
  induction o as [|[k' v'] o IH]; cbn [obj_get]; [discriminate|].
  destruct (eqb k k').
  - intros E. injection E as <-. exists k'. left. reflexivity.
  - intros E. destruct (IH E) as [k0 Hk]. exists k0. right. exact Hk.
Qed.

Lemma obj_set_In {K V : Type} (eqb : K -> K -> bool) (k k0 : K) (v v0 : V) o :
  In (k, v) (obj_set eqb k0 v0 o) -> v = v0 \/ In (k, v) o.
Proof.
  induction o as [|[k' v'] o IH]; cbn [obj_set].
  - intros [E | []]. injection E as _ <-. left. reflexivity.
  - destruct (eqb k0 k').
    + intros [E | Hin].
      * injection E as _ <-. left. reflexivity.
      * right. right. exact Hin.
    + intros [E | Hin].
      * right. left. exact E.
      * destruct (IH Hin) as [? | ?]; [left | right; right]; assumption.
Qed.

Lemma addExtra_Forall (r : row) ek (cols : list nat) ex ex' :
  (forall c items, splitMenuItems (cellAt r c) = Ok items -> Forall P items) ->
  extrasAll P ex -> addExtra r ek cols ex = Ok ex' -> extrasAll P ex'.
Proof.
  intros Hr. revert ex. induction cols as [|c cols IH]; intros ex Hex;
    cbn [addExtra].
  - intros E. injection E as <-. exact Hex.
  - destruct (splitMenuItems (cellAt r c)) as [items|] eqn:Es; cbn [bind];
      [|discriminate].
    destruct items as [|i items]; [apply IH, Hex|].
    destruct (spread_ok _); [|discriminate].
    apply IH. intros ek' l Hin.
    apply obj_set_In in Hin as [-> | Hin]; [|exact (Hex _ _ Hin)].
    apply Forall_app. split; [|exact (Hr _ _ Es)].
    destruct (obj_get String.eqb ek ex) as [old|] eqn:Eo; [|constructor].
    destruct (obj_get_In _ _ _ _ Eo) as [k0 Hk]. exact (Hex _ _ Hk).
Qed.

Lemma addExtras_Forall (r : row) entries ex ex' :
  (forall c items, splitMenuItems (cellAt r c) = Ok items -> Forall P items) ->
  extrasAll P ex -> addExtras r entries ex = Ok ex' -> extrasAll P ex'.
Proof.
  intros Hr. revert ex. induction entries as [|[ek cols] entries IH];
    intros ex Hex; cbn [addExtras].
  - intros E. injection E as <-. exact Hex.
  - destruct (addExtra r ek cols ex) as [ex1|] eqn:E1; cbn [bind];
      [|discriminate].
    apply IH. exact (addExtra_Forall _ _ _ _ _ Hr Hex E1).
Qed.

Lemma emptyDay_all : bucketsAll P emptyDay.
Proof.
  unfold bucketsAll, extrasAll. cbn. repeat split; try constructor.
  intros ek l [].
Qed.

Lemma ensureDay_all (dt : jsstring) ds : daysAll P ds -> daysAll P (ensureDay dt ds).
Proof.
  unfold ensureDay. destruct (obj_get str_eqb dt ds); [auto|].
  intros Hd k day Hin. apply obj_set_In in Hin as [-> | Hin].
  - apply emptyDay_all.
  - exact (Hd _ _ Hin).
Qed.

Lemma rowStep_all mealCols g (st st' : loop_state) (r : row) :
  (forall c items, splitMenuItems (cellAt r c) = Ok items -> Forall P items) ->
  daysAll P (days_acc st) -> rowStep mealCols g st r = Ok st' ->
  daysAll P (days_acc st').
Proof.
  intros Hr Hd. unfold rowStep.
  destruct (normalizeDateCell (cellAt r 0) g) as [dateISO|]; cbn [bind];
    [|discriminate].
  assert (Hrest :
    match currentDate st with
    | Some ((_ :: _) as cur) =>
        match obj_get str_eqb cur (days_acc st) with
        | None => Throw TypeError
        | Some day =>
            b <- addTo r (cm_breakfast mealCols) (b_breakfast day) ;;
            l <- addTo r (cm_lunch mealCols) (b_lunch day) ;;
            dn <- addTo r (cm_dinner mealCols) (b_dinner day) ;;
            ex <- addExtras r (cm_extras mealCols) (b_extras day) ;;
            Ok {| currentDate := currentDate st;
                  allDates := allDates st;
                  days_acc :=
                    obj_set str_eqb cur
                      {| b_breakfast := b; b_lunch := l; b_dinner := dn;
                         b_extras := ex |}
                      (days_acc st) |}
        end
    | _ => Ok st
    end = Ok st' -> daysAll P (days_acc st')).
  { destruct (currentDate st) as [[|c cur]|].
    - intros E. injection E as <-. exact Hd.
    - destruct (obj_get str_eqb (c :: cur) (days_acc st)) as [day|] eqn:Eg;
        [|discriminate].
      destruct (obj_get_In _ _ _ _ Eg) as [k0 Hk0].
      destruct (Hd _ _ Hk0) as (Hb & Hl & Hn & He).
      destruct (addTo r (cm_breakfast mealCols) _) as [b|] eqn:Eb; cbn [bind];
        [|discriminate].
      destruct (addTo r (cm_lunch mealCols) _) as [l|] eqn:El; cbn [bind];
        [|discriminate].
      destruct (addTo r (cm_dinner mealCols) _) as [dn|] eqn:En; cbn [bind];
        [|discriminate].
      destruct (addExtras r _ _) as [ex|] eqn:Ee; cbn [bind]; [|discriminate].
      intros E. injection E as <-. cbn [days_acc].
      intros k day' Hin. apply obj_set_In in Hin as [-> | Hin].
      + repeat split; cbn.
        * exact (addTo_Forall _ _ _ _ Hr Hb Eb).
        * exact (addTo_Forall _ _ _ _ Hr Hl El).
        * exact (addTo_Forall _ _ _ _ Hr Hn En).
        * exact (addExtras_Forall _ _ _ _ Hr He Ee).
      + exact (Hd _ _ Hin).
    - intros E. injection E as <-. exact Hd. }
  destruct dateISO as [[|c dt]|]; try exact Hrest.
  intros E. injection E as <-. cbn [days_acc]. apply ensureDay_all, Hd.
Qed.

Lemma rowLoop_all mealCols g (rows : list row) (st st' : loop_state) :
  (forall r c items, In r rows -> splitMenuItems (cellAt r c) = Ok items ->
                     Forall P items) ->
  daysAll P (days_acc st) -> rowLoop mealCols g st rows = Ok st' ->
  daysAll P (days_acc st').
Proof.
  revert st. induction rows as [|r rows IH]; intros st Hr Hd; cbn [rowLoop].
  - intros E. injection E as <-. exact Hd.
  - destruct (rowStep mealCols g st r) as [st1|] eqn:E1; cbn [bind];
      [|discriminate].
    apply IH.
    + intros r' c items Hin. apply Hr. right. exact Hin.
    + apply (rowStep_all _ _ _ _ _ (fun c items => Hr r c items (or_introl eq_refl))
               Hd E1).
Qed.

End Items.

Lemma dedupe_kept (P : jsstring -> Prop) (arr : list jsstring) (x : jsstring) :
  Forall (fun y => P y /\ trim y = y) arr -> In x (dedupe arr) -> P x.
Proof.
  intros Ha Hx. unfold dedupe in Hx.
  apply dedupeLoop_members in Hx as (_ & (y & Hy & <-) & _).
  rewrite Forall_forall in Ha. destruct (Ha y Hy) as [Hp ->]. exact Hp.
Qed.

(** X14: every item of every day of the document is a line of a cell of
    the sheet as [splitMenuItems] gives it: non-empty, trimmed, without
    line break, and not a header label. *)
Theorem document_items_are_lines `{Host} rows sheetName originalFilename site
  doc k day x :
  parseRows rows sheetName originalFilename site = Ok doc ->
  In (k, day) (days doc) -> In x (itemsOfDay day) ->
  menuLine x /\ lineOf rows x.
Proof.
  intros Hp Hday Hx.
  set (Q := fun y => (menuLine y /\ lineOf rows y) /\ trim y = y).
  assert (Hrows : forall r c items, In r rows ->
            splitMenuItems (cellAt r c) = Ok items -> Forall Q items).
  { intros r c items Hr Es. apply Forall_forall. intros y Hy.
    pose proof (splitMenuItems_menuLine _ _ Es) as Hm.
    rewrite Forall_forall in Hm. specialize (Hm y Hy).
    split; [split; [exact Hm|] | apply Hm].
    exists r, c, items. auto. }
  unfold parseRows in Hp.
  destruct (detectHeaderColumns rows) as [det|]; cbn [bind] in Hp;
    [|discriminate].
  match type of Hp with
  | context [rowLoop ?mc ?g ?st0 rows] =>
      destruct (rowLoop mc g st0 rows) as [st|] eqn:Hloop
  end; cbn [bind] in Hp; [|discriminate].
  injection Hp as <-. cbn [days] in Hday.
  apply (rowLoop_all Q) in Hloop; [|exact Hrows|intros ? ? []].
  apply in_map_iff in Hday as ([k0 b] & E & Hb). cbn [fst snd] in E.
  injection E as -> <-.
  destruct (Hloop _ _ Hb) as (Hbr & Hlu & Hdi & Hex).
  unfold itemsOfDay, finishDay in Hx. cbn [breakfast lunch dinner extras] in Hx.
  rewrite !in_app_iff in Hx.
  destruct Hx as [Hx | [Hx | [Hx | Hx]]].
  - exact (dedupe_kept _ _ _ Hbr Hx).
  - exact (dedupe_kept _ _ _ Hlu Hx).
  - exact (dedupe_kept _ _ _ Hdi Hx).
  - apply in_concat in Hx as (l & Hl & Hx).
    apply in_map_iff in Hl as ([ek l'] & El & Hin). cbn [snd] in El. subst l'.
    assert (Hin' : In (ek, l)
              (filter (fun kv => negb (length (snd kv) =? 0)%nat)
                 (map (fun kv => (fst kv, dedupe (snd kv))) (b_extras b)))).
    { destruct (filter _ _); [destruct Hin | exact Hin]. }
    apply filter_In in Hin' as [Hin' _].
    apply in_map_iff in Hin' as ([ek0 l0] & E & Hin0). cbn [fst snd] in E.
    injection E as -> <-.
    exact (dedupe_kept _ _ _ (Hex _ _ Hin0) Hx).
Qed.

Lemma document_items_are_lines_witness :
  menuLine $"kimchi stew" /\
  lineOf (H := NodeHost.node) Sample.grid $"kimchi stew".
Proof.
  refine (document_items_are_lines (H := NodeHost.node) Sample.grid
            (Some $"Sheet1") $"260112_meal.xlsx" $"main" _ $"2026-01-12" _
            $"kimchi stew" _ _ _).
  - vm_compute. reflexivity.
  - left. reflexivity.
  - vm_compute. auto.
Defined.

(** ** The file name as a year hint *)

Lemma filename_hint_range `{Host} (filename : jsstring) (bd : base_date) :
  parseBaseDateFromFilename filename = Some bd ->
  2000 <= bd_y bd <= 2099 /\ 1 <= bd_mo bd <= 99 /\ 1 <= bd_d bd <= 99.
Proof.
  unfold parseBaseDateFromFilename.
  destruct (re_filename_date (basename filename)) as [g|] eqn:E;
    [|discriminate].
  destruct (re_filename_date_Some _ _ E) as (pre & post & (_ & Hl & Hd & _) & _).
  destruct g as [|a [|b [|c [|d [|e [|f [|? ?]]]]]]]; try discriminate.
  change (slice [a; b; c; d; e; f] 0 2) with [a; b].
  change (slice [a; b; c; d; e; f] 2 4) with [c; d].
  change (slice [a; b; c; d; e; f] 4 6) with [e; f].
  destruct (_ || _) eqn:Ez; [discriminate|].
  intros B. injection B as <-. cbn [bd_y bd_mo bd_d].
  apply orb_false_iff in Ez as [Ez Ed]. apply orb_false_iff in Ez as [_ Em].
  apply Z.eqb_neq in Em, Ed.
  digit_bounds. digit_values. lia.
Qed.

(** X15: a date read from a file name has a year from 2000 to 2099 and a
    month and a day from 1 to 99; neither is checked against the
    calendar. *)
Theorem filename_date_bounds `{Host} (filename : jsstring) (bd : base_date) :
  parseBaseDateFromFilename filename = Some bd ->
  2000 <= bd_y bd <= 2099 /\ 1 <= bd_mo bd <= 99 /\ 1 <= bd_d bd <= 99.
Proof. exact (filename_hint_range filename bd). Qed.

Lemma filename_date_bounds_witness :
  exists bd,
    parseBaseDateFromFilename (H := NodeHost.node) $"260112_mealplan.xlsx"
      = Some bd /\
    2000 <= bd_y bd <= 2099 /\ 1 <= bd_mo bd <= 99 /\ 1 <= bd_d bd <= 99.
Proof.
  eexists. split; [reflexivity|].
  exact (filename_date_bounds (H := NodeHost.node) $"260112_mealplan.xlsx"
           {| bd_y := 2026; bd_mo := 1; bd_d := 12 |} eq_refl).
Defined.

(** X16: with a date in the file name, a text cell whose trimmed text has
    a month/day match always gives a string [YYYY-MM-DD]: the year is the
    one of the file name, from 2000 to 2099, the month and the day are the
    numbers of the match. *)
Theorem month_day_cell_with_filename `{Host} (filename s a b : jsstring)
  (bd : base_date) :
  parseBaseDateFromFilename filename = Some bd ->
  monthDayMatch (trim s) a b ->
  exists k,
    normalizeDateCell (CString s)
      (option_map bd_y (parseBaseDateFromFilename filename)) = Ok (Some k) /\
    dateFields k = Some (bd_y bd, Number_of_digits a, Number_of_digits b) /\
    2000 <= bd_y bd <= 2099.
Proof.
  intros Hf Hm. rewrite Hf. cbn [option_map].
  destruct (filename_hint_range _ _ Hf) as (Hy & _ & _).
  pose proof Hm as (pre & rest & _ & (ws1 & ws2 & post & _ & Ha & Hb & _) & _).
  pose proof (isDigits12_value a Ha) as Hma.
  pose proof (isDigits12_value b Hb) as Hmb.
  apply re_month_day_spec in Hm.
  eexists. split; [|split; [|exact Hy]].
  - unfold normalizeDateCell. cbn [safeText bind].
    destruct (trim s) as [|c0 s0] eqn:Et; [discriminate|].
    rewrite Hm. cbn [nullish]. reflexivity.
  - apply toISODate_fields; lia.
Qed.

Lemma month_day_cell_with_filename_witness :
  exists k,
    normalizeDateCell (H := NodeHost.node) Sample.monday_cell
      (option_map bd_y
         (parseBaseDateFromFilename (H := NodeHost.node) $"260112_meal.xlsx"))
      = Ok (Some k) /\
    dateFields k = Some (2026, 1, 12).
Proof.
  destruct (month_day_cell_with_filename (H := NodeHost.node)
              $"260112_meal.xlsx"
              ($"1/12" ++ [10] ++ $"(" ++ [50900] ++ $")") $"1" $"12"
              {| bd_y := 2026; bd_mo := 1; bd_d := 12 |} eq_refl)
    as (k & Hk & Hf & _).
  - apply re_month_day_spec. reflexivity.
  - exists k. split; [exact Hk | exact Hf].
Defined.

(** ** The server: [requireAdmin] *)

Lemma js_or_supplied (req : admin_request) :
  js_or (header_token req)
    (js_or (body_token req) (js_or (query_token req) (VString [])))
  = match suppliedToken req with
    | Some v => v
    | None => VString []
    end.
Proof.
  unfold js_or, suppliedToken.
  destruct (truthy (header_token req)); [reflexivity|].
  destruct (truthy (body_token req)); [reflexivity|].
  destruct (truthy (query_token req)); reflexivity.
Qed.

Lemma nonEmpty_false (s : jsstring) : nonEmpty s = false <-> s = [].
Proof. destruct s; cbn; split; congruence. Qed.

(** X17: [requireAdmin] lets a request through exactly when the variable
    [ADMIN_TOKEN] is set to a non-empty text and the first truthy value
    among the header, the body field and the query field has that text.
    With the variable unset or empty nothing gets through, and neither
    does a request without a token. *)
Theorem requireAdmin_passes (env : option jsstring) (req : admin_request) :
  requireAdmin env req = Ok Next <->
  exists v tok,
    suppliedToken req = Some v /\ toString v = Ok tok /\
    tok <> [] /\ env = Some tok.
Proof.
  unfold requireAdmin. rewrite js_or_supplied. split.
  - destruct (suppliedToken req) as [v|] eqn:Ev.
    + destruct (toString v) as [tok|] eqn:Et; cbn [bind]; [|discriminate].
      destruct (nonEmpty (ADMIN_TOKEN env)) eqn:Ea; cbn [negb];
        [|discriminate].
      destruct (str_eqb tok (ADMIN_TOKEN env)) eqn:Ee; cbn [negb];
        [|discriminate].
      intros _. apply str_eqb_eq in Ee. apply nonEmpty_true in Ea.
      exists v, tok. repeat split; try congruence.
      destruct env as [s|]; cbn [ADMIN_TOKEN] in *; congruence.
    + cbn [toString bind].
      destruct (nonEmpty (ADMIN_TOKEN env)) eqn:Ea; cbn [negb];
        [|discriminate].
      destruct (ADMIN_TOKEN env); [discriminate|]. cbn. discriminate.
  - intros (v & tok & -> & -> & Hne & ->). cbn [bind ADMIN_TOKEN].
    destruct tok as [|c tok]; [congruence|]. cbn [nonEmpty negb].
    rewrite str_eqb_refl. reflexivity.
Qed.

(** X18: a truthy header decides alone: the fields of the body and of the
    query string are not looked at, so a wrong header is refused even
    beside a right field. *)
Theorem requireAdmin_header_first (env : option jsstring)
  (req : admin_request) :
  truthy (header_token req) = true ->
  requireAdmin env req =
  requireAdmin env {| header_token := header_token req;
                      body_token := VUndefined;
                      query_token := VUndefined |}.
Proof.
  intros Hh. unfold requireAdmin, js_or. cbn [header_token].
  rewrite Hh. reflexivity.
Qed.

Lemma requireAdmin_header_first_witness :
  requireAdmin (Some $"secret")
    {| header_token := VString $"guess";
       body_token := VString $"secret";
       query_token := VString $"secret" |}
  = Ok (Refuse 401 $"Unauthorized").
Proof.
  rewrite requireAdmin_header_first; reflexivity.
Defined.

(** ** The server: the upload handler *)

Lemma sortStrings_nil (l : list jsstring) : sortStrings l = [] -> l = [].
Proof.
  destruct l as [|x l]; [reflexivity|]. intros E. exfalso.
  assert (Hin : In x (sortStrings (x :: l)))
    by (apply sortStrings_In; left; reflexivity).
  rewrite E in Hin. destruct Hin.
Qed.

Lemma mondayOf_nonempty `{Host} (s : jsstring) : mondayOf s <> [].
Proof. unfold mondayOf. apply toISODate_nonempty. Qed.

(** The week start of a document is there, and not empty, exactly when
    the document has a day. *)
Lemma parseMealExcel_weekStart `{Host} readFile filePath originalFilename
  site doc :
  parseMealExcel readFile filePath originalFilename site = Ok doc ->
  match weekStart doc with
  | None => days doc = []
  | Some ws => ws <> [] /\ days doc <> []
  end.
Proof.
  intros Hp. destruct (parseMealExcel_rows _ _ _ _ _ Hp) as (rows & sn & Hr).
  destruct (parseRows_inv _ _ _ _ _ Hr) as (mc & st & Hloop & Hkeys & Hws).
  pose proof (rowLoop_key_list _ _ _ _ _ Hloop) as Hk.
  destruct (rowLoop_dates _ _ _ _ _ Hloop) as [Hd _].
  cbn [initialState days_acc allDates map app] in Hk, Hd.
  rewrite Hws, Hd, <- Hk, <- Hkeys.
  destruct (sortStrings (map fst (days doc))) as [|first rest] eqn:Es.
  - apply sortStrings_nil in Es. destruct (days doc); [reflexivity|discriminate].
  - split; [apply mondayOf_nonempty|].
    intros E. rewrite E in Es. discriminate.
Qed.

(** X19: whatever the handler answers for an uploaded file, it removes
    the temporary file last, and it gives a row to the database at most
    once and only when the parse returned a document with a non-empty
    week start: the row is that document under its week start, and the
    document has at least one day. *)
Theorem upload_calls `{Host} readFile query body_site query_site f reply calls :
  uploadHandler readFile query body_site query_site (Some f)
    = Ok (reply, calls) ->
  calls = [Unlink (file_path f)] \/
  exists site ws payload,
    calls = [Upsert site ws payload; Unlink (file_path f)] /\
    toString (js_or body_site (js_or query_site (VString $"main"))) = Ok site /\
    parseMealExcel readFile (file_path f) (originalname f) site = Ok payload /\
    weekStart payload = Some ws /\ ws <> [] /\ days payload <> [].
Proof.
  unfold uploadHandler.
  destruct (toString _) as [site|] eqn:Es; cbn [bind]; [|discriminate].
  destruct (parseMealExcel readFile (file_path f) (originalname f) site)
    as [payload|] eqn:Ep.
  - pose proof (parseMealExcel_weekStart _ _ _ _ _ Ep) as Hw.
    destruct (weekStart payload) as [[|c ws]|] eqn:Ew; cbn [fst snd app].
    + intros E. injection E as _ <-. left. reflexivity.
    + intros E. injection E as _ <-. right.
      exists site, (c :: ws), payload. repeat split; try assumption; apply Hw.
    + intros E. injection E as _ <-. left. reflexivity.
  - cbn [fst snd app]. intros E. injection E as _ <-. left. reflexivity.
Qed.

Lemma upload_calls_witness :
  exists reply calls,
    uploadHandler (H := NodeHost.node) Sample.readFile (fun _ _ _ => true)
      VUndefined VUndefined
      (Some {| file_path := $"/tmp/upload.xlsx";
               originalname := $"260112_meal.xlsx" |})
    = Ok (reply, calls) /\
    (calls = [Unlink $"/tmp/upload.xlsx"] \/
     exists site ws payload,
       calls = [Upsert site ws payload; Unlink $"/tmp/upload.xlsx"] /\
       weekStart payload = Some ws).
Proof.
  eexists. eexists. split; [vm_compute; reflexivity|].
  destruct (upload_calls (H := NodeHost.node) Sample.readFile
              (fun _ _ _ => true) VUndefined VUndefined
              {| file_path := $"/tmp/upload.xlsx";
                 originalname := $"260112_meal.xlsx" |} _ _ eq_refl)
    as [Hc | (site & ws & payload & Hc & _ & _ & Hw & _)].
  - left. exact Hc.
  - right. exists site, ws, payload. split; [exact Hc | exact Hw].
Defined.

(** X20: the answer of the handler for an uploaded file.  It is the 400
    about the week start exactly when the parse returned a document
    without days; the 200 summary exactly when the parse returned a
    document with a day and the database took the row, and then it names
    the site, the week start of the document and the number of its days;
    the 500 in the other cases: the parse raised or the database refused
    the row. *)
Theorem upload_reply_cases `{Host} readFile query body_site query_site f
  reply calls :
  uploadHandler readFile query body_site query_site (Some f)
    = Ok (reply, calls) ->
  exists site,
    toString (js_or body_site (js_or query_site (VString $"main"))) = Ok site /\
    match parseMealExcel readFile (file_path f) (originalname f) site with
    | Throw _ => reply = ReplyError 500 $"Upload/parse failed"
    | Ok payload =>
        match days payload with
        | [] =>
            reply = ReplyError 400 $"Could not determine weekStart from the file"
        | _ :: _ =>
            exists ws,
              weekStart payload = Some ws /\ ws <> [] /\
              reply = if query site ws payload
                      then ReplyOk site ws (length (days payload))
                      else ReplyError 500 $"Upload/parse failed"
        end
    end.
Proof.
  unfold uploadHandler.
  destruct (toString _) as [site|] eqn:Es; cbn [bind]; [|discriminate].
  intros E. exists site. split; [reflexivity|]. revert E.
  destruct (parseMealExcel readFile (file_path f) (originalname f) site)
    as [payload|] eqn:Ep.
  - pose proof (parseMealExcel_weekStart _ _ _ _ _ Ep) as Hw.
    destruct (weekStart payload) as [[|c ws]|] eqn:Ew; cbn [fst snd] in *.
    + destruct Hw as [Hw _]. congruence.
    + destruct Hw as [_ Hd].
      destruct (days payload) as [|d ds] eqn:Ed; [congruence|].
      intros E. injection E as <- _. exists (c :: ws).
      repeat split. discriminate.
    + rewrite Hw. intros E. injection E as <- _. reflexivity.
  - cbn [fst snd]. intros E. injection E as <- _. reflexivity.
Qed.

Lemma upload_reply_cases_witness :
  exists reply calls,
    uploadHandler (H := NodeHost.node) Sample.readFile (fun _ _ _ => true)
      VUndefined VUndefined
      (Some {| file_path := $"/tmp/upload.xlsx";
               originalname := $"260112_meal.xlsx" |})
    = Ok (reply, calls) /\
    reply = ReplyOk $"main" $"2026-01-12" 2.
Proof.
  eexists. eexists. split; [vm_compute; reflexivity|].
  destruct (upload_reply_cases (H := NodeHost.node) Sample.readFile
              (fun _ _ _ => true) VUndefined VUndefined
              {| file_path := $"/tmp/upload.xlsx";
                 originalname := $"260112_meal.xlsx" |} _ _ eq_refl)
    as (site & _ & _).
  reflexivity.
Defined.
